(** * Campaign validator, keyword normalizer and setup conversation

    A shallow embedding of
      - [campaign_validator.py]: [validate_campaign_spec], [normalize_keywords],
        and the lines of [main.py] that call them;
      - [setup_agent.py]: [extract_value], [setup_agent_chat];
    and the properties their specification states about them.

    Python values are the JSON-shaped values these functions receive: [None],
    booleans, integers, floats, texts, lists and dicts with text keys.  A dict
    is an association list in insertion order (the validator iterates over
    whatever it is given), a float is a [spec_float].

    The validator works on arbitrary texts.  A [str] is modelled as a [text],
    the sequence of its code points, so that [len] counts code points, a slice
    cuts between code points and [strip] removes the blanks of Unicode.  What
    depends on the character tables of Python's library ([upper]), on its
    formatting of numbers and containers ([str], the f-string conversion) and
    on [urlparse] is a parameter of the embedding, the record [pylib].

    The setup conversation is modelled on 8-bit strings (module [Str], further
    down), on which its built-ins are Python's for the messages of ASCII. *)

From Stdlib Require Import ZArith String Ascii List Bool Lia DecimalString DecimalNat SpecFloat
  Strings.Byte.
From stdpp Require Import base gmap strings list fin_maps.
Import ListNotations.
Set Warnings "-register-all,-clear-no-such-hyp".

(** ** Texts *)

(** A [str]: its code points, first to last. *)
Inductive text : Type :=
  | tnil
  | tcons (c : N) (t : text).

(** Text constants are written between double quotes; only ASCII characters
    are read that way, each as its code point. *)
Fixpoint text_of_bytes (l : list byte) : option text :=
  match l with
  | [] => Some tnil
  | b :: r =>
      match text_of_bytes r with
      | Some t => if (Byte.to_N b <? 128)%N then Some (tcons (Byte.to_N b) t) else None
      | None => None
      end
  end.

Fixpoint bytes_of_text (t : text) : option (list byte) :=
  match t with
  | tnil => Some []
  | tcons c r =>
      match Byte.of_N c, bytes_of_text r with
      | Some b, Some l => if (c <? 128)%N then Some (b :: l) else None
      | _, _ => None
      end
  end.

Declare Scope text_scope.
Delimit Scope text_scope with text.
Bind Scope text_scope with text.
String Notation text text_of_bytes bytes_of_text : text_scope.
Local Open Scope text_scope.

Module Text.

(** [str.isspace] on one character: the characters Unicode calls white space
    (TAB..CR, FS..US, the blank, NEL, the no-break space, the Ogham space
    mark, EN QUAD..HAIR SPACE, the line and paragraph separators, the narrow
    no-break space, the medium mathematical space, the ideographic space).
    These are the characters [strip] removes. *)
Definition is_space (c : N) : bool :=
  (((9 <=? c) && (c <=? 13)) || ((28 <=? c) && (c <=? 32))
   || (c =? 133) || (c =? 160) || (c =? 5760)
   || ((8192 <=? c) && (c <=? 8202))
   || (c =? 8232) || (c =? 8233) || (c =? 8239) || (c =? 8287) || (c =? 12288))%N.

Fixpoint lstrip (s : text) : text :=
  match s with
  | tnil => tnil
  | tcons c r => if is_space c then lstrip r else s
  end.

Fixpoint rstrip (s : text) : text :=
  match s with
  | tnil => tnil
  | tcons c r =>
      match rstrip r with
      | tnil => if is_space c then tnil else tcons c tnil
      | r' => tcons c r'
      end
  end.

Definition strip (s : text) : text := rstrip (lstrip s).

(** [len(s)]: the number of code points. *)
Fixpoint len (s : text) : nat :=
  match s with
  | tnil => 0
  | tcons _ r => S (len r)
  end.

(** [s[:n]] *)
Fixpoint take (n : nat) (s : text) : text :=
  match n, s with
  | S k, tcons c r => tcons c (take k r)
  | _, _ => tnil
  end.

(** [s + t] *)
Fixpoint app (s t : text) : text :=
  match s with
  | tnil => t
  | tcons c r => tcons c (app r t)
  end.

(** The characters of [s], each as a one-character text (iteration over a [str]). *)
Fixpoint chars (s : text) : list text :=
  match s with
  | tnil => []
  | tcons c r => tcons c tnil :: chars r
  end.

(** [sep.join(l)] *)
Fixpoint join (sep : text) (l : list text) : text :=
  match l with
  | [] => tnil
  | [x] => x
  | x :: r => app x (app sep (join sep r))
  end.

(** The decimal digits of a number, as [str] and the f-string conversion
    write the lengths and the indices of the messages. *)
Fixpoint of_uint (d : Decimal.uint) : text :=
  match d with
  | Decimal.Nil => tnil
  | Decimal.D0 r => tcons 48 (of_uint r)
  | Decimal.D1 r => tcons 49 (of_uint r)
  | Decimal.D2 r => tcons 50 (of_uint r)
  | Decimal.D3 r => tcons 51 (of_uint r)
  | Decimal.D4 r => tcons 52 (of_uint r)
  | Decimal.D5 r => tcons 53 (of_uint r)
  | Decimal.D6 r => tcons 54 (of_uint r)
  | Decimal.D7 r => tcons 55 (of_uint r)
  | Decimal.D8 r => tcons 56 (of_uint r)
  | Decimal.D9 r => tcons 57 (of_uint r)
  end.

Definition of_nat (n : nat) : text := of_uint (Nat.to_uint n).

Definition of_Z (z : Z) : text :=
  match Z.to_int z with
  | Decimal.Pos d => of_uint d
  | Decimal.Neg d => tcons 45 (of_uint d)
  end.

(** [not s] *)
Definition is_empty (s : text) : bool :=
  match s with
  | tnil => true
  | tcons _ _ => false
  end.

(** [s == t] *)
Fixpoint eqb (s t : text) : bool :=
  match s, t with
  | tnil, tnil => true
  | tcons c r, tcons c' r' => (c =? c')%N && eqb r r'
  | _, _ => false
  end.

(** [s in l] for a list [l] of text literals. *)
Definition mem (s : text) (l : list text) : bool := existsb (eqb s) l.

(** The code points of a text, and back. *)
Fixpoint codes (s : text) : list N :=
  match s with
  | tnil => []
  | tcons c r => c :: codes r
  end.

Fixpoint of_codes (l : list N) : text :=
  match l with
  | [] => tnil
  | c :: r => tcons c (of_codes r)
  end.

Fixpoint of_codes_codes (s : text) : of_codes (codes s) = s :=
  match s with
  | tnil => eq_refl
  | tcons c r => f_equal (tcons c) (of_codes_codes r)
  end.

(** Every character is one of ASCII. *)
Fixpoint is_ascii (s : text) : bool :=
  match s with
  | tnil => true
  | tcons c r => (c <? 128)%N && is_ascii r
  end.

(** [upper] on a text of ASCII: the letters a..z move to A..Z. *)
Definition ascii_upper_char (c : N) : N :=
  if ((97 <=? c) && (c <=? 122))%N then (c - 32)%N else c.

Fixpoint ascii_upper (s : text) : text :=
  match s with
  | tnil => tnil
  | tcons c r => tcons (ascii_upper_char c) (ascii_upper r)
  end.

End Text.

Notation "s ++ t" := (Text.app s t) : text_scope.

#[global] Instance text_eq_dec : EqDecision text.
Proof. solve_decision. Defined.

#[global] Instance text_countable : Countable text :=
  inj_countable' Text.codes Text.of_codes Text.of_codes_codes.

(** A text without a blank, as the decimal digits of a number are. *)
Definition digits (s : text) : Prop := Forall (fun c => c <> 32%N) (Text.codes s).

(** ** Python values and exceptions *)

Inductive pyval : Type :=
  | VNone
  | VBool (b : bool)
  | VInt (z : Z)
  | VFloat (f : spec_float)
  | VStr (s : text)
  | VList (l : list pyval)
  | VDict (d : list (text * pyval)).

(** A [dict] with text keys, in insertion order. *)
Abbreviation pydict := (list (text * pyval)).

(** The exceptions of the two modules; [KeyError] is raised by the setup
    conversation, on a key of its session data. *)
Inductive exn : Type :=
  | CampaignValidationError (msg : text)
  | AttributeError
  | TypeError
  | ValueError
  | KeyError (key : string)
  | UnboundLocalError.

Inductive result (A : Type) : Type :=
  | Ok (a : A)
  | Raise (e : exn).
Arguments Ok {A} a.
Arguments Raise {A} e.

Definition bind {A B} (r : result A) (k : A -> result B) : result B :=
  match r with
  | Ok a => k a
  | Raise e => Raise e
  end.

Notation "x <- r ;; k" := (bind r (fun x => k))
  (at level 100, r at next level, right associativity).


(** ** Built-ins on values *)

(** What the embedding takes from Python's library:
      - [str_other v]: the text [str(v)], which is also the conversion of
        [{v}] in an f-string, for an integer, a float, a list or a dict, or
        the exception it raises (Python 3.11 refuses to write an integer of
        more than 4300 digits with [ValueError]);
      - [urlparse_scheme url]: the scheme component [urlparse(url)] computes,
        or the exception it raises;
      - [upper s]: [s.upper()], with two facts the development relies on: on
        a text of ASCII it moves a..z to A..Z and nothing else, and
        upper-casing twice is upper-casing once. *)
Record pylib : Type := {
  str_other : pyval -> result text;
  urlparse_scheme : text -> result text;
  upper : text -> text;
  upper_ascii : forall s, Text.is_ascii s = true -> upper s = Text.ascii_upper s;
  upper_idem : forall s, upper (upper s) = upper s
}.

(** [d.get(k)]: [None] of Rocq when the key is absent. *)
Fixpoint dict_lookup (d : pydict) (k : text) : option pyval :=
  match d with
  | [] => None
  | (k', v) :: r => if Text.eqb k k' then Some v else dict_lookup r k
  end.

(** [d.get(k, default)] *)
Definition dict_get (d : pydict) (k : text) (default : pyval) : pyval :=
  match dict_lookup d k with
  | Some v => v
  | None => default
  end.

(** The receiver of a [str] method: any other value has no such attribute. *)
Definition as_str (v : pyval) : result text :=
  match v with
  | VStr s => Ok s
  | _ => Raise AttributeError
  end.

Definition float_is_zero (f : spec_float) : bool :=
  match f with
  | S754_zero _ => true
  | _ => false
  end.

(** Truth value of an object ([not v] is its negation). *)
Definition truthy (v : pyval) : bool :=
  match v with
  | VNone => false
  | VBool b => b
  | VInt z => negb (z =? 0)%Z
  | VFloat f => negb (float_is_zero f)
  | VStr s => negb (Text.is_empty s)
  | VList l => match l with [] => false | _ => true end
  | VDict d => match d with [] => false | _ => true end
  end.

(** [len(v)] *)
Definition py_len (v : pyval) : result nat :=
  match v with
  | VStr s => Ok (Text.len s)
  | VList l => Ok (length l)
  | VDict d => Ok (length d)
  | _ => Raise TypeError
  end.

(** The elements a [for] loop over [v] visits. *)
Definition py_iter (v : pyval) : result (list pyval) :=
  match v with
  | VStr s => Ok (List.map VStr (Text.chars s))
  | VList l => Ok l
  | VDict d => Ok (List.map (fun kv => VStr (fst kv)) d)
  | _ => Raise TypeError
  end.

(** [isinstance(v, (int, float))]: [bool] is a subclass of [int]. *)
Definition is_number (v : pyval) : bool :=
  match v with
  | VBool _ | VInt _ | VFloat _ => true
  | _ => false
  end.

(** [v <= 0] and [v > 0] for a number [v]; both are false of a NaN. *)
Definition le_zero (v : pyval) : bool :=
  match v with
  | VBool b => negb b
  | VInt z => (z <=? 0)%Z
  | VFloat f => SFleb f (S754_zero false)
  | _ => false
  end.

Definition gt_zero (v : pyval) : bool :=
  match v with
  | VBool b => b
  | VInt z => (0 <? z)%Z
  | VFloat f => SFltb (S754_zero false) f
  | _ => false
  end.

(** [v in l] for a list [l] of text literals: only an equal text is a member. *)
Definition in_literals (v : pyval) (l : list text) : bool :=
  match v with
  | VStr s => Text.mem s l
  | _ => false
  end.

(** [str(v)], also the conversion of [{v}] in an f-string. *)
Definition py_str (lib : pylib) (v : pyval) : result text :=
  match v with
  | VNone => Ok "None"
  | VBool true => Ok "True"
  | VBool false => Ok "False"
  | VStr s => Ok s
  | _ => str_other lib v
  end.

(** ** campaign_validator.py *)

Section Validator.

Context (lib : pylib).

(** The list literals of lines 33 and 82. *)
Definition MATCH_TYPES : list text := ["EXACT"; "PHRASE"; "BROAD"].

Definition BIDDING_STRATEGIES : list text :=
  ["MAXIMIZE_CLICKS"; "MAXIMIZE_CONVERSIONS"; "TARGET_CPA"; "MANUAL_CPC"].

(** [errors.append(msg)] *)
Definition push (errors : list text) (msg : text) : list text :=
  (errors ++ [msg])%list.

(** Each block of [validate_campaign_spec] takes the list [errors] built so
    far and gives it back with its own messages appended, or raises. *)

(** Lines 10-15. *)
Definition check_name (spec : pydict) (errors : list text) : result (list text) :=
  raw <- as_str (dict_get spec "campaign_name" (VStr "")) ;;
  let name := Text.strip raw in
  if Text.is_empty name then
    Ok (push errors "campaign_name is required")
  else if (255 <? Text.len name)%nat then
    Ok (push errors ("campaign_name exceeds 255 chars (got " ++ Text.of_nat (Text.len name) ++ ")"))
  else Ok errors.

(** Lines 17-22. *)
Definition check_budget (spec : pydict) (errors : list text) : result (list text) :=
  match dict_get spec "budget_amount_micros" VNone with
  | VNone => Ok (push errors "budget_amount_micros is required")
  | budget =>
      if negb (is_number budget) || le_zero budget then
        shown <- py_str lib budget ;;
        Ok (push errors ("budget_amount_micros must be > 0 (got " ++ shown ++ ")"))
      else Ok errors
  end.

(** Lines 30-37: the body of the loop over the keywords. *)
Definition check_keyword (i : nat) (kw : pyval) (errors : list text) : result (list text) :=
  match kw with
  | VDict d =>
      text <- as_str (dict_get d "text" (VStr "")) ;;
      let errors1 :=
        if Text.is_empty (Text.strip text) then
          push errors ("Keyword " ++ Text.of_nat i ++ " has empty text")
        else errors in
      let match_type := dict_get d "match_type" VNone in
      if negb (in_literals match_type MATCH_TYPES) then
        shown <- py_str lib match_type ;;
        Ok (push errors1 ("Keyword " ++ Text.of_nat i ++ " has invalid match_type: " ++ shown))
      else Ok errors1
  | VStr s =>
      Ok (if Text.is_empty (Text.strip s) then
            push errors ("Keyword " ++ Text.of_nat i ++ " is empty")
          else errors)
  | _ => Ok errors
  end.

Fixpoint keywords_loop (i : nat) (kws : list pyval) (errors : list text)
  : result (list text) :=
  match kws with
  | [] => Ok errors
  | kw :: rest =>
      errors' <- check_keyword i kw errors ;;
      keywords_loop (S i) rest errors'
  end.

(** Lines 24-37. *)
Definition check_keywords (spec : pydict) (errors : list text) : result (list text) :=
  let keywords := dict_get spec "keywords" (VList []) in
  if negb (truthy keywords) then Ok (push errors "At least 1 keyword is required")
  else
    n <- py_len keywords ;;
    if (n =? 0)%nat then Ok (push errors "At least 1 keyword is required")
    else
      kws <- py_iter keywords ;;
      keywords_loop 0 kws errors.

(** Lines 44-53 and 60-69: the source writes this loop twice, for the headlines
    with the limit 30 and for the descriptions with the limit 90; [label] is
    the word its messages start with. *)
Fixpoint assets_loop (label : text) (limit : nat) (i : nat) (items : list pyval)
    (seen : gset text) (errors : list text) : result (list text) :=
  match items with
  | [] => Ok errors
  | h :: rest =>
      s <- py_str lib h ;;
      let h_str := Text.strip s in
      let errors' :=
        if Text.is_empty h_str then
          push errors (label ++ " " ++ Text.of_nat i ++ " is empty")
        else if (limit <? Text.len h_str)%nat then
          push errors (label ++ " " ++ Text.of_nat i ++ " exceeds " ++ Text.of_nat limit
                       ++ " chars (got " ++ Text.of_nat (Text.len h_str) ++ ")")
        else if bool_decide (h_str ∈ seen) then
          push errors (label ++ " " ++ Text.of_nat i ++ " is duplicate: '" ++ h_str ++ "'")
        else errors in
      assets_loop label limit (S i) rest ({[h_str]} ∪ seen) errors'
  end.

(** Lines 39-53. *)
Definition check_headlines (spec : pydict) (errors : list text) : result (list text) :=
  let headlines := dict_get spec "headlines" (VList []) in
  n <- py_len headlines ;;
  if (n <? 3)%nat then
    Ok (push errors ("At least 3 headlines required (got " ++ Text.of_nat n ++ ")"))
  else
    items <- py_iter headlines ;;
    assets_loop "Headline" 30 0 items ∅ errors.

(** Lines 55-69. *)
Definition check_descriptions (spec : pydict) (errors : list text) : result (list text) :=
  let descriptions := dict_get spec "descriptions" (VList []) in
  n <- py_len descriptions ;;
  if (n <? 2)%nat then
    Ok (push errors ("At least 2 descriptions required (got " ++ Text.of_nat n ++ ")"))
  else
    items <- py_iter descriptions ;;
    assets_loop "Description" 90 0 items ∅ errors.

(** Lines 71-78. *)
Definition check_final_url (spec : pydict) (errors : list text) : result (list text) :=
  raw <- as_str (dict_get spec "final_url" (VStr "")) ;;
  let final_url := Text.strip raw in
  if Text.is_empty final_url then Ok (push errors "final_url is required")
  else
    scheme <- urlparse_scheme lib final_url ;;
    if negb (Text.eqb scheme "https") then
      Ok (push errors ("final_url must be HTTPS (got " ++ scheme ++ ")"))
    else Ok errors.

(** Lines 80-83. *)
Definition check_bidding (spec : pydict) (errors : list text) : result (list text) :=
  raw <- as_str (dict_get spec "bidding_strategy" (VStr "")) ;;
  let bidding := upper lib raw in
  if negb (Text.mem bidding BIDDING_STRATEGIES) then
    Ok (push errors ("Invalid bidding_strategy: " ++ bidding))
  else Ok errors.

Definition validate_campaign_spec (spec : pydict) : result pydict :=
  errors <- check_name spec [] ;;
  errors <- check_budget spec errors ;;
  errors <- check_keywords spec errors ;;
  errors <- check_headlines spec errors ;;
  errors <- check_descriptions spec errors ;;
  errors <- check_final_url spec errors ;;
  errors <- check_bidding spec errors ;;
  match errors with
  | [] => Ok spec
  | _ => Raise (CampaignValidationError (Text.join "; " errors))
  end.

(** Lines 90-100.  A [dict] without [match_type] takes the default ["BROAD"];
    [upper] is called on whatever the key holds, after [str] has been called
    on what [text] holds. *)
Definition normalize_keyword (kw : pyval) : result (list pyval) :=
  match kw with
  | VDict d =>
      s <- py_str lib (dict_get d "text" (VStr "")) ;;
      let text := Text.take 80 (Text.strip s) in
      match_type <- as_str (dict_get d "match_type" (VStr "BROAD")) ;;
      Ok [VDict [("text", VStr text); ("match_type", VStr (upper lib match_type))]]
  | VStr s =>
      Ok [VDict [("text", VStr (Text.take 80 (Text.strip s))); ("match_type", VStr "BROAD")]]
  | _ => Ok []
  end.

Fixpoint normalize_keywords (keywords : list pyval) : result (list pyval) :=
  match keywords with
  | [] => Ok []
  | kw :: rest =>
      out <- normalize_keyword kw ;;
      outs <- normalize_keywords rest ;;
      Ok (out ++ outs)%list
  end.

End Validator.

(** ** A library to run the code on examples

    [example_lib] answers as Python does on the values the examples below
    use: integers are written in decimal, the two URLs of the examples have
    the schemes [https] and [http], texts of ASCII are upper-cased.  What it
    answers elsewhere (a placeholder for the other values, no scheme for the
    other URLs) bears on no example. *)
Definition example_str (v : pyval) : result text :=
  match v with
  | VInt z => Ok (Text.of_Z z)
  | _ => Ok "<object>"
  end.

Definition example_scheme (url : text) : result text :=
  if Text.eqb url "https://example.com" then Ok "https"
  else if Text.eqb url "http://example.com" then Ok "http"
  else Ok "".

Definition ascii_upper_char_idem (c : N) :
  Text.ascii_upper_char (Text.ascii_upper_char c) = Text.ascii_upper_char c.
Proof.
  unfold Text.ascii_upper_char.
  destruct ((97 <=? c) && (c <=? 122))%N eqn:E; [|by rewrite E].
  apply andb_true_iff in E as [E1 E2]. apply N.leb_le in E1, E2.
  assert (E3 : ((97 <=? c - 32) && (c - 32 <=? 122))%N = false).
  { apply andb_false_iff. left. apply N.leb_gt. lia. }
  by rewrite E3.
Qed.

Fixpoint ascii_upper_idem (s : text) :
  Text.ascii_upper (Text.ascii_upper s) = Text.ascii_upper s :=
  match s with
  | tnil => eq_refl
  | tcons c r =>
      eq_trans (f_equal (fun x => tcons x _) (ascii_upper_char_idem c))
               (f_equal (tcons _) (ascii_upper_idem r))
  end.

Definition example_lib : pylib :=
  {| str_other := example_str;
     urlparse_scheme := example_scheme;
     upper := Text.ascii_upper;
     upper_ascii := fun s _ => eq_refl;
     upper_idem := ascii_upper_idem |}.

Definition good_spec : pydict :=
  [ ("campaign_name", VStr "Spring sale");
    ("budget_amount_micros", VInt 5000000);
    ("keywords", VList [VDict [("text", VStr "running shoes"); ("match_type", VStr "BROAD")]]);
    ("headlines", VList [VStr "Run faster"; VStr "Shoes on sale"; VStr "Free shipping"]);
    ("descriptions", VList [VStr "Light shoes for every runner."; VStr "Order today."]);
    ("final_url", VStr "https://example.com");
    ("bidding_strategy", VStr "maximize_clicks") ].
(** ** The rules of the validator, one violation at a time *)

Inductive asset : Type := Headline | Description.

Definition asset_label (a : asset) : text :=
  match a with Headline => "Headline" | Description => "Description" end.
Definition asset_limit (a : asset) : nat :=
  match a with Headline => 30 | Description => 90 end.
Definition asset_minimum (a : asset) : nat :=
  match a with Headline => 3 | Description => 2 end.
Definition asset_field (a : asset) : text :=
  match a with Headline => "headlines" | Description => "descriptions" end.

(** A rule of the specification that a campaign breaks; the indices are
    positions in the list of the field, counted from 0. *)
Inductive violation : Type :=
  | NameRequired
  | NameTooLong (n : nat)
  | BudgetRequired
  | BudgetNotPositive (shown : text)
  | KeywordsRequired
  | KeywordEmptyText (i : nat)
  | KeywordBadMatchType (i : nat) (shown : text)
  | KeywordEmpty (i : nat)
  | TooFew (a : asset) (n : nat)
  | AssetEmpty (a : asset) (i : nat)
  | AssetTooLong (a : asset) (i : nat) (n : nat)
  | AssetDuplicate (a : asset) (i : nat) (t : text)
  | UrlRequired
  | UrlNotHttps (scheme : text)
  | BiddingInvalid (shown : text).

(** The message of a violation. *)
Definition render (v : violation) : text :=
  match v with
  | NameRequired => "campaign_name is required"
  | NameTooLong n => "campaign_name exceeds 255 chars (got " ++ Text.of_nat n ++ ")"
  | BudgetRequired => "budget_amount_micros is required"
  | BudgetNotPositive shown => "budget_amount_micros must be > 0 (got " ++ shown ++ ")"
  | KeywordsRequired => "At least 1 keyword is required"
  | KeywordEmptyText i => "Keyword " ++ Text.of_nat i ++ " has empty text"
  | KeywordBadMatchType i shown =>
      "Keyword " ++ Text.of_nat i ++ " has invalid match_type: " ++ shown
  | KeywordEmpty i => "Keyword " ++ Text.of_nat i ++ " is empty"
  | TooFew Headline n => "At least 3 headlines required (got " ++ Text.of_nat n ++ ")"
  | TooFew Description n => "At least 2 descriptions required (got " ++ Text.of_nat n ++ ")"
  | AssetEmpty a i => asset_label a ++ " " ++ Text.of_nat i ++ " is empty"
  | AssetTooLong a i n =>
      asset_label a ++ " " ++ Text.of_nat i ++ " exceeds " ++ Text.of_nat (asset_limit a)
        ++ " chars (got " ++ Text.of_nat n ++ ")"
  | AssetDuplicate a i t =>
      asset_label a ++ " " ++ Text.of_nat i ++ " is duplicate: '" ++ t ++ "'"
  | UrlRequired => "final_url is required"
  | UrlNotHttps scheme => "final_url must be HTTPS (got " ++ scheme ++ ")"
  | BiddingInvalid shown => "Invalid bidding_strategy: " ++ shown
  end.

(** The text a field holds, the empty text when it is absent or no text. *)
Definition text_of (d : pydict) (k : text) : text :=
  match dict_lookup d k with
  | Some (VStr s) => s
  | _ => tnil
  end.

(** The elements of a sequence, none for a value that is no sequence. *)
Definition elements (v : pyval) : list pyval :=
  match py_iter v with
  | Ok l => l
  | Raise _ => []
  end.

(** The value of a list field, the empty list when it is absent. *)
Definition list_field (spec : pydict) (k : text) : pyval := dict_get spec k (VList []).

(** A float that is not a number. *)
Definition is_nan (v : pyval) : bool :=
  match v with
  | VFloat S754_nan => true
  | _ => false
  end.

(** Rule 2 on a budget that is present: numeric, strictly greater than zero. *)
Definition budget_rule (budget : pyval) : bool := is_number budget && gt_zero budget.

(** What line 21 lets through: a number that is not [<= 0]. *)
Definition budget_test (budget : pyval) : bool := is_number budget && negb (le_zero budget).

(** The budget of the campaign is a NaN. *)
Definition nan_budget (spec : pydict) : bool :=
  match dict_lookup spec "budget_amount_micros" with
  | Some budget => is_nan budget
  | None => false
  end.

Section Rules.

Context (lib : pylib).

(** [str(v)] is defined. *)
Definition str_ok (v : pyval) : bool :=
  match py_str lib v with
  | Ok _ => true
  | Raise _ => false
  end.

(** The text [str(v)], for a value on which it is defined. *)
Definition display (v : pyval) : text :=
  match py_str lib v with
  | Ok s => s
  | Raise _ => tnil
  end.

(** An asset (headline or description) as the rules read it: made a text and
    trimmed. *)
Definition trimmed (h : pyval) : text := Text.strip (display h).

(** Rule 1. *)
Definition name_violations (spec : pydict) : list violation :=
  let name := Text.strip (text_of spec "campaign_name") in
  if Text.is_empty name then [NameRequired]
  else if (255 <? Text.len name)%nat then [NameTooLong (Text.len name)]
  else [].

(** Rule 2, with [ok] for the test a budget that is present has to pass. *)
Definition budget_violations_by (ok : pyval -> bool) (spec : pydict) : list violation :=
  match dict_lookup spec "budget_amount_micros" with
  | None | Some VNone => [BudgetRequired]
  | Some budget => if ok budget then [] else [BudgetNotPositive (display budget)]
  end.

Definition budget_violations : pydict -> list violation := budget_violations_by budget_rule.

(** Rule 3, for the keyword at index [i]: a dict answers for its text and for
    its match type, a text for being empty, anything else for nothing. *)
Definition keyword_violations (i : nat) (kw : pyval) : list violation :=
  match kw with
  | VDict d =>
      (if Text.is_empty (Text.strip (text_of d "text")) then [KeywordEmptyText i] else [])
      ++ (if in_literals (dict_get d "match_type" VNone) MATCH_TYPES then []
          else [KeywordBadMatchType i (display (dict_get d "match_type" VNone))])
  | VStr s => if Text.is_empty (Text.strip s) then [KeywordEmpty i] else []
  | _ => []
  end.

Definition keywords_violations (spec : pydict) : list violation :=
  let keywords := list_field spec "keywords" in
  if truthy keywords then concat (imap keyword_violations (elements keywords))
  else [KeywordsRequired].

(** Rules 4 and 5, for the asset at index [j] of the trimmed texts [ts]: the
    first of empty, too long, equal to an earlier one. *)
Definition asset_violation (a : asset) (ts : list text) (j : nat) : option violation :=
  match ts !! j with
  | None => None
  | Some t =>
      if Text.is_empty t then Some (AssetEmpty a j)
      else if (asset_limit a <? Text.len t)%nat then Some (AssetTooLong a j (Text.len t))
      else if bool_decide (t ∈ take j ts) then Some (AssetDuplicate a j t)
      else None
  end.

Definition assets_violations (a : asset) (spec : pydict) : list violation :=
  let items := elements (list_field spec (asset_field a)) in
  if (length items <? asset_minimum a)%nat then [TooFew a (length items)]
  else
    let ts := trimmed <$> items in
    omap (asset_violation a ts) (seq 0 (length ts)).

(** Rule 6. *)
Definition url_violations (spec : pydict) : list violation :=
  let final_url := Text.strip (text_of spec "final_url") in
  if Text.is_empty final_url then [UrlRequired]
  else
    match urlparse_scheme lib final_url with
    | Ok scheme => if Text.eqb scheme "https" then [] else [UrlNotHttps scheme]
    | Raise _ => []
    end.

(** Rule 7. *)
Definition bidding_violations (spec : pydict) : list violation :=
  let bidding := upper lib (text_of spec "bidding_strategy") in
  if Text.mem bidding BIDDING_STRATEGIES then [] else [BiddingInvalid bidding].

(** The violations before and after those of the assets of one kind, in the
    order of the fields. *)
Definition violations_before (ok : pyval -> bool) (a : asset) (spec : pydict)
  : list violation :=
  match a with
  | Headline =>
      name_violations spec ++ budget_violations_by ok spec ++ keywords_violations spec
  | Description =>
      name_violations spec ++ budget_violations_by ok spec ++ keywords_violations spec
      ++ assets_violations Headline spec
  end.

Definition violations_after (a : asset) (spec : pydict) : list violation :=
  match a with
  | Headline =>
      assets_violations Description spec ++ url_violations spec ++ bidding_violations spec
  | Description => url_violations spec ++ bidding_violations spec
  end.

(** Every violation of a campaign, in the order of the fields. *)
Definition violations_by (ok : pyval -> bool) (spec : pydict) : list violation :=
  name_violations spec ++ budget_violations_by ok spec ++ keywords_violations spec
  ++ assets_violations Headline spec ++ assets_violations Description spec
  ++ url_violations spec ++ bidding_violations spec.

(** The violations of the rules of the specification. *)
Definition violations : pydict -> list violation := violations_by budget_rule.

(** The violations the validator reports: those of the rules, but for a
    budget that is a NaN, which line 21 lets through. *)
Definition reported : pydict -> list violation := violations_by budget_test.

(** The campaigns on which the validator meets the types it expects: the
    name, the URL and the bidding strategy are texts or absent, the URL is one
    [urlparse] accepts, the keywords are nothing or a sequence whose dicts
    hold a text (or nothing) under [text], the headlines and the descriptions
    are sequences or absent. *)
Definition text_or_absent (d : pydict) (k : text) : bool :=
  match dict_lookup d k with
  | None | Some (VStr _) => true
  | Some _ => false
  end.

Definition sized (v : pyval) : bool :=
  match v with
  | VStr _ | VList _ | VDict _ => true
  | _ => false
  end.

Definition keyword_shaped (kw : pyval) : bool :=
  match kw with
  | VDict d => text_or_absent d "text"
  | _ => true
  end.

Definition url_parses (spec : pydict) : bool :=
  let final_url := Text.strip (text_of spec "final_url") in
  Text.is_empty final_url
  || match urlparse_scheme lib final_url with Ok _ => true | Raise _ => false end.

Definition well_shaped (spec : pydict) : bool :=
  text_or_absent spec "campaign_name"
  && (negb (truthy (list_field spec "keywords"))
      || (sized (list_field spec "keywords")
          && forallb keyword_shaped (elements (list_field spec "keywords"))))
  && sized (list_field spec (asset_field Headline))
  && sized (list_field spec (asset_field Description))
  && text_or_absent spec "final_url" && url_parses spec
  && text_or_absent spec "bidding_strategy".

(** The values the validator writes into a message with [str] or an
    f-string: the budget it rejects, the match types outside the enum, and
    the headlines and descriptions of a list that is long enough. *)
Definition formatted_budget (spec : pydict) : list pyval :=
  match dict_lookup spec "budget_amount_micros" with
  | None | Some VNone => []
  | Some budget => if budget_test budget then [] else [budget]
  end.

Definition formatted_keyword (kw : pyval) : list pyval :=
  match kw with
  | VDict d =>
      if in_literals (dict_get d "match_type" VNone) MATCH_TYPES then []
      else [dict_get d "match_type" VNone]
  | _ => []
  end.

Definition formatted_keywords (spec : pydict) : list pyval :=
  if truthy (list_field spec "keywords")
  then flat_map formatted_keyword (elements (list_field spec "keywords"))
  else [].

Definition formatted_assets (a : asset) (spec : pydict) : list pyval :=
  let items := elements (list_field spec (asset_field a)) in
  if (length items <? asset_minimum a)%nat then [] else items.

Definition formatted (spec : pydict) : list pyval :=
  formatted_budget spec ++ formatted_keywords spec
  ++ formatted_assets Headline spec ++ formatted_assets Description spec.

(** [str] is defined on every value the validator writes into a message. *)
Definition printable (spec : pydict) : bool := forallb str_ok (formatted spec).

(** ** The campaigns the specification calls valid *)

(** Two texts are the same once upper-cased. *)
Definition same_ignoring_case (a b : text) : Prop := upper lib a = upper lib b.

(** A keyword with nothing to report: a dict with a text that is not blank
    and a match type of the enum, or a text that is not blank. *)
Definition valid_keyword (kw : pyval) : Prop :=
  match kw with
  | VDict d =>
      (exists t, dict_lookup d "text" = Some (VStr t) /\ Text.strip t <> "")
      /\ (exists m, dict_lookup d "match_type" = Some (VStr m) /\ m ∈ MATCH_TYPES)
  | VStr s => Text.strip s <> ""
  | _ => False
  end.

(** Assets that [str] makes texts which are, once trimmed, not empty, within
    the limit and mutually different. *)
Definition assets_ok (a : asset) (items : list pyval) : Prop :=
  Forall (fun h => str_ok h = true) items
  /\ NoDup (trimmed <$> items)
  /\ Forall (fun t => t <> "" /\ Text.len t <= asset_limit a) (trimmed <$> items).

Definition valid_campaign (spec : pydict) : Prop :=
  (exists name, dict_lookup spec "campaign_name" = Some (VStr name)
     /\ Text.strip name <> "" /\ Text.len (Text.strip name) <= 255)
  /\ (exists budget, dict_lookup spec "budget_amount_micros" = Some budget
        /\ is_number budget = true /\ gt_zero budget = true)
  /\ (exists kws, dict_lookup spec "keywords" = Some (VList kws)
        /\ kws <> [] /\ Forall valid_keyword kws)
  /\ (exists hs, dict_lookup spec "headlines" = Some (VList hs)
        /\ length hs = 3 /\ assets_ok Headline hs)
  /\ (exists ds, dict_lookup spec "descriptions" = Some (VList ds)
        /\ 2 <= length ds /\ assets_ok Description ds)
  /\ (exists url, dict_lookup spec "final_url" = Some (VStr url)
        /\ Text.strip url <> "" /\ urlparse_scheme lib (Text.strip url) = Ok "https")
  /\ (exists bid e, dict_lookup spec "bidding_strategy" = Some (VStr bid)
        /\ e ∈ BIDDING_STRATEGIES /\ same_ignoring_case bid e).

(** ** The keyword normalizer as the specification words it *)

Definition keyword_record (text match_type : text) : pyval :=
  VDict [("text", VStr text); ("match_type", VStr match_type)].

(** The match type of a structured keyword: upper-cased, ["BROAD"] when the
    key is absent. *)
Definition canonical_match_type (d : pydict) : text :=
  match dict_lookup d "match_type" with
  | Some (VStr m) => upper lib m
  | _ => "BROAD"
  end.

Definition canonical (kw : pyval) : list pyval :=
  match kw with
  | VDict d =>
      [keyword_record (Text.take 80 (Text.strip (display (dict_get d "text" (VStr "")))))
                      (canonical_match_type d)]
  | VStr s => [keyword_record (Text.take 80 (Text.strip s)) "BROAD"]
  | _ => []
  end.

(** The structured keywords [normalize_keywords] can upper-case: the match
    type is a text or absent. *)
Definition match_type_is_text (kw : pyval) : bool :=
  match kw with
  | VDict d => text_or_absent d "match_type"
  | _ => true
  end.

(** The structured keywords whose text [str] is defined on. *)
Definition text_is_printable (kw : pyval) : bool :=
  match kw with
  | VDict d => str_ok (dict_get d "text" (VStr ""))
  | _ => true
  end.

End Rules.

(** [d[k] = v] *)
Fixpoint dict_set (d : pydict) (k : text) (v : pyval) : pydict :=
  match d with
  | [] => [(k, v)]
  | (k', v') :: r => if Text.eqb k k' then (k', v) :: r else (k', v') :: dict_set r k v
  end.

(** ** Campaigns to run the validator on *)

(** The name is a number. *)
Definition number_name_spec : pydict := dict_set good_spec "campaign_name" (VInt 5).

(** The headlines are [None]. *)
Definition null_headlines_spec : pydict := dict_set good_spec "headlines" VNone.

(** Two headlines of 31 characters that are the same text. *)
Definition long_twins_spec : pydict :=
  dict_set good_spec "headlines"
    (VList [VStr "Run faster than ever before now"; VStr "Run faster than ever before now";
            VStr "Free shipping"]).



(** A keyword with a blank text and a match type outside the enum, and a name
    that is missing. *)
Definition two_faults_spec : pydict :=
  dict_set (dict_set good_spec "campaign_name" (VStr "  "))
    "keywords" (VList [VDict [("text", VStr " "); ("match_type", VStr "invalid")]]).

(** The keywords of the example of the specification, and structured
    keywords the contract does not cover. *)
Definition mixed_keywords : list pyval :=
  [VDict [("text", VStr " running shoes "); ("match_type", VStr "broad")]; VStr "tennis"].

Definition null_match_type_keywords : list pyval :=
  [VDict [("text", VStr "tennis"); ("match_type", VNone)]].

Definition empty_match_type_keywords : list pyval :=
  [VDict [("text", VStr "tennis"); ("match_type", VStr "")]].

(** The URL has the scheme http. *)
Definition http_spec : pydict := dict_set good_spec "final_url" (VStr "http://example.com").

(** A structured keyword with a match type outside the enum. *)
Definition invalid_match_keywords : list pyval :=
  [VDict [("text", VStr "shoes"); ("match_type", VStr "invalid")]].

(** A name that is one no-break space, and headlines that differ by a
    no-break space at the end. *)
Definition nbsp : text := tcons 160 tnil.

Definition blank_name_spec : pydict := dict_set good_spec "campaign_name" (VStr nbsp).

Definition nbsp_twins_spec : pydict :=
  dict_set good_spec "headlines"
    (VList [VStr "Sale"; VStr ("Sale" ++ nbsp); VStr "Free shipping"]).
(** ** main.py: the callers of the validator *)

Section Callers.

Context (lib : pylib).

(** [[str(h)[:n] for h in items]] *)
Fixpoint cut_each (n : nat) (items : list pyval) : result (list pyval) :=
  match items with
  | [] => Ok []
  | h :: rest =>
      s <- py_str lib h ;;
      cut <- cut_each n rest ;;
      Ok (VStr (Text.take n s) :: cut)
  end.

(** [[str(h)[:n] for h in v]]: the elements of [v], each made a text and cut
    at [n] characters. *)
Definition cut_all (n : nat) (v : pyval) : result (list pyval) :=
  items <- py_iter v ;;
  cut_each n items.

(** [normalize_keywords(v)] on a value [v]: the loop of line 92 iterates over
    whatever it is given. *)
Definition normalize_value (v : pyval) : result (list pyval) :=
  kws <- py_iter v ;;
  normalize_keywords lib kws.

(** Lines 1307-1312 of [create_campaign]: the draft parsed from the answer of
    the generative model is cut to the limits and its keywords are
    normalized, field by field, in place. *)
Definition prepare_draft (campaign_spec : pydict) : result pydict :=
  hs <- cut_all 30 (dict_get campaign_spec "headlines" (VList [])) ;;
  let campaign_spec := dict_set campaign_spec "headlines" (VList (take 15 hs)) in
  ds <- cut_all 90 (dict_get campaign_spec "descriptions" (VList [])) ;;
  let campaign_spec := dict_set campaign_spec "descriptions" (VList (take 4 ds)) in
  name <- py_str lib (dict_get campaign_spec "campaign_name" (VStr "Campaign")) ;;
  let campaign_spec := dict_set campaign_spec "campaign_name" (VStr (Text.take 255 name)) in
  kws <- normalize_value (dict_get campaign_spec "keywords" (VList [])) ;;
  Ok (dict_set campaign_spec "keywords" (VList kws)).

(** Lines 1307-1313 of [create_campaign]. *)
Definition create_campaign_checks (campaign_spec : pydict) : result pydict :=
  campaign_spec <- prepare_draft campaign_spec ;;
  validate_campaign_spec lib campaign_spec.

(** Lines 1350-1351 of [submit_campaign_to_google_ads]. *)
Definition submit_campaign_checks (campaign_spec : pydict) : result pydict :=
  kws <- normalize_value (dict_get campaign_spec "keywords" (VList [])) ;;
  validate_campaign_spec lib (dict_set campaign_spec "keywords" (VList kws)).

(** ** What the validator accepts *)

(** A keyword the validator has nothing to say about: a valid one, or one that
    is neither a dict nor a text, which the loop of lines 29-37 skips. *)
Definition quiet_keyword (kw : pyval) : Prop :=
  match kw with
  | VDict _ | VStr _ => valid_keyword kw
  | _ => True
  end.

Definition accepted (spec : pydict) : Prop :=
  (exists name, dict_lookup spec "campaign_name" = Some (VStr name)
     /\ Text.strip name <> "" /\ Text.len (Text.strip name) <= 255)
  /\ (exists budget, dict_lookup spec "budget_amount_micros" = Some budget
        /\ is_number budget = true /\ (gt_zero budget = true \/ is_nan budget = true))
  /\ (exists kv, dict_lookup spec "keywords" = Some kv /\ sized kv = true
        /\ elements kv <> [] /\ Forall quiet_keyword (elements kv))
  /\ (exists hv, dict_lookup spec "headlines" = Some hv /\ sized hv = true
        /\ 3 <= length (elements hv) /\ assets_ok lib Headline (elements hv))
  /\ (exists dv, dict_lookup spec "descriptions" = Some dv /\ sized dv = true
        /\ 2 <= length (elements dv) /\ assets_ok lib Description (elements dv))
  /\ (exists url, dict_lookup spec "final_url" = Some (VStr url)
        /\ Text.strip url <> "" /\ urlparse_scheme lib (Text.strip url) = Ok "https")
  /\ (exists bid, dict_lookup spec "bidding_strategy" = Some (VStr bid)
        /\ upper lib bid ∈ BIDDING_STRATEGIES).

(** A campaign that meets the types the validator expects, its keywords set
    aside. *)
Definition shaped_but_keywords (spec : pydict) : bool :=
  text_or_absent spec "campaign_name"
  && sized (list_field spec (asset_field Headline))
  && sized (list_field spec (asset_field Description))
  && text_or_absent spec "final_url" && url_parses lib spec
  && text_or_absent spec "bidding_strategy".

(** [str] is defined on the values the validator writes into a message, the
    keywords set aside. *)
Definition printable_but_keywords (spec : pydict) : bool :=
  forallb (str_ok lib)
    (formatted_budget spec ++ formatted_assets Headline spec
     ++ formatted_assets Description spec).

(** What a record of the normalizer looks like. *)
Definition normal_record (kw : pyval) : Prop :=
  exists t m, kw = keyword_record t m /\ Text.len t <= 80 /\ upper lib m = m.

End Callers.

(** The keys [validate_campaign_spec] reads. *)
Definition FIELDS : list text :=
  ["campaign_name"; "budget_amount_micros"; "keywords"; "headlines"; "descriptions";
   "final_url"; "bidding_strategy"].

(** A draft whose headlines and name are over the limits. *)
Definition long_draft : pydict :=
  [ ("campaign_name", VStr "Spring sale");
    ("budget_amount_micros", VInt 5000000);
    ("keywords", VList [VStr "running shoes"]);
    ("headlines", VList [VStr "Run faster than ever before now"; VInt 42;
                         VStr "Free shipping"]);
    ("descriptions", VList [VStr "Light shoes for every runner."; VStr "Order today."]);
    ("final_url", VStr "https://example.com");
    ("bidding_strategy", VStr "maximize_clicks") ].

(** [long_draft] as [create_campaign] prepares it. *)
Definition cut_draft : pydict :=
  [ ("campaign_name", VStr "Spring sale");
    ("budget_amount_micros", VInt 5000000);
    ("keywords", VList [keyword_record "running shoes" "BROAD"]);
    ("headlines", VList [VStr "Run faster than ever before no"; VStr "42";
                         VStr "Free shipping"]);
    ("descriptions", VList [VStr "Light shoes for every runner."; VStr "Order today."]);
    ("final_url", VStr "https://example.com");
    ("bidding_strategy", VStr "maximize_clicks") ].

(** One headline only. *)
Definition one_headline_spec : pydict :=
  dict_set good_spec "headlines" (VList [VStr "Run faster"]).

(** The campaign of the examples with the key [create_campaign] adds after
    validating. *)
Definition keyed_spec : pydict := dict_set good_spec "idempotency_key" (VStr "k-1").

(** A structured keyword whose match type is a number, after a plain one. *)
Definition number_match_type_keywords : list pyval :=
  [VStr "tennis"; VDict [("text", VStr "shoes"); ("match_type", VInt 3)]].

(** The violations that are about the assets of one kind. *)
Definition about (a : asset) (v : violation) : Prop :=
  match v with
  | TooFew a' _ | AssetEmpty a' _ | AssetTooLong a' _ _ | AssetDuplicate a' _ _ => a' = a
  | _ => False
  end.
(** ** Texts of the setup conversation *)

Local Close Scope text_scope.
Local Open Scope string_scope.

(** The setup conversation is modelled on 8-bit strings, a message of ASCII
    being the string of its characters.  On such a message the built-ins below
    are Python's: [strip] removes the blanks of ASCII, [lower] moves A..Z to
    a..z, the class [\w] holds the letters, the digits and the underscore.
    The two tests of [setup_agent_chat] that lower-case the message compare
    the result with ["help"] and ["same"]: no character outside ASCII
    lower-cases to a letter of these words.  String constants of the source
    with characters outside ASCII are kept as their UTF-8 bytes: the code
    never measures or scans them. *)
Module Str.

Definition code (c : ascii) : nat := nat_of_ascii c.

(** [str.isspace] on one character of ASCII: TAB..CR, FS..US and the blank. *)
Definition is_space (c : ascii) : bool :=
  let n := code c in
  (((9 <=? n) && (n <=? 13)) || ((28 <=? n) && (n <=? 32)))%nat.

Definition is_lower (c : ascii) : bool := let n := code c in ((97 <=? n) && (n <=? 122))%nat.
Definition is_upper (c : ascii) : bool := let n := code c in ((65 <=? n) && (n <=? 90))%nat.
Definition is_digit (c : ascii) : bool := let n := code c in ((48 <=? n) && (n <=? 57))%nat.

(** The class [\w] of the [re] module, on ASCII. *)
Definition is_word (c : ascii) : bool :=
  is_lower c || is_upper c || is_digit c || (code c =? 95)%nat.

Definition to_lower (c : ascii) : ascii :=
  if is_upper c then ascii_of_nat (code c + 32) else c.

Fixpoint map (f : ascii -> ascii) (s : string) : string :=
  match s with
  | EmptyString => EmptyString
  | String c r => String (f c) (map f r)
  end.

Definition lower : string -> string := map to_lower.

Fixpoint lstrip (s : string) : string :=
  match s with
  | EmptyString => EmptyString
  | String c r => if is_space c then lstrip r else s
  end.

Fixpoint rstrip (s : string) : string :=
  match s with
  | EmptyString => EmptyString
  | String c r =>
      match rstrip r with
      | EmptyString => if is_space c then EmptyString else String c EmptyString
      | r' => String c r'
      end
  end.

Definition strip (s : string) : string := rstrip (lstrip s).

(** [s[:n]] *)
Fixpoint take (n : nat) (s : string) : string :=
  match n, s with
  | S k, String c r => String c (take k r)
  | _, _ => EmptyString
  end.

(** [s.replace(c, "")] for a one-character [c]. *)
Fixpoint remove (x : ascii) (s : string) : string :=
  match s with
  | EmptyString => EmptyString
  | String c r => if Ascii.eqb c x then remove x r else String c (remove x r)
  end.

(** The text of a sequence of bytes (UTF-8 of a character outside ASCII). *)
Definition bytes (l : list nat) : string :=
  fold_right (fun n s => String (ascii_of_nat n) s) EmptyString l.

End Str.

(** ** setup_agent.py: [extract_value] *)

(** The regular expressions of [extract_value], matched as [re.search] does
    with [re.IGNORECASE]: leftmost start, alternatives in order, greedy
    repetition that gives characters back. *)
Inductive regex : Type :=
  | Empty                          (* matches the empty text *)
  | Lit (c : ascii)                (* one character, case ignored *)
  | Many1 (cls : ascii -> bool)    (* cls+ *)
  | Seq (r1 r2 : regex)
  | Alt (r1 r2 : regex)
  | Bol                            (* ^ *)
  | Eol.                           (* $ *)

(** [before(group)after], the shape of the four patterns. *)
Record pattern : Type := {
  before : regex;
  group : regex;
  after : regex
}.

Fixpoint many1 {R} (cls : ascii -> bool) (pos : nat) (s : string)
    (k : nat -> string -> option R) : option R :=
  match s with
  | EmptyString => None
  | String c r =>
      if cls c then
        match many1 cls (S pos) r k with
        | Some x => Some x
        | None => k (S pos) r
        end
      else None
  end.

(** [re_match r pos s k]: match [r] at offset [pos], where [s] is the text
    from [pos] on, then go on with [k]; [None] when every way fails. *)
Fixpoint re_match {R} (r : regex) (pos : nat) (s : string)
    (k : nat -> string -> option R) : option R :=
  match r with
  | Empty => k pos s
  | Lit c =>
      match s with
      | String c' s' =>
          if Ascii.eqb (Str.to_lower c') (Str.to_lower c) then k (S pos) s' else None
      | EmptyString => None
      end
  | Many1 cls => many1 cls pos s k
  | Seq r1 r2 => re_match r1 pos s (fun pos' s' => re_match r2 pos' s' k)
  | Alt r1 r2 =>
      match re_match r1 pos s k with
      | Some x => Some x
      | None => re_match r2 pos s k
      end
  | Bol => if (pos =? 0)%nat then k pos s else None
  | Eol =>
      match s with
      | EmptyString => k pos s
      | String c EmptyString => if Ascii.eqb c "010" then k pos s else None
      | _ => None
      end
  end.

(** A match of the pattern at [pos]: the text of the group. *)
Definition match_at (p : pattern) (pos : nat) (s : string) : option string :=
  re_match (before p) pos s (fun p1 s1 =>
    re_match (group p) p1 s1 (fun p2 s2 =>
      re_match (after p) p2 s2 (fun _ _ => Some (Str.take (p2 - p1) s1)))).

Fixpoint search_from (p : pattern) (pos : nat) (s : string) : option string :=
  match match_at p pos s with
  | Some g => Some g
  | None =>
      match s with
      | EmptyString => None
      | String _ s' => search_from p (S pos) s'
      end
  end.

(** [re.search(p, text, re.IGNORECASE)] followed by [.group(1)]. *)
Definition re_search (p : pattern) (text : string) : option string :=
  search_from p 0 text.

Fixpoint word (w : string) : regex :=
  match w with
  | EmptyString => Empty
  | String c r => Seq (Lit c) (word r)
  end.

Definition spaces : regex := Many1 Str.is_space.
Definition word_chars : regex := Many1 Str.is_word.

Definition patterns : list pattern :=
  [ (* (?:my\s+(?:name|username)\s+is\s+)(\w+) *)
    {| before := Seq (word "my") (Seq spaces (Seq (Alt (word "name") (word "username"))
                   (Seq spaces (Seq (word "is") spaces))));
       group := word_chars; after := Empty |};
    (* (?:call\s+me\s+)(\w+) *)
    {| before := Seq (word "call") (Seq spaces (Seq (word "me") spaces));
       group := word_chars; after := Empty |};
    (* (?:i\'m\s+)(\w+) *)
    {| before := Seq (word "i'm") spaces; group := word_chars; after := Empty |};
    (* ^(\w+)$ *)
    {| before := Bol; group := word_chars; after := Eol |} ].

Fixpoint first_match (ps : list pattern) (text : string) : option string :=
  match ps with
  | [] => None
  | p :: rest =>
      match re_search p text with
      | Some g => Some g
      | None => first_match rest text
      end
  end.

Definition extract_value (text : string) : string :=
  let text := Str.strip text in
  match first_match patterns text with
  | Some g => g
  | None => text
  end.

(** ** setup_agent.py: the session and the replies *)

(** One entry of [SETUP_STATE]: [history] holds (role, content) pairs. *)
Record session : Type := {
  step : string;
  data : gmap string string;
  history : list (string * string)
}.

(** The dict a turn returns; [reply_data] is [None] for Python's [None]. *)
Record reply : Type := {
  response : string;
  complete : bool;
  reply_data : option (gmap string string)
}.

Definition fresh_session : session :=
  {| step := "username"; data := ∅; history := [] |}.

Definition nl : string := Str.bytes [10].
Definition wave : string := Str.bytes [240; 159; 145; 139].
Definition arrow : string := Str.bytes [226; 134; 146].
Definition check_mark : string := Str.bytes [226; 156; 133].
Definition wrench : string := Str.bytes [240; 159; 148; 167].
Definition party : string := Str.bytes [240; 159; 142; 137].

(** Line 45. *)
Definition greeting (username : string) : string :=
  "Nice to meet you, " ++ username ++ "! " ++ wave ++ nl ++ nl ++
  "Now, I need your **Google Ads Developer Token**. This is a special key that lets us access your Google Ads data." ++
  nl ++ nl ++ "**Where to find it:**" ++ nl ++ "1. Go to Google Ads" ++ nl ++
  "2. Click Tools & Settings " ++ arrow ++ " API Center" ++ nl ++
  "3. Copy your Developer Token" ++ nl ++ nl ++
  "Paste it here, or type 'help' if you need more guidance.".

(** Line 49. *)
Definition token_help : string :=
  "**How to get your Developer Token:**" ++ nl ++ nl ++ "1. Sign in to Google Ads" ++ nl ++
  "2. Click the tools icon (" ++ wrench ++ ") in the top right" ++ nl ++
  "3. Under 'Setup', click 'API Center'" ++ nl ++ "4. You'll see your Developer Token there" ++
  nl ++ "5. Click 'Copy' and paste it here" ++ nl ++ nl ++
  "**Note:** If you don't see it, you may need to request access first. This can take 24-48 hours for approval." ++
  nl ++ nl ++ "Ready to paste your token?".

(** Line 53. *)
Definition token_saved : string :=
  "Great! Token saved. " ++ check_mark ++ nl ++ nl ++
  "Next, I need your **Manager Account ID** (also called MCC ID or Login Customer ID)." ++
  nl ++ nl ++ "**What is this?**" ++ nl ++
  "This is the ID of the Google Ads account that manages your campaigns. If you only have one account, use that account's ID." ++
  nl ++ nl ++ "**Where to find it:**" ++ nl ++
  "Look at the top right of your Google Ads dashboard - you'll see a number like `123-456-7890`." ++
  nl ++ nl ++ "Type 'help' if you need more info, or paste your Manager ID:".

(** Line 57. *)
Definition manager_help : string :=
  "**About Manager Account ID:**" ++ nl ++ nl ++
  "This is the customer ID that has access to your campaigns." ++ nl ++ nl ++
  "- If you have a **Manager Account (MCC)**: Use that ID" ++ nl ++
  "- If you have a **single account**: Use your account's customer ID" ++ nl ++ nl ++
  "**Where to find it:**" ++ nl ++ "1. Go to Google Ads" ++ nl ++
  "2. Look at the top right corner" ++ nl ++ "3. You'll see a number like `123-456-7890`" ++
  nl ++ "4. That's your customer ID!" ++ nl ++ nl ++ "Paste it here:".

(** Line 61. *)
Definition manager_saved : string :=
  "Perfect! Manager ID saved. " ++ check_mark ++ nl ++ nl ++
  "Last step! I need the **Campaign Account ID** - this is the specific account whose campaigns you want to analyze." ++
  nl ++ nl ++ "**Important:**" ++ nl ++
  "- This might be the same as your Manager ID (if you only have one account)" ++ nl ++
  "- Or it could be a different account that your Manager Account has access to" ++ nl ++ nl ++
  "**Format:** `123-456-7890`" ++ nl ++ nl ++
  "Type 'same' if it's the same as your Manager ID, or paste the Campaign Account ID:".

(** Line 67. *)
Definition campaign_help : string :=
  "**About Campaign Account ID:**" ++ nl ++ nl ++
  "This is the account that actually runs your ad campaigns." ++ nl ++ nl ++
  "- If you only have **one Google Ads account**: Type 'same'" ++ nl ++
  "- If your Manager Account manages **multiple accounts**: Paste the specific account ID you want to analyze" ++
  nl ++ nl ++ "**Where to find it:**" ++ nl ++ "1. Go to Google Ads" ++ nl ++
  "2. If you see multiple accounts, select the one you want" ++ nl ++
  "3. The ID is shown in the top right (format: `123-456-7890`)" ++ nl ++ nl ++
  "Type 'same' or paste the ID:".

(** Line 73. *)
Definition summary (username developer_token manager_id campaign_id : string) : string :=
  party ++ " **Setup Complete!**" ++ nl ++ nl ++ "Here's what I've collected:" ++ nl ++ nl ++
  check_mark ++ " Username: " ++ username ++ nl ++ check_mark ++
  " Developer Token: " ++ Str.take 10 developer_token ++ "..." ++ nl ++
  check_mark ++ " Manager ID: " ++ manager_id ++ nl ++ check_mark ++
  " Campaign ID: " ++ campaign_id ++ nl ++ nl ++
  "I'm now saving this configuration and fetching your campaign data. This may take a moment...".

(** Line 77. *)
Definition already_complete : string :=
  "Your setup is already complete! You can now access your dashboard.".

(** ** setup_agent.py: [setup_agent_chat] *)

(** A turn mutates the session in place and returns or raises: a computation
    takes the session and gives it back with its outcome, the mutations made
    before an exception included. *)
Definition M (A : Type) : Type := session -> session * result A.

Definition ret {A} (a : A) : M A := fun s => (s, Ok a).
Definition raise {A} (e : exn) : M A := fun s => (s, Raise e).
Definition bindM {A B} (m : M A) (k : A -> M B) : M B :=
  fun s =>
    match m s with
    | (s', Ok a) => k a s'
    | (s', Raise e) => (s', Raise e)
    end.

Notation "x <~ m ;; k" := (bindM m (fun x => k))
  (at level 100, m at next level, right associativity).
Notation "m >> k" := (bindM m (fun _ => k))
  (at level 100, k at level 200, right associativity).

(** [state["step"]] and [state["step"] = v] *)
Definition get_step : M string := fun s => (s, Ok (step s)).
Definition set_step (v : string) : M unit :=
  fun s => ({| step := v; data := data s; history := history s |}, Ok tt).

(** [state["data"]], [state["data"][k]], [state["data"][k] = v] and
    [k in state["data"]] *)
Definition get_data : M (gmap string string) := fun s => (s, Ok (data s)).
Definition read_data (k : string) : M string :=
  fun s =>
    match data s !! k with
    | Some v => (s, Ok v)
    | None => (s, Raise (KeyError k))
    end.
Definition write_data (k v : string) : M unit :=
  fun s => ({| step := step s; data := <[k := v]> (data s); history := history s |}, Ok tt).
Definition has_data (k : string) : M bool :=
  fun s => (s, Ok (bool_decide (is_Some (data s !! k)))).

(** [state["history"].append({"role": role, "content": content})] *)
Definition append_history (role content : string) : M unit :=
  fun s =>
    ({| step := step s; data := data s; history := history s ++ [(role, content)] |}, Ok tt).

(** How the [if]/[elif] chain over the step ends: the function has returned,
    or control falls through to line 80 with [response] bound or not. *)
Inductive flow : Type :=
  | Returned (r : reply)
  | Falls (response : option string).

(** Lines 41-78. *)
Definition branches (message : string) : M flow :=
  current <~ get_step ;;
  if String.eqb current "username" then
    let username := extract_value message in
    write_data "username" username >>
    set_step "developer_token" >>
    ret (Falls (Some (greeting username)))
  else if String.eqb current "developer_token" then
    if String.eqb (Str.lower message) "help" then ret (Falls (Some token_help))
    else
      write_data "developer_token" (Str.strip message) >>
      set_step "manager_id" >>
      ret (Falls (Some token_saved))
  else if String.eqb current "manager_id" then
    if String.eqb (Str.lower message) "help" then ret (Falls (Some manager_help))
    else
      write_data "manager_id" (Str.remove "-" (Str.strip message)) >>
      set_step "campaign_id" >>
      ret (Falls (Some manager_saved))
  else if String.eqb current "campaign_id" then
    bound <~ (if String.eqb (Str.lower message) "same" then
                manager_id <~ read_data "manager_id" ;;
                write_data "campaign_id" manager_id >> ret None
              else if String.eqb (Str.lower message) "help" then
                ret (Some campaign_help)
              else
                write_data "campaign_id" (Str.remove "-" (Str.strip message)) >> ret None) ;;
    populated <~ has_data "campaign_id" ;;
    if populated : bool then
      set_step "complete" >>
      username <~ read_data "username" ;;
      developer_token <~ read_data "developer_token" ;;
      manager_id <~ read_data "manager_id" ;;
      campaign_id <~ read_data "campaign_id" ;;
      collected <~ get_data ;;
      ret (Returned {| response := summary username developer_token manager_id campaign_id;
                       complete := true; reply_data := Some collected |})
    else ret (Falls bound)
  else if String.eqb current "complete" then
    collected <~ get_data ;;
    ret (Returned {| response := already_complete; complete := true;
                     reply_data := Some collected |})
  else ret (Falls None).

(** Lines 37-81, on the session of the user. *)
Definition turn (message : string) : M reply :=
  append_history "user" message >>
  outcome <~ branches message ;;
  match outcome with
  | Returned r => ret r
  | Falls None => raise UnboundLocalError
  | Falls (Some text) =>
      append_history "assistant" text >>
      ret {| response := text; complete := false; reply_data := None |}
  end.

(** Lines 29-81: [SETUP_STATE] is the table of sessions; a user without an
    entry gets a fresh one.  The generative model line 27 builds and the
    argument [session_data] are never used. *)
Definition setup_agent_chat (SETUP_STATE : gmap string session) (user_id message : string)
  : gmap string session * result reply :=
  let state := default fresh_session (SETUP_STATE !! user_id) in
  let (state', r) := turn message state in
  (<[user_id := state']> SETUP_STATE, r).

(** ** The setup conversation: reachable sessions and their invariant *)

(** The sessions a user can be in: a fresh one, and the one any message leaves
    behind. *)
Inductive reachable : session -> Prop :=
  | reach_fresh : reachable fresh_session
  | reach_turn s message : reachable s -> reachable (fst (turn message s)).

Definition has (s : session) (k : string) : Prop := is_Some (data s !! k).

(** The collected data matches the progress of the step. *)
Definition collected_matches_step (s : session) : Prop :=
  (step s = "developer_token" -> has s "username")
  /\ (step s = "manager_id" -> has s "username" /\ has s "developer_token")
  /\ (step s = "campaign_id" ->
        has s "username" /\ has s "developer_token" /\ has s "manager_id")
  /\ (step s = "complete" ->
        has s "username" /\ has s "developer_token" /\ has s "manager_id"
        /\ has s "campaign_id").

(** The invariant of the conversation: the step is one of the five, the
    fields of the earlier steps are there, and [campaign_id] is not before the
    end. *)
Inductive stage : session -> Prop :=
  | at_username d h :
      d !! "campaign_id" = None ->
      stage {| step := "username"; data := d; history := h |}
  | at_developer_token d h :
      is_Some (d !! "username") -> d !! "campaign_id" = None ->
      stage {| step := "developer_token"; data := d; history := h |}
  | at_manager_id d h :
      is_Some (d !! "username") -> is_Some (d !! "developer_token") ->
      d !! "campaign_id" = None ->
      stage {| step := "manager_id"; data := d; history := h |}
  | at_campaign_id d h :
      is_Some (d !! "username") -> is_Some (d !! "developer_token") ->
      is_Some (d !! "manager_id") -> d !! "campaign_id" = None ->
      stage {| step := "campaign_id"; data := d; history := h |}
  | at_complete d h :
      is_Some (d !! "username") -> is_Some (d !! "developer_token") ->
      is_Some (d !! "manager_id") -> is_Some (d !! "campaign_id") ->
      stage {| step := "complete"; data := d; history := h |}.

(** The guidance text of the three steps that know the [help] command. *)
Definition guidance (current : string) : string :=
  if String.eqb current "developer_token" then token_help
  else if String.eqb current "manager_id" then manager_help
  else campaign_help.

(** The five turns of the scenario, for the user ["user-1"] of an empty table. *)
Definition table1 : gmap string session := fst (setup_agent_chat ∅ "user-1" "Alex").
Definition table2 : gmap string session := fst (setup_agent_chat table1 "user-1" "help").
Definition table3 : gmap string session := fst (setup_agent_chat table2 "user-1" "tok_123").
Definition table4 : gmap string session :=
  fst (setup_agent_chat table3 "user-1" "123-456-7890").
Definition table5 : gmap string session := fst (setup_agent_chat table4 "user-1" "same").

Definition step_of (T : gmap string session) : option string := step <$> T !! "user-1".
Definition data_of (T : gmap string session) : option (gmap string string) :=
  data <$> T !! "user-1".

Definition done_session : session :=
  {| step := "complete";
     data := {[ "username" := "Alex"; "developer_token" := "tok_123";
                "manager_id" := "1234567890"; "campaign_id" := "1234567890" ]};
     history := [] |}.

(** ** The progress of a session *)

(** The position of a step in the conversation. *)
Definition step_index (current : string) : nat :=
  if String.eqb current "username" then 0
  else if String.eqb current "developer_token" then 1
  else if String.eqb current "manager_id" then 2
  else if String.eqb current "campaign_id" then 3
  else if String.eqb current "complete" then 4
  else 5.

(** The keys the data holds at a step. *)
Definition collected_keys (current : string) : gset string :=
  if String.eqb current "username" then ∅
  else if String.eqb current "developer_token" then {[ "username" ]}
  else if String.eqb current "manager_id" then {[ "username"; "developer_token" ]}
  else if String.eqb current "campaign_id" then
    {[ "username"; "developer_token"; "manager_id" ]}
  else {[ "username"; "developer_token"; "manager_id"; "campaign_id" ]}.

(** The session after the messages [msgs], one turn each. *)
Definition run (msgs : list string) (s : session) : session :=
  fold_left (fun s message => fst (turn message s)) msgs s.

(** A text without the character [c]. *)
Definition free_of (c : ascii) (s : string) : Prop :=
  forall i, String.get i s <> Some c.

(** ** The moves of the setup conversation *)

Definition user_line (message : string) : string * string := ("user", message).
Definition assistant_line (text : string) : string * string := ("assistant", text).

(** The steps that know the [help] command. *)
Definition HELP_STEPS : list string := ["developer_token"; "manager_id"; "campaign_id"].

(** [move message s s' r]: on [message] the session [s] becomes [s'] and the
    reply is [r]. *)
Inductive move (message : string) : session -> session -> reply -> Prop :=
  | move_username d h :
      move message
        {| step := "username"; data := d; history := h |}
        {| step := "developer_token";
           data := <["username" := extract_value message]> d;
           history := h ++ [user_line message;
                            assistant_line (greeting (extract_value message))] |}
        {| response := greeting (extract_value message); complete := false;
           reply_data := None |}
  | move_help current d h :
      current ∈ HELP_STEPS ->
      Str.lower message = "help" ->
      move message
        {| step := current; data := d; history := h |}
        {| step := current; data := d;
           history := h ++ [user_line message; assistant_line (guidance current)] |}
        {| response := guidance current; complete := false; reply_data := None |}
  | move_token d h :
      Str.lower message <> "help" ->
      move message
        {| step := "developer_token"; data := d; history := h |}
        {| step := "manager_id";
           data := <["developer_token" := Str.strip message]> d;
           history := h ++ [user_line message; assistant_line token_saved] |}
        {| response := token_saved; complete := false; reply_data := None |}
  | move_manager d h :
      Str.lower message <> "help" ->
      move message
        {| step := "manager_id"; data := d; history := h |}
        {| step := "campaign_id";
           data := <["manager_id" := Str.remove "-" (Str.strip message)]> d;
           history := h ++ [user_line message; assistant_line manager_saved] |}
        {| response := manager_saved; complete := false; reply_data := None |}
  | move_campaign d h username developer_token manager_id campaign_id :
      Str.lower message <> "help" ->
      d !! "username" = Some username ->
      d !! "developer_token" = Some developer_token ->
      d !! "manager_id" = Some manager_id ->
      campaign_id = (if String.eqb (Str.lower message) "same" then manager_id
                     else Str.remove "-" (Str.strip message)) ->
      move message
        {| step := "campaign_id"; data := d; history := h |}
        {| step := "complete"; data := <["campaign_id" := campaign_id]> d;
           history := h ++ [user_line message] |}
        {| response := summary username developer_token manager_id campaign_id;
           complete := true; reply_data := Some (<["campaign_id" := campaign_id]> d) |}
  | move_complete d h :
      move message
        {| step := "complete"; data := d; history := h |}
        {| step := "complete"; data := d; history := h ++ [user_line message] |}
        {| response := already_complete; complete := true; reply_data := Some d |}.

(** Every character of the text is of the class. *)
Fixpoint every_char (cls : ascii -> bool) (s : string) : bool :=
  match s with
  | EmptyString => true
  | String c r => cls c && every_char cls r
  end.

(** The text holds characters of ASCII only. *)
Definition ascii_text (s : string) : bool :=
  every_char (fun c => (Str.code c <? 128)%nat) s.

(** The values a session collects are tidy: the user name and the token carry
    no blank at either end, the two ids no hyphen. *)
Definition tidy (d : gmap string string) : Prop :=
  (forall v, d !! "username" = Some v -> Str.strip v = v)
  /\ (forall v, d !! "developer_token" = Some v -> Str.strip v = v)
  /\ (forall v, d !! "manager_id" = Some v -> free_of "-" v)
  /\ (forall v, d !! "campaign_id" = Some v -> free_of "-" v).

(** The text does not start with a blank. *)
Definition no_blank_ahead (s : string) : Prop :=
  match s with
  | EmptyString => True
  | String c _ => Str.is_space c = false
  end.

(** A table with two users. *)
Definition two_users : gmap string session :=
  {[ "ann" := run ["Ann"] fresh_session; "bob" := done_session ]}.
(** * The validator and the normalizer *)

Local Close Scope string_scope.
Local Open Scope text_scope.

Arguments Text.of_nat : simpl never.

Ltac case_if :=
  match goal with
  | |- context [if ?b then _ else _] => destruct b eqn:?
  end.

Ltac first_if H :=
  match type of H with
  | context [if ?b then _ else _] => destruct b
  end.

Ltac split_ifs H :=
  repeat match type of H with
    | context [if ?b then _ else _] => destruct b
    end.

(** ** Texts *)

Lemma eqb_eq s t : Text.eqb s t = true <-> s = t.
Proof.
  revert t. induction s as [|c s IH]; intros [|c' t]; cbn; try (split; congruence).
  rewrite andb_true_iff, N.eqb_eq, IH. split; [intros [-> ->]; reflexivity|].
  intros H. injection H as -> ->. by split.
Qed.

Lemma eqb_refl s : Text.eqb s s = true.
Proof. by apply eqb_eq. Qed.

Lemma eqb_neq s t : Text.eqb s t = false <-> s <> t.
Proof.
  split.
  - intros H ->. rewrite eqb_refl in H. discriminate.
  - intros H. destruct (Text.eqb s t) eqn:E; [|reflexivity]. apply eqb_eq in E. contradiction.
Qed.

Lemma is_empty_true s : Text.is_empty s = true <-> s = "".
Proof. destruct s; cbn; split; congruence. Qed.

Lemma is_empty_false s : Text.is_empty s = false <-> s <> "".
Proof. destruct s; cbn; split; congruence. Qed.

Lemma mem_elem_of s l : Text.mem s l = true <-> s ∈ l.
Proof.
  unfold Text.mem. rewrite existsb_exists, list_elem_of_In. split.
  - intros [x [Hin Heq]]. apply eqb_eq in Heq. by subst.
  - intros H. exists s. split; [exact H|apply eqb_refl].
Qed.

Lemma app_nil_end s : s ++ "" = s.
Proof. induction s as [|c s IH]; cbn; congruence. Qed.

Lemma app_inv_tail s t r : s ++ r = t ++ r -> s = t.
Proof.
  assert (Hlen : forall a b, Text.len (a ++ b) = Text.len a + Text.len b).
  { intros a b. induction a as [|c a IH]; cbn; [reflexivity|]. by rewrite IH. }
  revert t. induction s as [|c s IH]; intros [|c' t]; cbn; intros H.
  - reflexivity.
  - apply (f_equal Text.len) in H. cbn in H. rewrite Hlen in H. lia.
  - apply (f_equal Text.len) in H. cbn in H. rewrite Hlen in H. lia.
  - injection H as -> H. f_equal. by apply IH.
Qed.

(** The decimal digits of a number hold no blank, and tell the number. *)
Lemma of_uint_digits d : digits (Text.of_uint d).
Proof. unfold digits. induction d; cbn; constructor; try done. Qed.

Lemma of_uint_inj d d' : Text.of_uint d = Text.of_uint d' -> d = d'.
Proof.
  revert d'. induction d; intros d'; destruct d'; cbn; intros H; try discriminate;
    try reflexivity; injection H as H; f_equal; by apply IHd.
Qed.

Lemma of_nat_inj i j : Text.of_nat i = Text.of_nat j -> i = j.
Proof.
  unfold Text.of_nat. intros H. apply of_uint_inj in H.
  apply (f_equal Nat.of_uint) in H. by rewrite !DecimalNat.Unsigned.of_to in H.
Qed.

Lemma digits_then_blank s s' r r' :
  digits s -> digits s' -> s ++ tcons 32 r = s' ++ tcons 32 r' -> s = s' /\ r = r'.
Proof.
  unfold digits. revert s'. induction s as [|c s IH]; intros [|c' s']; cbn; intros Hs Hs' H.
  - injection H as ->. by split.
  - injection H as <- _. apply Forall_cons in Hs' as [? _]. contradiction.
  - injection H as -> _. apply Forall_cons in Hs as [? _]. contradiction.
  - injection H as -> H. apply Forall_cons in Hs as [_ Hs]. apply Forall_cons in Hs' as [_ Hs'].
    destruct (IH s' Hs Hs' H) as [-> ->]. by split.
Qed.

Lemma of_nat_then_blank i j r r' :
  Text.of_nat i ++ tcons 32 r = Text.of_nat j ++ tcons 32 r' -> i = j /\ r = r'.
Proof.
  intros H. apply digits_then_blank in H as [H ->]; [|apply of_uint_digits..].
  split; [by apply of_nat_inj|reflexivity].
Qed.

(** ** Reading a dict *)

Lemma get_text d k :
  text_or_absent d k = true -> as_str (dict_get d k (VStr "")) = Ok (text_of d k).
Proof.
  unfold text_or_absent, dict_get, text_of.
  destruct (dict_lookup d k) as [[]|]; cbn; congruence.
Qed.

Lemma text_of_lookup d k s : dict_lookup d k = Some (VStr s) -> text_of d k = s.
Proof. unfold text_of. by intros ->. Qed.

Lemma text_or_absent_lookup d k s :
  dict_lookup d k = Some (VStr s) -> text_or_absent d k = true.
Proof. unfold text_or_absent. by intros ->. Qed.

Lemma lookup_set_same d k v : dict_lookup (dict_set d k v) k = Some v.
Proof.
  induction d as [|[k' v'] d IH]; cbn.
  - by rewrite eqb_refl.
  - destruct (Text.eqb k k') eqn:E; cbn; rewrite E; [reflexivity|exact IH].
Qed.

Lemma lookup_set_other d k v k' : k <> k' -> dict_lookup (dict_set d k v) k' = dict_lookup d k'.
Proof.
  intros Hne. induction d as [|[k0 v0] d IH]; cbn.
  - destruct (Text.eqb k' k) eqn:E; [|reflexivity].
    apply eqb_eq in E. congruence.
  - destruct (Text.eqb k k0) eqn:E; cbn.
    + apply eqb_eq in E. subst k0.
      destruct (Text.eqb k' k) eqn:E'; [|reflexivity].
      apply eqb_eq in E'. congruence.
    + by rewrite IH.
Qed.

(** ** Numbers *)

(** Line 21 lets through the budgets of rule 2 and the NaN. *)
Lemma budget_test_rule budget : budget_test budget = budget_rule budget || is_nan budget.
Proof.
  unfold budget_test, budget_rule.
  destruct budget as [| b | z | f | | |]; cbn; try reflexivity.
  - by destruct b.
  - destruct (Z.leb_spec z 0), (Z.ltb_spec 0 z); cbn; try reflexivity; lia.
  - destruct f as [s | s | | s m e]; cbn; try reflexivity; by destruct s.
Qed.

Lemma budget_test_not_nan budget : is_nan budget = false -> budget_test budget = budget_rule budget.
Proof. intros H. by rewrite budget_test_rule, H, orb_false_r. Qed.

(** ** The validator against its rules *)

Section Refinement.

Context (lib : pylib).

Lemma str_ok_display v : str_ok lib v = true -> py_str lib v = Ok (display lib v).
Proof. unfold str_ok, display. by destruct (py_str lib v). Qed.

Lemma str_ok_text s : str_ok lib (VStr s) = true.
Proof. reflexivity. Qed.

Lemma check_name_rules spec errors :
  text_or_absent spec "campaign_name" = true ->
  check_name spec errors = Ok (errors ++ (render <$> name_violations spec))%list.
Proof.
  intros H. unfold check_name, name_violations. rewrite (get_text _ _ H). cbn [bind].
  repeat case_if; cbn [fmap list_fmap render]; rewrite ?app_nil_r; reflexivity.
Qed.

Lemma check_budget_rules spec errors :
  forallb (str_ok lib) (formatted_budget spec) = true ->
  check_budget lib spec errors
  = Ok (errors ++ (render <$> budget_violations_by lib budget_test spec))%list.
Proof.
  unfold check_budget, budget_violations_by, formatted_budget, dict_get.
  destruct (dict_lookup spec "budget_amount_micros") as [budget|]; [|reflexivity].
  assert (Hneg : negb (is_number budget) || le_zero budget = negb (budget_test budget)).
  { unfold budget_test. by rewrite negb_andb, negb_involutive. }
  destruct budget; try reflexivity; rewrite Hneg;
    destruct (budget_test _); cbn [negb forallb andb]; intros Hs;
    rewrite ?app_nil_r; try reflexivity;
    apply andb_true_iff in Hs as [Hs _]; rewrite (str_ok_display _ Hs); reflexivity.
Qed.

Lemma check_keyword_rules i kw errors :
  keyword_shaped kw = true ->
  forallb (str_ok lib) (formatted_keyword kw) = true ->
  check_keyword lib i kw errors
  = Ok (errors ++ (render <$> keyword_violations lib i kw))%list.
Proof.
  intros H Hs. destruct kw; cbn [check_keyword keyword_violations];
    cbn [fmap list_fmap]; rewrite ?app_nil_r; try reflexivity.
  - case_if; cbn [fmap list_fmap render]; rewrite ?app_nil_r; reflexivity.
  - cbn in H. rewrite (get_text _ _ H). cbn [bind]. unfold push.
    cbn [formatted_keyword] in Hs.
    destruct (in_literals _ MATCH_TYPES); cbn [negb].
    + destruct (Text.is_empty _); cbn [fmap list_fmap app render];
        rewrite ?app_nil_r; reflexivity.
    + cbn [forallb] in Hs. apply andb_true_iff in Hs as [Hs _].
      rewrite (str_ok_display _ Hs). cbn [bind].
      destruct (Text.is_empty _); cbn [fmap list_fmap app render];
        rewrite <- ?app_assoc; reflexivity.
Qed.

Lemma keywords_loop_rules kws : forall i errors,
  forallb keyword_shaped kws = true ->
  forallb (str_ok lib) (flat_map formatted_keyword kws) = true ->
  keywords_loop lib i kws errors
  = Ok (errors ++ (render <$> concat (imap (fun j => keyword_violations lib (i + j)) kws)))%list.
Proof.
  induction kws as [|kw kws IH]; intros i errors H Hs; cbn [keywords_loop].
  - cbn. by rewrite app_nil_r.
  - cbn [forallb] in H. apply andb_true_iff in H as [Hkw Hkws].
    cbn [flat_map] in Hs. rewrite forallb_app in Hs. apply andb_true_iff in Hs as [Hs Hss].
    rewrite (check_keyword_rules _ _ _ Hkw Hs). cbn [bind]. rewrite (IH _ _ Hkws Hss).
    cbn [imap concat]. rewrite fmap_app, app_assoc, Nat.add_0_r. do 4 f_equal.
    apply imap_ext. intros j x _. cbn. f_equal. lia.
Qed.

Lemma chars_length s : length (Text.chars s) = Text.len s.
Proof. induction s; cbn; congruence. Qed.

Lemma sized_len v :
  sized v = true -> py_len v = Ok (length (elements v)) /\ py_iter v = Ok (elements v).
Proof.
  unfold elements. destruct v; cbn; try discriminate; intros _; split; try reflexivity.
  - by rewrite length_map, chars_length.
  - by rewrite length_map.
Qed.

Lemma truthy_sized_nonempty v :
  truthy v = true -> sized v = true -> (length (elements v) =? 0)%nat = false.
Proof.
  unfold elements. destruct v; cbn; try discriminate.
  - destruct s; cbn; [discriminate|reflexivity].
  - destruct l; [discriminate|reflexivity].
  - destruct d; [discriminate|reflexivity].
Qed.

Lemma check_keywords_rules spec errors :
  negb (truthy (list_field spec "keywords"))
  || (sized (list_field spec "keywords")
      && forallb keyword_shaped (elements (list_field spec "keywords"))) = true ->
  forallb (str_ok lib) (formatted_keywords spec) = true ->
  check_keywords lib spec errors
  = Ok (errors ++ (render <$> keywords_violations lib spec))%list.
Proof.
  unfold check_keywords, keywords_violations, formatted_keywords.
  fold (list_field spec "keywords").
  destruct (truthy (list_field spec "keywords")) eqn:Ht; cbn [negb orb]; [|reflexivity].
  intros H Hf. apply andb_true_iff in H as [Hs Hk].
  destruct (sized_len _ Hs) as [-> ->]. cbn [bind].
  rewrite (truthy_sized_nonempty _ Ht Hs).
  rewrite (keywords_loop_rules _ _ _ Hk Hf). reflexivity.
Qed.

Lemma asset_violation_middle a pre t rest :
  asset_violation a (pre ++ t :: rest) (length pre)
  = if Text.is_empty t then Some (AssetEmpty a (length pre))
    else if (asset_limit a <? Text.len t)%nat
         then Some (AssetTooLong a (length pre) (Text.len t))
    else if bool_decide (t ∈ pre) then Some (AssetDuplicate a (length pre) t)
    else None.
Proof.
  unfold asset_violation.
  rewrite list_lookup_middle by reflexivity. by rewrite take_app_length.
Qed.

Lemma assets_loop_rules a items : forall pre seen errors,
  (forall x, x ∈ seen <-> x ∈ pre) ->
  forallb (str_ok lib) items = true ->
  assets_loop lib (asset_label a) (asset_limit a) (length pre) items seen errors
  = Ok (errors ++ (render <$> omap (asset_violation a (pre ++ (trimmed lib <$> items)))
                                (seq (length pre) (length items))))%list.
Proof.
  induction items as [|h items IH]; intros pre seen errors Hseen Hs.
  - cbn. by rewrite app_nil_r.
  - cbn [forallb] in Hs. apply andb_true_iff in Hs as [Hh Hs].
    cbn [assets_loop]. rewrite (str_ok_display _ Hh). cbn [bind].
    fold (trimmed lib h). set (t := trimmed lib h).
    assert (Hnext : forall x, x ∈ ({[t]} ∪ seen : gset text) <-> x ∈ (pre ++ [t])%list).
    { intros x. rewrite elem_of_union, elem_of_singleton, elem_of_app,
        list_elem_of_singleton, Hseen. tauto. }
    specialize (IH (pre ++ [t])%list ({[t]} ∪ seen)).
    rewrite length_app, Nat.add_1_r, <- app_assoc in IH.
    change ([t] ++ (trimmed lib <$> items))%list with (t :: (trimmed lib <$> items)) in IH.
    rewrite IH by (exact Hnext || exact Hs). clear IH.
    change (trimmed lib <$> h :: items) with (t :: (trimmed lib <$> items)).
    change (omap ?f (seq ?i (length (h :: items))))
      with (match f i with
            | Some y => y :: omap f (seq (S i) (length items))
            | None => omap f (seq (S i) (length items))
            end).
    rewrite asset_violation_middle.
    assert (Hdec : bool_decide (t ∈ seen) = bool_decide (t ∈ pre))
      by (apply bool_decide_ext, Hseen).
    rewrite Hdec. unfold push.
    destruct (Text.is_empty t); [by rewrite <- app_assoc|].
    destruct (asset_limit a <? Text.len t)%nat; [by rewrite <- app_assoc|].
    destruct (bool_decide (t ∈ pre)); [by rewrite <- app_assoc|reflexivity].
Qed.

Lemma check_headlines_rules spec errors :
  sized (list_field spec (asset_field Headline)) = true ->
  forallb (str_ok lib) (formatted_assets Headline spec) = true ->
  check_headlines lib spec errors
  = Ok (errors ++ (render <$> assets_violations lib Headline spec))%list.
Proof.
  intros Hs. unfold check_headlines, assets_violations, formatted_assets.
  change (dict_get spec "headlines" (VList [])) with (list_field spec (asset_field Headline)).
  destruct (sized_len _ Hs) as [-> ->]. cbn [bind asset_minimum].
  case_if; [reflexivity|]. intros Hf.
  rewrite (assets_loop_rules Headline _ [] ∅ errors) by (set_solver || exact Hf).
  cbn. by rewrite length_fmap.
Qed.

Lemma check_descriptions_rules spec errors :
  sized (list_field spec (asset_field Description)) = true ->
  forallb (str_ok lib) (formatted_assets Description spec) = true ->
  check_descriptions lib spec errors
  = Ok (errors ++ (render <$> assets_violations lib Description spec))%list.
Proof.
  intros Hs. unfold check_descriptions, assets_violations, formatted_assets.
  change (dict_get spec "descriptions" (VList []))
    with (list_field spec (asset_field Description)).
  destruct (sized_len _ Hs) as [-> ->]. cbn [bind asset_minimum].
  case_if; [reflexivity|]. intros Hf.
  rewrite (assets_loop_rules Description _ [] ∅ errors) by (set_solver || exact Hf).
  cbn. by rewrite length_fmap.
Qed.

Lemma check_final_url_rules spec errors :
  text_or_absent spec "final_url" = true ->
  url_parses lib spec = true ->
  check_final_url lib spec errors
  = Ok (errors ++ (render <$> url_violations lib spec))%list.
Proof.
  intros H Hp. unfold check_final_url, url_violations. rewrite (get_text _ _ H). cbn [bind].
  unfold url_parses in Hp.
  destruct (Text.is_empty (Text.strip (text_of spec "final_url"))); [reflexivity|].
  cbn [orb] in Hp. destruct (urlparse_scheme lib _) as [scheme|]; [|discriminate]. cbn [bind].
  destruct (Text.eqb scheme "https"); cbn [negb fmap list_fmap render];
    rewrite ?app_nil_r; reflexivity.
Qed.

Lemma check_bidding_rules spec errors :
  text_or_absent spec "bidding_strategy" = true ->
  check_bidding lib spec errors
  = Ok (errors ++ (render <$> bidding_violations lib spec))%list.
Proof.
  intros H. unfold check_bidding, bidding_violations. rewrite (get_text _ _ H). cbn [bind].
  destruct (Text.mem (upper lib (text_of spec "bidding_strategy")) BIDDING_STRATEGIES);
    cbn [negb fmap list_fmap render]; rewrite ?app_nil_r; reflexivity.
Qed.

(** On a well-shaped campaign whose values can be written into a message the
    validator raises nothing but its own error, and the list it joins is the
    list of the violations it reports. *)
Lemma validate_rules spec :
  well_shaped lib spec = true ->
  printable lib spec = true ->
  validate_campaign_spec lib spec
  = match reported lib spec with
    | [] => Ok spec
    | vs => Raise (CampaignValidationError (Text.join "; " (render <$> vs)))
    end.
Proof.
  unfold well_shaped, printable, formatted. rewrite !andb_true_iff, !forallb_app, !andb_true_iff.
  intros [[[[[[Hn Hk] Hh] Hd] Hu] Hp] Hb] [Fb [Fk [Fh Fd]]].
  unfold validate_campaign_spec.
  rewrite (check_name_rules _ _ Hn). cbn [bind].
  rewrite (check_budget_rules _ _ Fb). cbn [bind].
  rewrite (check_keywords_rules _ _ Hk Fk). cbn [bind].
  rewrite (check_headlines_rules _ _ Hh Fh). cbn [bind].
  rewrite (check_descriptions_rules _ _ Hd Fd). cbn [bind].
  rewrite (check_final_url_rules _ _ Hu Hp). cbn [bind].
  rewrite (check_bidding_rules _ _ Hb). cbn [bind].
  rewrite <- !app_assoc, app_nil_l, <- !fmap_app.
  fold (violations_by lib budget_test spec). fold (reported lib spec).
  destruct (reported lib spec); reflexivity.
Qed.

(** But for a budget that is a NaN, the validator reports the violations of
    the rules. *)
Lemma reported_violations spec :
  nan_budget spec = false -> reported lib spec = violations lib spec.
Proof.
  unfold nan_budget, reported, violations, violations_by, budget_violations_by.
  destruct (dict_lookup spec "budget_amount_micros") as [budget|]; [|reflexivity].
  intros H. by rewrite (budget_test_not_nan _ H).
Qed.

End Refinement.

(** ** Valid campaigns pass *)

Lemma omap_all_none {A B} (f : A -> option B) l :
  (forall x, x ∈ l -> f x = None) -> omap f l = [].
Proof.
  induction l as [|x l IH]; intros H; cbn; [reflexivity|].
  rewrite (H x) by left. apply IH. intros y Hy. apply H. by right.
Qed.

Lemma forallb_Forall {A} (f : A -> bool) l :
  forallb f l = true <-> Forall (fun x => f x = true) l.
Proof.
  induction l as [|x l IH]; cbn; [split; [constructor|reflexivity]|].
  rewrite andb_true_iff, Forall_cons, IH. reflexivity.
Qed.

Section Valid.

Context (lib : pylib).

(** The values of the enum are in upper case. *)
Lemma bidding_upper e : e ∈ BIDDING_STRATEGIES -> upper lib e = e.
Proof.
  unfold BIDDING_STRATEGIES. intros He.
  repeat (apply elem_of_cons in He as [-> | He]; [by rewrite upper_ascii|]).
  by apply elem_of_nil in He.
Qed.

Lemma same_case_bidding bid e :
  e ∈ BIDDING_STRATEGIES -> same_ignoring_case lib bid e ->
  upper lib bid ∈ BIDDING_STRATEGIES.
Proof. intros He Hc. unfold same_ignoring_case in Hc. by rewrite Hc, (bidding_upper e He). Qed.

Lemma valid_keyword_quiet i kw :
  valid_keyword kw ->
  keyword_shaped kw = true /\ keyword_violations lib i kw = [] /\ formatted_keyword kw = [].
Proof.
  destruct kw; cbn; try contradiction.
  - intros H. apply is_empty_false in H. by rewrite H.
  - intros [[t [Ht Hne]] [m [Hm Hin]]].
    rewrite (text_or_absent_lookup _ _ _ Ht), (text_of_lookup _ _ _ Ht).
    apply is_empty_false in Hne. rewrite Hne.
    unfold dict_get. rewrite Hm. cbn [in_literals].
    apply mem_elem_of in Hin. by rewrite Hin.
Qed.

Lemma valid_keywords_quiet kws : forall f,
  Forall valid_keyword kws ->
  forallb keyword_shaped kws = true
  /\ concat (imap (fun j => keyword_violations lib (f j)) kws) = []
  /\ flat_map formatted_keyword kws = [].
Proof.
  induction kws as [|kw kws IH]; intros f H; [by split|].
  apply Forall_cons in H as [Hkw Hkws].
  destruct (valid_keyword_quiet (f 0) kw Hkw) as [Hs [Hq Hf]].
  destruct (IH (f ∘ S) Hkws) as [Hss [Hqs Hfs]].
  cbn. rewrite Hs, Hq, Hf. cbn. split; [exact Hss|split; [exact Hqs|exact Hfs]].
Qed.

Lemma assets_ok_quiet a items :
  assets_ok lib a items ->
  omap (asset_violation a (trimmed lib <$> items))
       (seq 0 (length (trimmed lib <$> items))) = [].
Proof.
  intros [_ [Hnd Hall]]. apply omap_all_none. intros j _.
  unfold asset_violation.
  destruct ((trimmed lib <$> items) !! j) as [t|] eqn:Hj; [|reflexivity].
  destruct (proj1 (Forall_lookup _ _) Hall j t Hj) as [Hne Hlen].
  apply is_empty_false in Hne. rewrite Hne.
  assert (Hlim : (asset_limit a <? Text.len t)%nat = false) by (apply Nat.ltb_ge; lia).
  rewrite Hlim.
  rewrite bool_decide_eq_false_2; [reflexivity|].
  intros Hin. apply elem_of_take in Hin as [i [Hi Hlt]].
  pose proof (NoDup_lookup _ _ _ _ Hnd Hi Hj). lia.
Qed.

Lemma assets_ok_printable a items :
  assets_ok lib a items -> forallb (str_ok lib) items = true.
Proof. intros [H _]. by apply forallb_Forall. Qed.

Lemma valid_campaign_quiet spec :
  valid_campaign lib spec ->
  well_shaped lib spec = true /\ printable lib spec = true /\ reported lib spec = [].
Proof.
  intros [[name [Hname [Hnne Hnlen]]] [[budget [Hbudget [Hnum Hpos]]]
          [[kws [Hkws [Hkne Hkv]]] [[hs [Hhs [Hhlen Hhok]]] [[ds [Hds [Hdlen Hdok]]]
          [[url [Hurl [Hune Hscheme]]] [bid [e [Hbid [He Hcase]]]]]]]]]].
  assert (Hkf : list_field spec "keywords" = VList kws)
    by (unfold list_field, dict_get; by rewrite Hkws).
  assert (Hhf : list_field spec (asset_field Headline) = VList hs)
    by (unfold list_field, dict_get; cbn; by rewrite Hhs).
  assert (Hdf : list_field spec (asset_field Description) = VList ds)
    by (unfold list_field, dict_get; cbn; by rewrite Hds).
  destruct (valid_keywords_quiet kws (fun j => j) Hkv) as [Hks [Hkq Hkf']].
  assert (Htest : budget_test budget = true).
  { rewrite budget_test_rule. unfold budget_rule. by rewrite Hnum, Hpos. }
  apply is_empty_false in Hnne, Hune.
  split; [|split].
  - unfold well_shaped, url_parses. rewrite Hkf, Hhf, Hdf.
    rewrite (text_or_absent_lookup _ _ _ Hname), (text_or_absent_lookup _ _ _ Hurl),
      (text_or_absent_lookup _ _ _ Hbid), (text_of_lookup _ _ _ Hurl), Hune, Hscheme.
    unfold elements. cbn. rewrite Hks.
    destruct kws; [contradiction|reflexivity].
  - unfold printable, formatted, formatted_budget, formatted_keywords, formatted_assets.
    rewrite Hbudget, Htest, Hkf, Hhf, Hdf. unfold elements. cbn [py_iter].
    rewrite Hkf'. rewrite !forallb_app.
    assert (Hh3 : (length hs <? asset_minimum Headline)%nat = false)
      by (apply Nat.ltb_ge; cbn; lia).
    assert (Hd2 : (length ds <? asset_minimum Description)%nat = false)
      by (apply Nat.ltb_ge; cbn; lia).
    rewrite Hh3, Hd2, (assets_ok_printable _ _ Hhok), (assets_ok_printable _ _ Hdok).
    destruct budget, (truthy (VList kws)); reflexivity.
  - unfold reported, violations_by.
    assert (Hn : name_violations spec = []).
    { unfold name_violations. rewrite (text_of_lookup _ _ _ Hname), Hnne.
      assert (Hl : (255 <? Text.len (Text.strip name))%nat = false)
        by (apply Nat.ltb_ge; lia).
      by rewrite Hl. }
    assert (Hb : budget_violations_by lib budget_test spec = []).
    { unfold budget_violations_by. rewrite Hbudget, Htest. by destruct budget. }
    assert (Hk : keywords_violations lib spec = []).
    { unfold keywords_violations. rewrite Hkf. unfold elements. cbn.
      destruct kws; [contradiction|exact Hkq]. }
    assert (Hh : assets_violations lib Headline spec = []).
    { unfold assets_violations. rewrite Hhf. unfold elements. cbn [py_iter].
      assert (Hl : (length hs <? asset_minimum Headline)%nat = false)
        by (apply Nat.ltb_ge; cbn; lia).
      rewrite Hl. by apply assets_ok_quiet. }
    assert (Hd : assets_violations lib Description spec = []).
    { unfold assets_violations. rewrite Hdf. unfold elements. cbn [py_iter].
      assert (Hl : (length ds <? asset_minimum Description)%nat = false)
        by (apply Nat.ltb_ge; cbn; lia).
      rewrite Hl. by apply assets_ok_quiet. }
    assert (Hu : url_violations lib spec = []).
    { unfold url_violations. by rewrite (text_of_lookup _ _ _ Hurl), Hune, Hscheme. }
    assert (Hbd : bidding_violations lib spec = []).
    { unfold bidding_violations. rewrite (text_of_lookup _ _ _ Hbid).
      pose proof (same_case_bidding _ _ He Hcase) as Hm. apply mem_elem_of in Hm.
      by rewrite Hm. }
    by rewrite Hn, Hb, Hk, Hh, Hd, Hu, Hbd.
Qed.

End Valid.

(** C2: a campaign with exactly 3 headlines and at least 2 descriptions that
    are, once made texts and trimmed, not empty, within 30 and 90 characters
    and mutually different, with keywords that are all valid and at least one,
    a final URL whose parsed scheme is https, a name that is not blank and
    within 255 characters once trimmed, a number above zero as budget and a
    bidding strategy that equals one of the four once both are upper-cased,
    passes: the validator returns the mapping it was given.  Texts are
    sequences of code points and the blanks are those of Unicode; the
    embedding holds no write to [spec], the function only reads it with
    [get]. *)
Theorem valid_campaign_passes lib spec :
  valid_campaign lib spec -> validate_campaign_spec lib spec = Ok spec.
Proof.
  intros H. destruct (valid_campaign_quiet lib spec H) as [Hs [Hp Hv]].
  rewrite (validate_rules lib spec Hs Hp). by rewrite Hv.
Qed.

Lemma good_spec_valid : valid_campaign example_lib good_spec.
Proof.
  unfold valid_campaign, good_spec.
  split; [eexists; split; [reflexivity|split; [discriminate|vm_compute; lia]]|].
  split; [eexists; split; [reflexivity|split; reflexivity]|].
  split.
  { eexists; split; [reflexivity|split; [discriminate|]].
    repeat constructor.
    - eexists; split; [reflexivity|discriminate].
    - eexists; split; [reflexivity|]. unfold MATCH_TYPES. set_solver. }
  split.
  { eexists; split; [reflexivity|split; [reflexivity|]].
    split; [repeat constructor|].
    split; vm_compute; repeat constructor; try discriminate; try lia; set_solver. }
  split.
  { eexists; split; [reflexivity|split; [cbn; lia|]].
    split; [repeat constructor|].
    split; vm_compute; repeat constructor; try discriminate; try lia; set_solver. }
  split; [eexists; split; [reflexivity|split; [discriminate|reflexivity]]|].
  exists "maximize_clicks", "MAXIMIZE_CLICKS".
  split; [reflexivity|split; [unfold BIDDING_STRATEGIES; set_solver|reflexivity]].
Qed.

Lemma valid_campaign_passes_witness :
  validate_campaign_spec example_lib good_spec = Ok good_spec.
Proof. exact (valid_campaign_passes example_lib good_spec good_spec_valid). Defined.

(** ** Which violations a campaign has *)

Lemma elem_of_concat {A} (x : A) (ls : list (list A)) :
  x ∈ concat ls <-> exists l, x ∈ l /\ l ∈ ls.
Proof.
  induction ls as [|l ls IH]; cbn.
  - split; [intros H; by apply elem_of_nil in H|intros [l [_ H]]; by apply elem_of_nil in H].
  - rewrite elem_of_app, IH. split.
    + intros [H | [l' [H1 H2]]]; [exists l; split; [done|left]|exists l'; split; [done|by right]].
    + intros [l' [H1 H2]]. apply elem_of_cons in H2 as [-> | H2]; [by left|right; eauto].
Qed.

Section Membership.

Context (lib : pylib).

Lemma in_name_violations spec v :
  v ∈ name_violations spec <->
  let name := Text.strip (text_of spec "campaign_name") in
  (name = "" /\ v = NameRequired)
  \/ (name <> "" /\ 255 < Text.len name /\ v = NameTooLong (Text.len name)).
Proof.
  unfold name_violations. cbn zeta.
  destruct (Text.is_empty _) eqn:E.
  - apply is_empty_true in E. rewrite list_elem_of_singleton. split; [by left|].
    intros [[_ ->] | [? _]]; [reflexivity|contradiction].
  - apply is_empty_false in E. destruct (255 <? _)%nat eqn:El.
    + apply Nat.ltb_lt in El. rewrite list_elem_of_singleton. split; [by right|].
      intros [[? _] | [_ [_ ->]]]; [contradiction|reflexivity].
    + apply Nat.ltb_ge in El. split; [intros H; by apply elem_of_nil in H|].
      intros [[? _] | [_ [? _]]]; [contradiction|lia].
Qed.

Lemma in_budget_violations ok spec v :
  v ∈ budget_violations_by lib ok spec <->
  (dict_get spec "budget_amount_micros" VNone = VNone /\ v = BudgetRequired)
  \/ (exists budget, dict_lookup spec "budget_amount_micros" = Some budget
        /\ budget <> VNone /\ ok budget = false
        /\ v = BudgetNotPositive (display lib budget)).
Proof.
  unfold budget_violations_by, dict_get.
  destruct (dict_lookup spec "budget_amount_micros") as [budget|].
  2:{ rewrite list_elem_of_singleton. split; [by left|].
      intros [[_ ->] | [b [? _]]]; [reflexivity|discriminate]. }
  assert (Hgen : budget <> VNone ->
            v ∈ (if ok budget then [] else [BudgetNotPositive (display lib budget)]) <->
            budget = VNone /\ v = BudgetRequired
            \/ (exists b, Some budget = Some b /\ b <> VNone /\ ok b = false
                  /\ v = BudgetNotPositive (display lib b))).
  { intros Hne. destruct (ok budget) eqn:E.
    - split; [intros H; by apply elem_of_nil in H|].
      intros [[? _] | [b [Hb [_ [Hok _]]]]]; [contradiction|].
      injection Hb as <-. congruence.
    - rewrite list_elem_of_singleton. split; [intros ->; right; eauto|].
      intros [[? _] | [b [Hb [_ [_ ->]]]]]; [contradiction|]. by injection Hb as <-. }
  destruct budget; try (apply Hgen; discriminate).
  rewrite list_elem_of_singleton. split; [by left|].
  intros [[_ ->] | [b [Hb [Hne _]]]]; [reflexivity|]. injection Hb as <-. contradiction.
Qed.

Lemma in_keywords_violations spec v :
  v ∈ keywords_violations lib spec <->
  (truthy (list_field spec "keywords") = false /\ v = KeywordsRequired)
  \/ (truthy (list_field spec "keywords") = true
      /\ exists i kw, elements (list_field spec "keywords") !! i = Some kw
                      /\ v ∈ keyword_violations lib i kw).
Proof.
  unfold keywords_violations. destruct (truthy _).
  - rewrite elem_of_concat. split.
    + intros [l [Hv Hl]]. apply elem_of_lookup_imap in Hl as [i [kw [-> Hi]]].
      right. eauto.
    + intros [[? _] | [_ [i [kw [Hi Hv]]]]]; [discriminate|].
      exists (keyword_violations lib i kw). split; [done|].
      by apply (elem_of_lookup_imap_2 (keyword_violations lib)).
  - rewrite list_elem_of_singleton. split; [by left|].
    intros [[_ ->] | [? _]]; [reflexivity|discriminate].
Qed.

Lemma in_assets_violations a spec v :
  v ∈ assets_violations lib a spec <->
  let items := elements (list_field spec (asset_field a)) in
  (length items < asset_minimum a /\ v = TooFew a (length items))
  \/ (asset_minimum a <= length items
      /\ exists j, asset_violation a (trimmed lib <$> items) j = Some v).
Proof.
  unfold assets_violations. cbn zeta.
  set (items := elements (list_field spec (asset_field a))).
  destruct (length items <? asset_minimum a)%nat eqn:Hlt.
  - apply Nat.ltb_lt in Hlt. rewrite list_elem_of_singleton. split; [by left|].
    intros [[_ ->] | [? _]]; [reflexivity|lia].
  - apply Nat.ltb_ge in Hlt. rewrite list_elem_of_omap. split.
    + intros [j [_ Hj]]. right. eauto.
    + intros [[? _] | [_ [j Hj]]]; [lia|].
      exists j. split; [|exact Hj]. apply elem_of_seq. split; [lia|].
      unfold asset_violation in Hj.
      destruct (_ !! j) eqn:Hl; [|discriminate].
      apply lookup_lt_Some in Hl. cbn. exact Hl.
Qed.

Lemma in_url_violations spec v :
  v ∈ url_violations lib spec <->
  let final_url := Text.strip (text_of spec "final_url") in
  (final_url = "" /\ v = UrlRequired)
  \/ (exists scheme, final_url <> "" /\ urlparse_scheme lib final_url = Ok scheme
        /\ scheme <> "https" /\ v = UrlNotHttps scheme).
Proof.
  unfold url_violations. cbn zeta.
  destruct (Text.is_empty _) eqn:E.
  - apply is_empty_true in E. rewrite list_elem_of_singleton. split; [by left|].
    intros [[_ ->] | [s [? _]]]; [reflexivity|contradiction].
  - apply is_empty_false in E. destruct (urlparse_scheme lib _) as [scheme|e].
    + destruct (Text.eqb scheme "https") eqn:Es.
      * apply eqb_eq in Es. split; [intros H; by apply elem_of_nil in H|].
        intros [[? _] | [s [_ [Hs [Hne _]]]]]; [contradiction|]. injection Hs as <-. contradiction.
      * apply eqb_neq in Es. rewrite list_elem_of_singleton. split; [intros ->; right; eauto|].
        intros [[? _] | [s [_ [Hs [_ ->]]]]]; [contradiction|]. by injection Hs as <-.
    + split; [intros H; by apply elem_of_nil in H|].
      intros [[? _] | [s [_ [? _]]]]; [contradiction|discriminate].
Qed.

Lemma in_bidding_violations spec v :
  v ∈ bidding_violations lib spec <->
  upper lib (text_of spec "bidding_strategy") ∉ BIDDING_STRATEGIES
  /\ v = BiddingInvalid (upper lib (text_of spec "bidding_strategy")).
Proof.
  unfold bidding_violations. destruct (Text.mem _ _) eqn:E.
  - apply mem_elem_of in E. split; [intros H; by apply elem_of_nil in H|]. by intros [? _].
  - rewrite list_elem_of_singleton. split; [|by intros [_ ->]].
    intros ->. split; [|reflexivity]. intros H. apply mem_elem_of in H. congruence.
Qed.

(** What [asset_violation] reports for the trimmed text [t] at index [j]. *)
Lemma asset_violation_cases a ts j t :
  ts !! j = Some t ->
  (t = "" /\ asset_violation a ts j = Some (AssetEmpty a j))
  \/ (t <> "" /\ asset_limit a < Text.len t
      /\ asset_violation a ts j = Some (AssetTooLong a j (Text.len t)))
  \/ (t <> "" /\ Text.len t <= asset_limit a /\ (exists i, i < j /\ ts !! i = Some t)
      /\ asset_violation a ts j = Some (AssetDuplicate a j t))
  \/ (t <> "" /\ Text.len t <= asset_limit a /\ ~ (exists i, i < j /\ ts !! i = Some t)
      /\ asset_violation a ts j = None).
Proof.
  intros Hj. unfold asset_violation. rewrite Hj.
  destruct (Text.is_empty t) eqn:He.
  { apply is_empty_true in He. by left. }
  apply is_empty_false in He. right.
  destruct (asset_limit a <? Text.len t)%nat eqn:Hl.
  { apply Nat.ltb_lt in Hl. by left. }
  apply Nat.ltb_ge in Hl. right.
  destruct (bool_decide (t ∈ take j ts)) eqn:Hd.
  - apply bool_decide_eq_true in Hd. left. repeat split; try done.
    apply elem_of_take in Hd as [i [Hi Hlt]]. eauto.
  - apply bool_decide_eq_false in Hd. right. repeat split; try done.
    intros [i [Hlt Hi]]. apply Hd, elem_of_take. eauto.
Qed.

Lemma asset_violation_index a ts j v :
  asset_violation a ts j = Some v ->
  exists t, ts !! j = Some t
            /\ (v = AssetEmpty a j \/ v = AssetTooLong a j (Text.len t)
                \/ v = AssetDuplicate a j t).
Proof.
  unfold asset_violation. destruct (ts !! j) as [t|]; [|discriminate].
  intros H. exists t. split; [reflexivity|].
  destruct (Text.is_empty t); [inversion H; auto|].
  destruct (asset_limit a <? Text.len t)%nat; [inversion H; auto|].
  destruct (bool_decide (t ∈ take j ts)); [inversion H; auto|discriminate].
Qed.

Lemma duplicate_in_assets a a' spec j t :
  AssetDuplicate a j t ∈ assets_violations lib a' spec <->
  a' = a
  /\ asset_minimum a <= length (elements (list_field spec (asset_field a)))
  /\ let ts := trimmed lib <$> elements (list_field spec (asset_field a)) in
     ts !! j = Some t /\ t <> "" /\ Text.len t <= asset_limit a
     /\ exists i, i < j /\ ts !! i = Some t.
Proof.
  rewrite in_assets_violations. cbn zeta. split.
  - intros [[_ ?] | [Hmin [j' Hj']]]; [discriminate|].
    destruct (asset_violation_index _ _ _ _ Hj') as [t' [Ht' Hv]].
    destruct Hv as [Hv | [Hv | Hv]]; try discriminate.
    injection Hv as -> -> ->.
    split; [reflexivity|]. split; [exact Hmin|].
    destruct (asset_violation_cases a' _ _ _ Ht')
      as [[_ H] | [[_ [_ H]] | [[? [? [? _]]] | [_ [_ [_ H]]]]]];
      try (rewrite H in Hj'; discriminate). done.
  - intros [-> [Hmin [Hj [Hne [Hlen Hex]]]]]. right. split; [exact Hmin|].
    exists j.
    destruct (asset_violation_cases a _ _ _ Hj)
      as [[? _] | [[_ [? _]] | [[_ [_ [_ H]]] | [_ [_ [H _]]]]]];
      [done|lia|exact H|contradiction].
Qed.

(** A violation about the assets of one kind comes from the rule of that
    kind and from nowhere else. *)
Lemma keyword_violations_not_about i kw a v :
  about a v -> v ∉ keyword_violations lib i kw.
Proof.
  intros Ha Hin. destruct kw; cbn in Hin; repeat case_match; set_solver.
Qed.

Lemma about_in_violations ok a spec v :
  about a v -> (v ∈ violations_by lib ok spec <-> v ∈ assets_violations lib a spec).
Proof.
  intros Ha. unfold violations_by. rewrite !elem_of_app. split.
  - intros [H | [H | [H | [H | [H | [H | H]]]]]].
    + apply in_name_violations in H as [[_ ->] | [_ [_ ->]]]; contradiction.
    + apply in_budget_violations in H as [[_ ->] | [b [_ [_ [_ ->]]]]]; contradiction.
    + apply in_keywords_violations in H as [[_ ->] | [_ [i [kw [_ H]]]]]; [contradiction|].
      by apply keyword_violations_not_about with (a := a) in H.
    + destruct a; [exact H|]. exfalso.
      apply in_assets_violations in H as [[_ ->] | [_ [j Hj]]]; [discriminate|].
      apply asset_violation_index in Hj as [t [_ [-> | [-> | ->]]]]; discriminate.
    + destruct a; [|exact H]. exfalso.
      apply in_assets_violations in H as [[_ ->] | [_ [j Hj]]]; [discriminate|].
      apply asset_violation_index in Hj as [t [_ [-> | [-> | ->]]]]; discriminate.
    + apply in_url_violations in H as [[_ ->] | [s [_ [_ [_ ->]]]]]; contradiction.
    + apply in_bidding_violations in H as [_ ->]. contradiction.
  - intros H. destruct a; tauto.
Qed.

Lemma duplicate_in_violations ok a spec j t :
  AssetDuplicate a j t ∈ violations_by lib ok spec <->
  AssetDuplicate a j t ∈ assets_violations lib a spec.
Proof. by apply about_in_violations. Qed.

Lemma name_in_violations ok spec v :
  v ∈ name_violations spec -> v ∈ violations_by lib ok spec.
Proof. unfold violations_by. rewrite !elem_of_app. tauto. Qed.

Lemma budget_in_violations ok spec v :
  v ∈ budget_violations_by lib ok spec -> v ∈ violations_by lib ok spec.
Proof. unfold violations_by. rewrite !elem_of_app. tauto. Qed.

Lemma keywords_in_violations ok spec v :
  v ∈ keywords_violations lib spec -> v ∈ violations_by lib ok spec.
Proof. unfold violations_by. rewrite !elem_of_app. tauto. Qed.

Lemma assets_in_violations ok a spec v :
  v ∈ assets_violations lib a spec -> v ∈ violations_by lib ok spec.
Proof. unfold violations_by. rewrite !elem_of_app. destruct a; tauto. Qed.

Lemma url_in_violations ok spec v :
  v ∈ url_violations lib spec -> v ∈ violations_by lib ok spec.
Proof. unfold violations_by. rewrite !elem_of_app. tauto. Qed.

Lemma bidding_in_violations ok spec v :
  v ∈ bidding_violations lib spec -> v ∈ violations_by lib ok spec.
Proof. unfold violations_by. rewrite !elem_of_app. tauto. Qed.

End Membership.

(** ** Two violations never have the same message *)

Lemma tcons_inj c s c' s' : tcons c s = tcons c' s' -> c = c' /\ s = s'.
Proof. intros H. by injection H. Qed.

Ltac peel H :=
  repeat (let E := fresh "E" in
          apply tcons_inj in H; destruct H as [E H]; try discriminate E; clear E).

Ltac same_message H :=
  repeat first
    [ discriminate H
    | progress peel H
    | let E := fresh "E" in apply of_nat_then_blank in H as [E H]
    | apply app_inv_tail in H
    | apply of_nat_inj in H ].

Lemma render_inj v v' : render v = render v' -> v = v'.
Proof.
  intros H.
  destruct v as [| n | | shown | | i | i shown | i | a n | a i | a i n | a i t
                 | | scheme | shown]; try destruct a;
    destruct v' as [| n' | | shown' | | i' | i' shown' | i' | a' n' | a' i' | a' i' n' | a' i' t'
                    | | scheme' | shown']; try destruct a';
    cbn [render asset_label asset_limit Text.app] in H; same_message H;
    subst; reflexivity.
Qed.

Lemma message_in v (l : list violation) : render v ∈ (render <$> l) <-> v ∈ l.
Proof.
  split; [|apply list_elem_of_fmap_2].
  intros H. apply list_elem_of_fmap in H as [v' [Hv Hin]].
  apply render_inj in Hv. by subst.
Qed.

Lemma duplicate_message_in ok lib a spec j t :
  render (AssetDuplicate a j t) ∈ (render <$> violations_by lib ok spec) <->
  AssetDuplicate a j t ∈ assets_violations lib a spec.
Proof. by rewrite message_in, duplicate_in_violations. Qed.

(** ** The claims about the validator *)

(** C1, as the code has it: on a campaign whose name, URL and bidding strategy
    are texts or absent, whose URL [urlparse] accepts, whose keywords are
    nothing or a sequence with texts under [text], whose headlines and
    descriptions are sequences or absent, on whose values [str] is defined
    where the validator writes them into a message, and whose budget is not a
    NaN, the validator either returns the campaign or raises
    [CampaignValidationError]; the message is the messages of all the
    violations of the rules joined by "; ", in the order name, budget,
    keywords, headlines, descriptions, final_url, bidding_strategy. *)
Theorem validate_returns_or_aggregates lib spec :
  well_shaped lib spec = true ->
  printable lib spec = true ->
  nan_budget spec = false ->
  (violations lib spec = [] /\ validate_campaign_spec lib spec = Ok spec)
  \/ (violations lib spec <> []
      /\ validate_campaign_spec lib spec
         = Raise (CampaignValidationError (Text.join "; " (render <$>
             (name_violations spec ++ budget_violations lib spec
              ++ keywords_violations lib spec
              ++ assets_violations lib Headline spec
              ++ assets_violations lib Description spec
              ++ url_violations lib spec ++ bidding_violations lib spec)%list)))).
Proof.
  intros H Hp Hnan. rewrite (validate_rules lib spec H Hp), (reported_violations lib spec Hnan).
  change (name_violations spec ++ budget_violations lib spec
          ++ keywords_violations lib spec
          ++ assets_violations lib Headline spec
          ++ assets_violations lib Description spec
          ++ url_violations lib spec ++ bidding_violations lib spec)%list
    with (violations lib spec).
  destruct (violations lib spec); [by left|by right].
Qed.

Lemma validate_returns_or_aggregates_witness :
  (violations example_lib [] = [] /\ validate_campaign_spec example_lib [] = Ok [])
  \/ (violations example_lib [] <> []
      /\ validate_campaign_spec example_lib []
         = Raise (CampaignValidationError
             "campaign_name is required; budget_amount_micros is required; At least 1 keyword is required; At least 3 headlines required (got 0); At least 2 descriptions required (got 0); final_url is required; Invalid bidding_strategy: ")).
Proof. exact (validate_returns_or_aggregates example_lib [] eq_refl eq_refl eq_refl). Defined.

(** C1 as the claim states it fails: a name that is a number makes the
    validator raise [AttributeError], headlines that are [None] make it raise
    [TypeError]; neither is a [CampaignValidationError]. *)
Lemma validate_raises_other_errors :
  validate_campaign_spec example_lib number_name_spec = Raise AttributeError
  /\ validate_campaign_spec example_lib null_headlines_spec = Raise TypeError.
Proof. split; vm_compute; reflexivity. Qed.

(** C3, as the code has it: on a campaign the validator runs through (its
    fields have the types the validator expects, [str] is defined on the
    values it writes into a message, the budget is not a NaN) that breaks a
    rule, the single error of the validator joins a message for every rule
    that is broken.  Rule 1: a blank name, a name over 255
    characters.  Rule 2: a budget that is missing, one that is no number or
    not above zero.  Rule 3: no keywords; for a structured keyword a blank
    text and a match type outside the enum, both when both apply; a plain
    keyword that is blank.  Rules 4 and 5: too few elements; else for each
    element one message, the first that applies of empty, over the limit and
    repeated, so that an element over the limit is not also reported as a
    repeat.  Rule 6: a blank URL, a scheme that is not https.  Rule 7: a
    bidding strategy that is not one of the four once upper-cased. *)
Theorem every_rule_reported lib spec :
  well_shaped lib spec = true ->
  printable lib spec = true ->
  nan_budget spec = false ->
  violations lib spec <> [] ->
  let msgs := render <$> violations lib spec in
  validate_campaign_spec lib spec = Raise (CampaignValidationError (Text.join "; " msgs))
  /\ (Text.strip (text_of spec "campaign_name") = "" -> render NameRequired ∈ msgs)
  /\ (255 < Text.len (Text.strip (text_of spec "campaign_name")) ->
      render (NameTooLong (Text.len (Text.strip (text_of spec "campaign_name")))) ∈ msgs)
  /\ (dict_get spec "budget_amount_micros" VNone = VNone -> render BudgetRequired ∈ msgs)
  /\ (forall budget,
        dict_lookup spec "budget_amount_micros" = Some budget -> budget <> VNone ->
        is_number budget && gt_zero budget = false ->
        render (BudgetNotPositive (display lib budget)) ∈ msgs)
  /\ (truthy (list_field spec "keywords") = false -> render KeywordsRequired ∈ msgs)
  /\ (forall i d,
        truthy (list_field spec "keywords") = true ->
        elements (list_field spec "keywords") !! i = Some (VDict d) ->
        (Text.strip (text_of d "text") = "" -> render (KeywordEmptyText i) ∈ msgs)
        /\ (in_literals (dict_get d "match_type" VNone) MATCH_TYPES = false ->
            render (KeywordBadMatchType i (display lib (dict_get d "match_type" VNone)))
              ∈ msgs))
  /\ (forall i s,
        truthy (list_field spec "keywords") = true ->
        elements (list_field spec "keywords") !! i = Some (VStr s) ->
        Text.strip s = "" -> render (KeywordEmpty i) ∈ msgs)
  /\ (forall a,
        length (elements (list_field spec (asset_field a))) < asset_minimum a ->
        render (TooFew a (length (elements (list_field spec (asset_field a))))) ∈ msgs)
  /\ (forall a j t,
        asset_minimum a <= length (elements (list_field spec (asset_field a))) ->
        (trimmed lib <$> elements (list_field spec (asset_field a))) !! j = Some t ->
        (t = "" -> render (AssetEmpty a j) ∈ msgs)
        /\ (t <> "" -> asset_limit a < Text.len t ->
            render (AssetTooLong a j (Text.len t)) ∈ msgs
            /\ render (AssetDuplicate a j t) ∉ msgs)
        /\ (t <> "" -> Text.len t <= asset_limit a ->
            (exists i, i < j
                       /\ (trimmed lib <$> elements (list_field spec (asset_field a))) !! i
                          = Some t) ->
            render (AssetDuplicate a j t) ∈ msgs))
  /\ (Text.strip (text_of spec "final_url") = "" -> render UrlRequired ∈ msgs)
  /\ (forall scheme,
        Text.strip (text_of spec "final_url") <> "" ->
        urlparse_scheme lib (Text.strip (text_of spec "final_url")) = Ok scheme ->
        scheme <> "https" -> render (UrlNotHttps scheme) ∈ msgs)
  /\ (upper lib (text_of spec "bidding_strategy") ∉ BIDDING_STRATEGIES ->
      render (BiddingInvalid (upper lib (text_of spec "bidding_strategy"))) ∈ msgs).
Proof.
  intros Hs Hp Hnan Hne msgs.
  assert (Hin : forall v, v ∈ violations lib spec -> render v ∈ msgs)
    by (intros v; apply list_elem_of_fmap_2).
  repeat apply conj.
  - rewrite (validate_rules lib spec Hs Hp), (reported_violations lib spec Hnan).
    by destruct (violations lib spec).
  - intros He. apply Hin, name_in_violations, in_name_violations. by left.
  - intros Hl. apply Hin, name_in_violations, in_name_violations. right.
    repeat split; [|exact Hl]. intros He. rewrite He in Hl. cbn in Hl. lia.
  - intros Hb. apply Hin, budget_in_violations, in_budget_violations. by left.
  - intros budget Hb Hnn Hr. apply Hin, budget_in_violations, in_budget_violations.
    right. exists budget. done.
  - intros Ht. apply Hin, keywords_in_violations, in_keywords_violations. by left.
  - intros i d Ht Hi. split.
    + intros He. apply Hin, keywords_in_violations, in_keywords_violations.
      right. split; [done|]. exists i, (VDict d). split; [done|].
      unfold keyword_violations. rewrite He. cbn [Text.is_empty].
      apply elem_of_app. left. by left.
    + intros Hm. apply Hin, keywords_in_violations, in_keywords_violations.
      right. split; [done|]. exists i, (VDict d). split; [done|].
      unfold keyword_violations. rewrite Hm. apply elem_of_app. right. by left.
  - intros i s Ht Hi He. apply Hin, keywords_in_violations, in_keywords_violations.
    right. split; [done|]. exists i, (VStr s). split; [done|].
    unfold keyword_violations. rewrite He. by left.
  - intros a Hlt. apply Hin, (assets_in_violations lib _ a), in_assets_violations.
    left. by split.
  - intros a j t Hmin Hj.
    destruct (asset_violation_cases a _ _ _ Hj)
      as [[He Hv] | [[Hn [Hl Hv]] | [[Hn [Hl [Hex Hv]]] | [Hn [Hl [Hex Hv]]]]]].
    + repeat split; try done. intros _.
      apply Hin, (assets_in_violations lib _ a), in_assets_violations. right. eauto.
    + repeat split; try done; try (intros; lia).
      * apply Hin, (assets_in_violations lib _ a), in_assets_violations.
        right. eauto.
      * intros Hd. apply duplicate_message_in, duplicate_in_assets in Hd.
        cbn zeta in Hd. lia.
    + repeat split; try done; try (intros; lia). intros _ _ _.
      apply duplicate_message_in, duplicate_in_assets. cbn zeta. done.
    + repeat split; try done; try (intros; lia).
  - intros He. apply Hin, url_in_violations, in_url_violations. by left.
  - intros scheme Hn Hu Hsch. apply Hin, url_in_violations, in_url_violations.
    right. exists scheme. done.
  - intros Hb. apply Hin, bidding_in_violations, in_bidding_violations. done.
Qed.

Lemma every_rule_reported_witness :
  validate_campaign_spec example_lib two_faults_spec
  = Raise (CampaignValidationError
      "campaign_name is required; Keyword 0 has empty text; Keyword 0 has invalid match_type: invalid").
Proof.
  assert (Hne : violations example_lib two_faults_spec <> []) by (vm_compute; discriminate).
  exact (proj1 (every_rule_reported example_lib two_faults_spec eq_refl eq_refl eq_refl Hne)).
Defined.

(** C3 as the claim states it fails: of two headlines of 31 characters with
    the same text, the second is reported as too long and not as a repeat. *)
Lemma long_repeat_reported_once :
  validate_campaign_spec example_lib long_twins_spec
  = Raise (CampaignValidationError
      "Headline 0 exceeds 30 chars (got 31); Headline 1 exceeds 30 chars (got 31)").
Proof. vm_compute. reflexivity. Qed.




(** ** The keyword normalizer *)

Lemma match_type_read lib d :
  text_or_absent d "match_type" = true ->
  exists m, as_str (dict_get d "match_type" (VStr "BROAD")) = Ok m
            /\ upper lib m = canonical_match_type lib d.
Proof.
  unfold text_or_absent, dict_get, canonical_match_type.
  destruct (dict_lookup d "match_type") as [[]|]; try discriminate; eauto.
  intros _. exists "BROAD". split; [reflexivity|]. by rewrite upper_ascii.
Qed.

(** When every structured keyword holds a text or nothing under [match_type]
    and [str] is defined on what it holds under [text], the normalizer gives,
    in the order of the input, for a dict the record of its text, trimmed and
    cut at 80 characters, and of its match type upper-cased (["BROAD"] when
    the key is absent), for a text the record of the trimmed text cut at 80
    characters and ["BROAD"], and nothing for any other element. *)
Lemma normalize_keywords_canonical lib keywords :
  forallb match_type_is_text keywords = true ->
  forallb (text_is_printable lib) keywords = true ->
  normalize_keywords lib keywords = Ok (flat_map (canonical lib) keywords).
Proof.
  induction keywords as [|kw keywords IH]; intros H Hp; [reflexivity|].
  cbn [forallb] in H, Hp. apply andb_true_iff in H as [Hkw Hrest].
  apply andb_true_iff in Hp as [Hpk Hprest].
  cbn [normalize_keywords flat_map]. rewrite (IH Hrest Hprest).
  destruct kw; try reflexivity.
  cbn in Hkw, Hpk. destruct (match_type_read lib d Hkw) as [m [Hm Hup]].
  unfold normalize_keyword, canonical. rewrite (str_ok_display _ _ Hpk). cbn [bind].
  rewrite Hm, <- Hup. reflexivity.
Qed.

(** C5: the example of the claim holds, but a structured keyword whose match
    type is [None] is not mapped to a record with ["BROAD"]: where line 95
    makes a text of what [text] holds, line 96 calls [upper] on what
    [match_type] holds, and the normalizer raises [AttributeError]. *)
Lemma normalize_raises_on_null_match_type :
  normalize_keywords example_lib mixed_keywords
    = Ok [keyword_record "running shoes" "BROAD"; keyword_record "tennis" "BROAD"]
  /\ normalize_keywords example_lib null_match_type_keywords = Raise AttributeError.
Proof. split; reflexivity. Qed.
(** ** More about the text built-ins *)

Lemma len_take n s : Text.len (Text.take n s) <= n.
Proof.
  revert s. induction n as [|n IH]; intros [|c s]; cbn; try lia.
  specialize (IH s). lia.
Qed.

Lemma len_lstrip s : Text.len (Text.lstrip s) <= Text.len s.
Proof.
  induction s as [|c s IH]; cbn; [lia|].
  destruct (Text.is_space c); cbn; lia.
Qed.

Lemma len_rstrip s : Text.len (Text.rstrip s) <= Text.len s.
Proof.
  induction s as [|c s IH]; cbn; [lia|].
  destruct (Text.rstrip s); [destruct (Text.is_space c)|]; cbn in *; lia.
Qed.

Lemma len_strip s : Text.len (Text.strip s) <= Text.len s.
Proof.
  unfold Text.strip. pose proof (len_rstrip (Text.lstrip s)). pose proof (len_lstrip s). lia.
Qed.

(** ** What the validator accepts, exactly *)

Section Accepts.

Context (lib : pylib).

Lemma as_str_ok d k s :
  as_str (dict_get d k (VStr "")) = Ok s -> text_or_absent d k = true.
Proof.
  unfold dict_get, text_or_absent.
  destruct (dict_lookup d k) as [[]|]; cbn; congruence.
Qed.

Lemma check_name_ok spec errors errors' :
  check_name spec errors = Ok errors' -> text_or_absent spec "campaign_name" = true.
Proof.
  unfold check_name.
  destruct (as_str (dict_get spec "campaign_name" (VStr ""))) eqn:E; cbn; [|discriminate].
  intros _. exact (as_str_ok _ _ _ E).
Qed.

Lemma py_str_ok v s : py_str lib v = Ok s -> str_ok lib v = true.
Proof. unfold str_ok. by intros ->. Qed.

Lemma check_budget_ok spec errors errors' :
  check_budget lib spec errors = Ok errors' ->
  forallb (str_ok lib) (formatted_budget spec) = true.
Proof.
  unfold check_budget, formatted_budget, dict_get.
  destruct (dict_lookup spec "budget_amount_micros") as [budget|]; [|reflexivity].
  assert (Hneg : negb (is_number budget) || le_zero budget = negb (budget_test budget)).
  { unfold budget_test. by rewrite negb_andb, negb_involutive. }
  destruct budget; try reflexivity; rewrite Hneg;
    destruct (budget_test _); cbn [negb forallb andb]; try reflexivity;
    destruct (py_str lib _) eqn:E; cbn [bind]; try discriminate;
    intros _; by rewrite (py_str_ok _ _ E).
Qed.

Lemma check_keyword_ok i kw errors errors' :
  check_keyword lib i kw errors = Ok errors' ->
  keyword_shaped kw = true /\ forallb (str_ok lib) (formatted_keyword kw) = true.
Proof.
  destruct kw; cbn [check_keyword keyword_shaped formatted_keyword forallb]; try (by split).
  destruct (as_str (dict_get d "text" (VStr ""))) eqn:E; cbn [bind]; [|discriminate].
  rewrite (as_str_ok _ _ _ E).
  destruct (in_literals _ MATCH_TYPES); cbn [negb forallb]; [by split|].
  destruct (py_str lib _) eqn:Es; cbn [bind]; [|discriminate].
  intros _. by rewrite (py_str_ok _ _ Es).
Qed.

Lemma keywords_loop_ok kws : forall i errors errors',
  keywords_loop lib i kws errors = Ok errors' ->
  forallb keyword_shaped kws = true
  /\ forallb (str_ok lib) (flat_map formatted_keyword kws) = true.
Proof.
  induction kws as [|kw kws IH]; intros i errors errors'; cbn [keywords_loop]; [by split|].
  destruct (check_keyword lib i kw errors) eqn:E; cbn [bind]; [|discriminate].
  intros H. destruct (check_keyword_ok _ _ _ _ E) as [Hs Hf].
  destruct (IH _ _ _ H) as [Hss Hfs].
  cbn [forallb flat_map]. by rewrite forallb_app, Hs, Hf, Hss, Hfs.
Qed.

Lemma py_len_ok v n : py_len v = Ok n -> sized v = true.
Proof. destruct v; cbn; congruence. Qed.

Lemma check_keywords_ok spec errors errors' :
  check_keywords lib spec errors = Ok errors' ->
  negb (truthy (list_field spec "keywords"))
  || (sized (list_field spec "keywords")
      && forallb keyword_shaped (elements (list_field spec "keywords"))) = true
  /\ forallb (str_ok lib) (formatted_keywords spec) = true.
Proof.
  unfold check_keywords, formatted_keywords. fold (list_field spec "keywords").
  destruct (truthy (list_field spec "keywords")) eqn:Ht; cbn [negb orb]; [|by split].
  destruct (py_len (list_field spec "keywords")) as [n|] eqn:El; cbn [bind]; [|discriminate].
  pose proof (py_len_ok _ _ El) as Hs. rewrite Hs. cbn [andb].
  destruct (sized_len _ Hs) as [Hl Hi]. rewrite Hi. cbn [bind].
  rewrite Hl in El. injection El as <-.
  rewrite (truthy_sized_nonempty _ Ht Hs). apply keywords_loop_ok.
Qed.

Lemma assets_loop_ok label limit items : forall i seen errors errors',
  assets_loop lib label limit i items seen errors = Ok errors' ->
  forallb (str_ok lib) items = true.
Proof.
  induction items as [|h items IH]; intros i seen errors errors'; cbn [assets_loop forallb];
    [reflexivity|].
  destruct (py_str lib h) eqn:E; cbn [bind]; [|discriminate].
  intros H. rewrite (py_str_ok _ _ E). exact (IH _ _ _ _ H).
Qed.

Lemma check_headlines_ok spec errors errors' :
  check_headlines lib spec errors = Ok errors' ->
  sized (list_field spec (asset_field Headline)) = true
  /\ forallb (str_ok lib) (formatted_assets Headline spec) = true.
Proof.
  unfold check_headlines, formatted_assets.
  change (dict_get spec "headlines" (VList [])) with (list_field spec (asset_field Headline)).
  destruct (py_len _) eqn:El; cbn [bind]; [|discriminate].
  pose proof (py_len_ok _ _ El) as Hs. destruct (sized_len _ Hs) as [Hl Hi].
  rewrite Hl in El. injection El as <-. rewrite Hi. cbn [bind asset_minimum].
  destruct (_ <? 3)%nat; [by split|]. intros H. split; [exact Hs|].
  exact (assets_loop_ok _ _ _ _ _ _ _ H).
Qed.

Lemma check_descriptions_ok spec errors errors' :
  check_descriptions lib spec errors = Ok errors' ->
  sized (list_field spec (asset_field Description)) = true
  /\ forallb (str_ok lib) (formatted_assets Description spec) = true.
Proof.
  unfold check_descriptions, formatted_assets.
  change (dict_get spec "descriptions" (VList []))
    with (list_field spec (asset_field Description)).
  destruct (py_len _) eqn:El; cbn [bind]; [|discriminate].
  pose proof (py_len_ok _ _ El) as Hs. destruct (sized_len _ Hs) as [Hl Hi].
  rewrite Hl in El. injection El as <-. rewrite Hi. cbn [bind asset_minimum].
  destruct (_ <? 2)%nat; [by split|]. intros H. split; [exact Hs|].
  exact (assets_loop_ok _ _ _ _ _ _ _ H).
Qed.

Lemma check_final_url_ok spec errors errors' :
  check_final_url lib spec errors = Ok errors' ->
  text_or_absent spec "final_url" = true /\ url_parses lib spec = true.
Proof.
  unfold check_final_url.
  destruct (as_str (dict_get spec "final_url" (VStr ""))) as [raw|] eqn:E; cbn [bind];
    [|discriminate].
  pose proof (as_str_ok _ _ _ E) as Ht. rewrite (get_text _ _ Ht) in E.
  injection E as <-. intros H. split; [exact Ht|].
  unfold url_parses.
  destruct (Text.is_empty (Text.strip (text_of spec "final_url"))); [reflexivity|].
  cbn. destruct (urlparse_scheme lib _); [reflexivity|discriminate].
Qed.

Lemma check_bidding_ok spec errors errors' :
  check_bidding lib spec errors = Ok errors' ->
  text_or_absent spec "bidding_strategy" = true.
Proof.
  unfold check_bidding.
  destruct (as_str (dict_get spec "bidding_strategy" (VStr ""))) eqn:E; cbn; [|discriminate].
  intros _. exact (as_str_ok _ _ _ E).
Qed.

(** A validator that returns has met the types it expects, and values that
    [str] is defined on. *)
Lemma validate_ok_shaped spec r :
  validate_campaign_spec lib spec = Ok r ->
  well_shaped lib spec = true /\ printable lib spec = true.
Proof.
  unfold validate_campaign_spec.
  destruct (check_name spec []) as [e1|] eqn:E1; cbn [bind]; [|discriminate].
  destruct (check_budget lib spec e1) as [e2|] eqn:E2; cbn [bind]; [|discriminate].
  destruct (check_keywords lib spec e2) as [e3|] eqn:E3; cbn [bind]; [|discriminate].
  destruct (check_headlines lib spec e3) as [e4|] eqn:E4; cbn [bind]; [|discriminate].
  destruct (check_descriptions lib spec e4) as [e5|] eqn:E5; cbn [bind]; [|discriminate].
  destruct (check_final_url lib spec e5) as [e6|] eqn:E6; cbn [bind]; [|discriminate].
  destruct (check_bidding lib spec e6) as [e7|] eqn:E7; cbn [bind]; [|discriminate].
  intros _. unfold well_shaped, printable, formatted.
  destruct (check_keywords_ok _ _ _ E3) as [Hk Fk].
  destruct (check_headlines_ok _ _ _ E4) as [Hh Fh].
  destruct (check_descriptions_ok _ _ _ E5) as [Hd Fd].
  destruct (check_final_url_ok _ _ _ E6) as [Hu Hp].
  rewrite (check_name_ok _ _ _ E1), Hk, Hh, Hd, Hu, Hp, (check_bidding_ok _ _ _ E7).
  rewrite !forallb_app, (check_budget_ok _ _ _ E2), Fk, Fh, Fd. by split.
Qed.

Lemma text_of_nonblank d k :
  Text.is_empty (Text.strip (text_of d k)) = false ->
  exists s, dict_lookup d k = Some (VStr s) /\ text_of d k = s.
Proof.
  unfold text_of. destruct (dict_lookup d k) as [[]|]; cbn; try discriminate. eauto.
Qed.

Lemma in_literals_lookup d k l :
  in_literals (dict_get d k VNone) l = true <->
  exists m, dict_lookup d k = Some (VStr m) /\ m ∈ l.
Proof.
  unfold dict_get. split.
  - destruct (dict_lookup d k) as [[]|]; cbn; try discriminate.
    intros H. apply mem_elem_of in H. eauto.
  - intros [m [-> H]]. cbn. by apply mem_elem_of.
Qed.

Lemma quiet_keyword_iff i kw :
  quiet_keyword kw <->
  keyword_shaped kw = true /\ forallb (str_ok lib) (formatted_keyword kw) = true
  /\ keyword_violations lib i kw = [].
Proof.
  split.
  - destruct kw; try (by split); intros H;
      destruct (valid_keyword_quiet lib i _ H) as [? [? Hf]]; rewrite Hf; by split.
  - intros [Hs [_ Hq]]. destruct kw; cbn in *; try exact I.
    + destruct (Text.is_empty (Text.strip s)) eqn:E; [discriminate|].
      by apply is_empty_false.
    + apply app_eq_nil in Hq as [Ht Hm].
      destruct (Text.is_empty (Text.strip (text_of d "text"))) eqn:E; [discriminate|].
      destruct (in_literals (dict_get d "match_type" VNone) MATCH_TYPES) eqn:Em;
        [|discriminate].
      destruct (text_of_nonblank _ _ E) as [t [Hl Ht']]. rewrite Ht' in E.
      apply is_empty_false in E. apply in_literals_lookup in Em. split; eauto.
Qed.

Lemma concat_imap_nil {A B} (f : nat -> A -> list B) l :
  concat (imap f l) = [] <-> forall i x, l !! i = Some x -> f i x = [].
Proof.
  revert f. induction l as [|y l IH]; intros f; cbn.
  - split; [intros _ i x H; by rewrite lookup_nil in H|reflexivity].
  - split.
    + intros H. apply app_eq_nil in H as [H0 Hr]. intros [|i] x Hi; cbn in Hi.
      * by injection Hi as <-.
      * exact (proj1 (IH _) Hr i x Hi).
    + intros H. rewrite (H 0 y eq_refl). cbn. apply IH. intros i x Hi. exact (H (S i) x Hi).
Qed.

Lemma omap_nil_iff {A B} (f : A -> option B) l :
  omap f l = [] <-> forall x, x ∈ l -> f x = None.
Proof.
  split; [|apply omap_all_none].
  induction l as [|y l IH]; intros H x Hx; [by apply elem_of_nil in Hx|].
  cbn in H. destruct (f y) eqn:E; [discriminate|].
  apply elem_of_cons in Hx as [-> | Hx]; [exact E|by apply IH].
Qed.

Lemma forallb_flat_map {A B} (p : B -> bool) (f : A -> list B) l :
  forallb p (flat_map f l) = forallb (fun x => forallb p (f x)) l.
Proof.
  induction l as [|x l IH]; cbn; [reflexivity|]. by rewrite forallb_app, IH.
Qed.

Lemma assets_quiet_iff a items :
  (forallb (str_ok lib) items = true
   /\ omap (asset_violation a (trimmed lib <$> items))
        (seq 0 (length (trimmed lib <$> items))) = [])
  <-> assets_ok lib a items.
Proof.
  split.
  2:{ intros H. split; [exact (assets_ok_printable _ _ _ H)|by apply assets_ok_quiet]. }
  intros [Hp H]. set (ts := trimmed lib <$> items) in *.
  assert (Hnone : forall j t, ts !! j = Some t -> asset_violation a ts j = None).
  { intros j t Hj. apply (proj1 (omap_nil_iff _ _) H). apply elem_of_seq.
    apply lookup_lt_Some in Hj. lia. }
  assert (Hcase : forall j t, ts !! j = Some t ->
            t <> "" /\ Text.len t <= asset_limit a
            /\ ~ (exists i, i < j /\ ts !! i = Some t)).
  { intros j t Hj. pose proof (Hnone j t Hj) as Hn.
    destruct (asset_violation_cases a ts j t Hj)
      as [[_ Hv] | [[_ [_ Hv]] | [[_ [_ [_ Hv]]] | [? [? [? _]]]]]]; try congruence. done. }
  split; [by apply forallb_Forall|]. split.
  - apply NoDup_alt. intros i j t Hi Hj.
    destruct (Nat.lt_trichotomy i j) as [Hlt | [-> | Hgt]]; [|reflexivity|].
    + destruct (Hcase j t Hj) as [_ [_ Hno]]. exfalso. apply Hno. eauto.
    + destruct (Hcase i t Hi) as [_ [_ Hno]]. exfalso. apply Hno. eauto.
  - apply Forall_lookup. intros j t Hj. destruct (Hcase j t Hj) as [? [? _]]. by split.
Qed.

Lemma name_quiet_iff spec :
  text_or_absent spec "campaign_name" = true /\ name_violations spec = []
  <-> exists name, dict_lookup spec "campaign_name" = Some (VStr name)
        /\ Text.strip name <> "" /\ Text.len (Text.strip name) <= 255.
Proof.
  unfold name_violations. split.
  - intros [_ H].
    destruct (Text.is_empty (Text.strip (text_of spec "campaign_name"))) eqn:E; [discriminate|].
    destruct (255 <? Text.len (Text.strip (text_of spec "campaign_name")))%nat eqn:El;
      [discriminate|].
    destruct (text_of_nonblank _ _ E) as [name [Hl Ht]]. rewrite Ht in E, El.
    exists name. apply is_empty_false in E. apply Nat.ltb_ge in El. done.
  - intros [name [Hl [Hne Hlen]]].
    rewrite (text_or_absent_lookup _ _ _ Hl), (text_of_lookup _ _ _ Hl).
    apply is_empty_false in Hne. apply Nat.ltb_ge in Hlen. by rewrite Hne, Hlen.
Qed.

Lemma budget_quiet_iff spec :
  (forallb (str_ok lib) (formatted_budget spec) = true
   /\ budget_violations_by lib budget_test spec = [])
  <-> exists budget, dict_lookup spec "budget_amount_micros" = Some budget
        /\ is_number budget = true /\ (gt_zero budget = true \/ is_nan budget = true).
Proof.
  unfold budget_violations_by, formatted_budget. split.
  - destruct (dict_lookup spec "budget_amount_micros") as [b|]; [|intros [_ ?]; discriminate].
    intros [_ H]. exists b. split; [reflexivity|].
    assert (Ht : budget_test b = true).
    { destruct b; try discriminate; by destruct (budget_test _). }
    rewrite budget_test_rule in Ht. unfold budget_rule in Ht.
    apply orb_true_iff in Ht as [Ht | Ht].
    + apply andb_true_iff in Ht as [? ?]. split; [done|by left].
    + split; [by destruct b|by right].
  - intros [b [-> [Hn Hl]]].
    assert (Ht : budget_test b = true).
    { rewrite budget_test_rule. unfold budget_rule. rewrite Hn. cbn [andb].
      apply orb_true_iff. exact Hl. }
    rewrite Ht. by destruct b.
Qed.

Lemma keywords_quiet_iff spec :
  (negb (truthy (list_field spec "keywords"))
   || (sized (list_field spec "keywords")
       && forallb keyword_shaped (elements (list_field spec "keywords"))) = true
   /\ forallb (str_ok lib) (formatted_keywords spec) = true
   /\ keywords_violations lib spec = [])
  <-> exists kv, dict_lookup spec "keywords" = Some kv /\ sized kv = true
        /\ elements kv <> [] /\ Forall quiet_keyword (elements kv).
Proof.
  unfold keywords_violations, formatted_keywords, list_field, dict_get. split.
  - destruct (dict_lookup spec "keywords") as [kv|]; [|intros [_ [_ H]]; discriminate].
    destruct (truthy kv) eqn:Ht; [|intros [_ [_ H]]; discriminate].
    cbn [negb orb]. rewrite andb_true_iff. intros [[Hs Hsh] [Hf Hq]]. exists kv.
    split; [reflexivity|]. split; [exact Hs|]. split.
    + pose proof (truthy_sized_nonempty _ Ht Hs) as Hn.
      intros He. rewrite He in Hn. discriminate.
    + apply Forall_lookup. intros i kw Hi. apply (quiet_keyword_iff i).
      assert (Hin : In kw (elements kv)) by (apply list_elem_of_In, list_elem_of_lookup; eauto).
      rewrite forallb_flat_map in Hf. rewrite forallb_forall in Hsh, Hf.
      split; [by apply Hsh|]. split; [by apply Hf|].
      exact (proj1 (concat_imap_nil _ _) Hq i kw Hi).
  - intros [kv [-> [Hs [Hne Hq]]]].
    assert (Ht : truthy kv = true).
    { unfold elements in Hne. destruct kv; try discriminate; cbn in *.
      - destruct s; [contradiction|reflexivity].
      - destruct l; [contradiction|reflexivity].
      - destruct d; [contradiction|reflexivity]. }
    rewrite Ht, Hs. cbn [negb orb andb].
    assert (Hall : forall i kw, elements kv !! i = Some kw ->
              keyword_shaped kw = true /\ forallb (str_ok lib) (formatted_keyword kw) = true
              /\ keyword_violations lib i kw = []).
    { intros i kw Hi. apply quiet_keyword_iff. exact (proj1 (Forall_lookup _ _) Hq i kw Hi). }
    split; [|split].
    + apply forallb_forall. intros kw Hin.
      apply list_elem_of_In, list_elem_of_lookup in Hin as [i Hi].
      exact (proj1 (Hall i kw Hi)).
    + rewrite forallb_flat_map. apply forallb_forall. intros kw Hin.
      apply list_elem_of_In, list_elem_of_lookup in Hin as [i Hi].
      exact (proj1 (proj2 (Hall i kw Hi))).
    + apply concat_imap_nil. intros i kw Hi. exact (proj2 (proj2 (Hall i kw Hi))).
Qed.

Lemma assets_field_quiet_iff a spec :
  (sized (list_field spec (asset_field a)) = true
   /\ forallb (str_ok lib) (formatted_assets a spec) = true
   /\ assets_violations lib a spec = [])
  <-> exists hv, dict_lookup spec (asset_field a) = Some hv /\ sized hv = true
        /\ asset_minimum a <= length (elements hv) /\ assets_ok lib a (elements hv).
Proof.
  unfold assets_violations, formatted_assets, list_field, dict_get. split.
  - destruct (dict_lookup spec (asset_field a)) as [hv|].
    + intros [Hs [Hf H]]. exists hv. split; [reflexivity|]. split; [exact Hs|].
      destruct (length (elements hv) <? asset_minimum a)%nat eqn:El; [discriminate|].
      apply Nat.ltb_ge in El. split; [exact El|]. by apply assets_quiet_iff.
    + intros [_ [_ H]]. destruct a; discriminate.
  - intros [hv [-> [Hs [Hmin Hok]]]]. split; [exact Hs|].
    apply Nat.ltb_ge in Hmin. rewrite Hmin. by apply assets_quiet_iff.
Qed.

Lemma url_quiet_iff spec :
  (text_or_absent spec "final_url" = true /\ url_parses lib spec = true
   /\ url_violations lib spec = [])
  <-> exists url, dict_lookup spec "final_url" = Some (VStr url)
        /\ Text.strip url <> "" /\ urlparse_scheme lib (Text.strip url) = Ok "https".
Proof.
  unfold url_violations, url_parses. split.
  - intros [_ [Hp H]].
    destruct (Text.is_empty (Text.strip (text_of spec "final_url"))) eqn:E; [discriminate|].
    destruct (text_of_nonblank _ _ E) as [url [Hl Ht]]. rewrite Ht in *.
    exists url. split; [exact Hl|]. apply is_empty_false in E. split; [exact E|].
    cbn in Hp. destruct (urlparse_scheme lib (Text.strip url)) as [scheme|]; [|discriminate].
    destruct (Text.eqb scheme "https") eqn:Es; [|discriminate].
    apply eqb_eq in Es. by subst.
  - intros [url [Hl [Hne Hs]]].
    rewrite (text_or_absent_lookup _ _ _ Hl), (text_of_lookup _ _ _ Hl).
    apply is_empty_false in Hne. by rewrite Hne, Hs.
Qed.

Lemma bidding_quiet_iff spec :
  (text_or_absent spec "bidding_strategy" = true /\ bidding_violations lib spec = [])
  <-> exists bid, dict_lookup spec "bidding_strategy" = Some (VStr bid)
        /\ upper lib bid ∈ BIDDING_STRATEGIES.
Proof.
  unfold bidding_violations. split.
  - intros [Ht H].
    destruct (Text.mem (upper lib (text_of spec "bidding_strategy")) BIDDING_STRATEGIES)
      eqn:E; [|discriminate].
    apply mem_elem_of in E.
    unfold text_of, text_or_absent in *.
    destruct (dict_lookup spec "bidding_strategy") as [[]|]; try discriminate; try eauto.
    exfalso. rewrite upper_ascii in E by reflexivity. cbn in E.
    unfold BIDDING_STRATEGIES in E. set_solver.
  - intros [bid [Hl Hm]].
    rewrite (text_or_absent_lookup _ _ _ Hl), (text_of_lookup _ _ _ Hl).
    apply mem_elem_of in Hm. by rewrite Hm.
Qed.

Lemma quiet_iff_accepted spec :
  (well_shaped lib spec = true /\ printable lib spec = true /\ reported lib spec = [])
  <-> accepted lib spec.
Proof.
  unfold accepted.
  rewrite <- name_quiet_iff, <- budget_quiet_iff, <- keywords_quiet_iff,
    <- (assets_field_quiet_iff Headline), <- (assets_field_quiet_iff Description),
    <- url_quiet_iff, <- bidding_quiet_iff.
  unfold well_shaped, printable, formatted, reported, violations_by.
  rewrite !andb_true_iff, !forallb_app, !andb_true_iff.
  split.
  - intros [[[[[[[Hn Hk] Hh] Hd] Hu] Hp] Hb] [[Fb [Fk [Fh Fd]]] Hv]].
    repeat (apply app_eq_nil in Hv as [? Hv]). done.
  - intros [[Hn Hvn] [[Fb Hvb] [[Hk [Fk Hvk]] [[Hh [Fh Hvh]] [[Hd [Fd Hvd]]
            [[Hu [Hp Hvu]] [Hb Hvb']]]]]]].
    rewrite Hvn, Hvb, Hvk, Hvh, Hvd, Hvu, Hvb'. done.
Qed.

End Accepts.

(** X1: the validator returns exactly on the accepted campaigns, and what it
    returns is the campaign it was given: the name is a text that is not blank
    and within 255 characters once trimmed, the budget is a number above zero
    or a NaN, the keywords are a sequence that is not empty and holds only
    valid keywords (or elements that are neither dicts nor texts), there are
    at least 3 headlines and 2 descriptions, which [str] makes texts that are
    mutually different, not empty and within their limits once trimmed, the
    URL parses with the scheme https and the bidding strategy upper-cases to
    one of the four. *)
Theorem validate_accepts_exactly lib spec r :
  validate_campaign_spec lib spec = Ok r <-> r = spec /\ accepted lib spec.
Proof.
  rewrite <- quiet_iff_accepted. split.
  - intros H. destruct (validate_ok_shaped lib spec r H) as [Hs Hp].
    rewrite (validate_rules lib spec Hs Hp) in H.
    destruct (reported lib spec); [|discriminate]. by injection H as <-.
  - intros [-> [Hs [Hp Hv]]]. rewrite (validate_rules lib spec Hs Hp). by rewrite Hv.
Qed.

(** ** What the validator raises *)

Section Raises.

Context (lib : pylib).

Lemma as_str_raises v e : as_str v = Raise e -> e = AttributeError.
Proof. destruct v; cbn; congruence. Qed.

Lemma py_len_raises v e : py_len v = Raise e -> e = TypeError.
Proof. destruct v; cbn; congruence. Qed.

Lemma py_iter_raises v e : py_iter v = Raise e -> e = TypeError.
Proof. destruct v; cbn; congruence. Qed.

Lemma check_budget_raises spec errors e :
  check_budget lib spec errors = Raise e ->
  exists v, v ∈ formatted_budget spec /\ py_str lib v = Raise e.
Proof.
  unfold check_budget, formatted_budget, dict_get.
  destruct (dict_lookup spec "budget_amount_micros") as [budget|]; [|discriminate].
  assert (Hneg : negb (is_number budget) || le_zero budget = negb (budget_test budget)).
  { unfold budget_test. by rewrite negb_andb, negb_involutive. }
  destruct budget; try discriminate; rewrite Hneg;
    destruct (budget_test _); cbn [negb]; try discriminate;
    destruct (py_str lib _) eqn:E; cbn [bind]; try discriminate;
    intros H; injection H as <-; eexists; (split; [by left|exact E]).
Qed.

Lemma check_keyword_raises i kw errors e :
  check_keyword lib i kw errors = Raise e ->
  e = AttributeError \/ exists v, v ∈ formatted_keyword kw /\ py_str lib v = Raise e.
Proof.
  destruct kw; cbn [check_keyword formatted_keyword]; try discriminate.
  destruct (as_str (dict_get d "text" (VStr ""))) eqn:E; cbn [bind].
  2:{ intros H. injection H as <-. left. exact (as_str_raises _ _ E). }
  destruct (in_literals _ MATCH_TYPES); cbn [negb]; [discriminate|].
  destruct (py_str lib _) eqn:Es; cbn [bind]; [discriminate|].
  intros H. injection H as <-. right. eexists. split; [by left|exact Es].
Qed.

Lemma keywords_loop_raises kws : forall i errors e,
  keywords_loop lib i kws errors = Raise e ->
  e = AttributeError
  \/ exists v, v ∈ flat_map formatted_keyword kws /\ py_str lib v = Raise e.
Proof.
  induction kws as [|kw kws IH]; intros i errors e; cbn [keywords_loop flat_map];
    [discriminate|].
  destruct (check_keyword lib i kw errors) eqn:E; cbn [bind].
  - intros H. destruct (IH _ _ _ H) as [-> | [v [Hv Hs]]]; [by left|].
    right. exists v. split; [|exact Hs]. apply elem_of_app. by right.
  - intros H. injection H as <-.
    destruct (check_keyword_raises _ _ _ _ E) as [-> | [v [Hv Hs]]]; [by left|].
    right. exists v. split; [|exact Hs]. apply elem_of_app. by left.
Qed.

Lemma check_keywords_raises spec errors e :
  check_keywords lib spec errors = Raise e ->
  e = AttributeError \/ e = TypeError
  \/ exists v, v ∈ formatted_keywords spec /\ py_str lib v = Raise e.
Proof.
  unfold check_keywords, formatted_keywords. fold (list_field spec "keywords").
  destruct (truthy (list_field spec "keywords")) eqn:Ht; cbn [negb]; [|discriminate].
  destruct (py_len _) eqn:El; cbn [bind].
  2:{ intros H. injection H as <-. right; left. exact (py_len_raises _ _ El). }
  destruct (_ =? 0)%nat; [discriminate|].
  unfold elements. destruct (py_iter _) eqn:Ei; cbn [bind].
  2:{ intros H. injection H as <-. right; left. exact (py_iter_raises _ _ Ei). }
  intros H. destruct (keywords_loop_raises _ _ _ _ H) as [-> | Hv]; [by left|by right; right].
Qed.

Lemma assets_loop_raises label limit items : forall i seen errors e,
  assets_loop lib label limit i items seen errors = Raise e ->
  exists v, v ∈ items /\ py_str lib v = Raise e.
Proof.
  induction items as [|h items IH]; intros i seen errors e; cbn [assets_loop]; [discriminate|].
  destruct (py_str lib h) eqn:E; cbn [bind].
  - intros H. destruct (IH _ _ _ _ H) as [v [Hv Hs]]. exists v. split; [by right|exact Hs].
  - intros H. injection H as <-. exists h. split; [by left|exact E].
Qed.

Lemma check_headlines_raises spec errors e :
  check_headlines lib spec errors = Raise e ->
  e = TypeError \/ exists v, v ∈ formatted_assets Headline spec /\ py_str lib v = Raise e.
Proof.
  unfold check_headlines, formatted_assets.
  change (dict_get spec "headlines" (VList [])) with (list_field spec (asset_field Headline)).
  destruct (py_len _) eqn:El; cbn [bind].
  2:{ intros H. injection H as <-. left. exact (py_len_raises _ _ El). }
  pose proof (py_len_ok _ _ El) as Hs. destruct (sized_len _ Hs) as [Hl Hi].
  rewrite Hl in El. injection El as <-. rewrite Hi. cbn [bind asset_minimum].
  destruct (_ <? 3)%nat; [discriminate|]. intros H. right.
  exact (assets_loop_raises _ _ _ _ _ _ _ H).
Qed.

Lemma check_descriptions_raises spec errors e :
  check_descriptions lib spec errors = Raise e ->
  e = TypeError \/ exists v, v ∈ formatted_assets Description spec /\ py_str lib v = Raise e.
Proof.
  unfold check_descriptions, formatted_assets.
  change (dict_get spec "descriptions" (VList []))
    with (list_field spec (asset_field Description)).
  destruct (py_len _) eqn:El; cbn [bind].
  2:{ intros H. injection H as <-. left. exact (py_len_raises _ _ El). }
  pose proof (py_len_ok _ _ El) as Hs. destruct (sized_len _ Hs) as [Hl Hi].
  rewrite Hl in El. injection El as <-. rewrite Hi. cbn [bind asset_minimum].
  destruct (_ <? 2)%nat; [discriminate|]. intros H. right.
  exact (assets_loop_raises _ _ _ _ _ _ _ H).
Qed.

Lemma check_final_url_raises spec errors e :
  check_final_url lib spec errors = Raise e ->
  e = AttributeError
  \/ urlparse_scheme lib (Text.strip (text_of spec "final_url")) = Raise e.
Proof.
  unfold check_final_url.
  destruct (as_str (dict_get spec "final_url" (VStr ""))) as [raw|] eqn:E; cbn [bind].
  2:{ intros H. injection H as <-. left. exact (as_str_raises _ _ E). }
  pose proof (as_str_ok _ _ _ E) as Ht. rewrite (get_text _ _ Ht) in E. injection E as <-.
  destruct (Text.is_empty _); [discriminate|].
  destruct (urlparse_scheme lib _) eqn:Eu; cbn [bind]; [by destruct (negb _)|].
  intros H. injection H as <-. by right.
Qed.

Lemma check_bidding_raises spec errors e :
  check_bidding lib spec errors = Raise e -> e = AttributeError.
Proof.
  unfold check_bidding.
  destruct (as_str (dict_get spec "bidding_strategy" (VStr ""))) eqn:E; cbn [bind].
  - by destruct (negb _).
  - intros H. injection H as <-. exact (as_str_raises _ _ E).
Qed.

Lemma check_name_raises spec errors e :
  check_name spec errors = Raise e -> e = AttributeError.
Proof.
  unfold check_name.
  destruct (as_str (dict_get spec "campaign_name" (VStr ""))) eqn:E; cbn [bind].
  - repeat case_if; discriminate.
  - intros H. injection H as <-. exact (as_str_raises _ _ E).
Qed.

Lemma validate_raises spec e :
  validate_campaign_spec lib spec = Raise e ->
  e = AttributeError \/ e = TypeError
  \/ (exists msg, e = CampaignValidationError msg)
  \/ urlparse_scheme lib (Text.strip (text_of spec "final_url")) = Raise e
  \/ (exists v, v ∈ formatted spec /\ py_str lib v = Raise e).
Proof.
  assert (Hf : forall l : list pyval, (exists v, v ∈ l /\ py_str lib v = Raise e) ->
            (forall v, v ∈ l -> v ∈ formatted spec) ->
            exists v, v ∈ formatted spec /\ py_str lib v = Raise e).
  { intros l [v [Hv Hs]] Hl. exists v. split; [by apply Hl|exact Hs]. }
  unfold validate_campaign_spec.
  destruct (check_name spec []) as [e1|] eqn:E1; cbn [bind].
  2:{ intros H. injection H as <-. left. exact (check_name_raises _ _ _ E1). }
  destruct (check_budget lib spec e1) as [e2|] eqn:E2; cbn [bind].
  2:{ intros H. injection H as <-. do 4 right.
      apply (Hf _ (check_budget_raises _ _ _ E2)). unfold formatted. set_solver. }
  destruct (check_keywords lib spec e2) as [e3|] eqn:E3; cbn [bind].
  2:{ intros H. injection H as <-.
      destruct (check_keywords_raises _ _ _ E3) as [-> | [-> | Hv]]; [by left|by right; left|].
      do 4 right. apply (Hf _ Hv). unfold formatted. set_solver. }
  destruct (check_headlines lib spec e3) as [e4|] eqn:E4; cbn [bind].
  2:{ intros H. injection H as <-.
      destruct (check_headlines_raises _ _ _ E4) as [-> | Hv]; [by right; left|].
      do 4 right. apply (Hf _ Hv). unfold formatted. set_solver. }
  destruct (check_descriptions lib spec e4) as [e5|] eqn:E5; cbn [bind].
  2:{ intros H. injection H as <-.
      destruct (check_descriptions_raises _ _ _ E5) as [-> | Hv]; [by right; left|].
      do 4 right. apply (Hf _ Hv). unfold formatted. set_solver. }
  destruct (check_final_url lib spec e5) as [e6|] eqn:E6; cbn [bind].
  2:{ intros H. injection H as <-.
      destruct (check_final_url_raises _ _ _ E6) as [-> | Hu]; [by left|].
      by do 3 right; left. }
  destruct (check_bidding lib spec e6) as [e7|] eqn:E7; cbn [bind].
  2:{ intros H. injection H as <-. left. exact (check_bidding_raises _ _ _ E7). }
  destruct e7; [discriminate|]. intros H. injection H as <-. right; right; left. eauto.
Qed.

End Raises.

(** X2: what the validator raises is [AttributeError] (a method of [str]
    called on another value), [TypeError] ([len] of a value without a length),
    its own [CampaignValidationError], the exception [urlparse] raises on the
    trimmed URL of the campaign, or the exception [str] raises on one of the
    values the validator writes into a message. *)
Theorem validate_raises_only lib spec e :
  validate_campaign_spec lib spec = Raise e ->
  e = AttributeError \/ e = TypeError
  \/ (exists msg, e = CampaignValidationError msg)
  \/ urlparse_scheme lib (Text.strip (text_of spec "final_url")) = Raise e
  \/ (exists v, v ∈ formatted spec /\ py_str lib v = Raise e).
Proof. apply validate_raises. Qed.

Lemma validate_raises_only_witness :
  AttributeError = AttributeError \/ AttributeError = TypeError
  \/ (exists msg, AttributeError = CampaignValidationError msg)
  \/ urlparse_scheme example_lib (Text.strip (text_of number_name_spec "final_url"))
     = Raise AttributeError
  \/ (exists v, v ∈ formatted number_name_spec /\ py_str example_lib v = Raise AttributeError).
Proof. exact (validate_raises_only example_lib number_name_spec AttributeError eq_refl). Defined.

Ltac not_about H Hv :=
  first
    [ apply in_name_violations in H as [[_ ->] | [_ [_ ->]]]; exact Hv
    | apply in_budget_violations in H as [[_ ->] | [? [_ [_ [_ ->]]]]]; exact Hv
    | apply in_keywords_violations in H as [[_ ->] | [_ [? [? [_ H]]]]];
      [exact Hv|exact (keyword_violations_not_about _ _ _ _ _ Hv H)]
    | apply in_url_violations in H as [[_ ->] | [? [_ [_ [_ ->]]]]]; exact Hv
    | apply in_bidding_violations in H as [_ ->]; exact Hv ].

(** The violations about the assets of one kind are not among those of the
    other fields. *)
Lemma about_not_elsewhere lib ok a spec v :
  about a v ->
  v ∉ (violations_before lib ok a spec ++ violations_after lib a spec)%list.
Proof.
  intros Hv Hin.
  assert (Hother : forall a', a' <> a -> v ∉ assets_violations lib a' spec).
  { intros a' Hne H. apply in_assets_violations in H as [[_ ->] | [_ [j Hj]]];
      [cbn in Hv; congruence|].
    apply asset_violation_index in Hj as [t [_ [-> | [-> | ->]]]]; cbn in Hv; congruence. }
  unfold violations_before, violations_after in Hin.
  destruct a; rewrite !elem_of_app in Hin.
  - destruct Hin as [[H | [H | H]] | [H | [H | H]]]; try (by not_about H Hv).
    by apply (Hother Description) in H.
  - destruct Hin as [[H | [H | [H | H]]] | [H | H]]; try (by not_about H Hv).
    by apply (Hother Headline) in H.
Qed.

(** X3: when a campaign the validator runs through has fewer headlines than
    3, or fewer descriptions than 2, the validator fails; its error joins the
    messages of the fields before, the count line of that field and the
    messages of the fields after, and none of these other messages is a
    message about that field: no element of a list that is too short is
    looked at. *)
Theorem too_few_assets_reported lib spec a :
  well_shaped lib spec = true ->
  printable lib spec = true ->
  length (elements (list_field spec (asset_field a))) < asset_minimum a ->
  validate_campaign_spec lib spec
    = Raise (CampaignValidationError (Text.join "; " (render <$>
        (violations_before lib budget_test a spec
         ++ [TooFew a (length (elements (list_field spec (asset_field a))))]
         ++ violations_after lib a spec)%list)))
  /\ forall v, about a v ->
       render v ∉ (render <$> (violations_before lib budget_test a spec
                               ++ violations_after lib a spec)%list).
Proof.
  intros Hs Hp Hlt.
  assert (Ha : assets_violations lib a spec
               = [TooFew a (length (elements (list_field spec (asset_field a))))]).
  { unfold assets_violations. apply Nat.ltb_lt in Hlt. by rewrite Hlt. }
  assert (Hr : reported lib spec
               = (violations_before lib budget_test a spec
                  ++ assets_violations lib a spec ++ violations_after lib a spec)%list).
  { unfold reported, violations_by, violations_before, violations_after.
    destruct a; by rewrite <- ?app_assoc. }
  split.
  - rewrite (validate_rules lib spec Hs Hp), Hr, Ha.
    by destruct (violations_before lib budget_test a spec).
  - intros v Hv Hin. apply message_in in Hin. by apply about_not_elsewhere in Hin.
Qed.

Lemma too_few_assets_reported_witness :
  validate_campaign_spec example_lib one_headline_spec
    = Raise (CampaignValidationError "At least 3 headlines required (got 1)").
Proof.
  exact (proj1 (too_few_assets_reported example_lib one_headline_spec Headline eq_refl eq_refl
                  ltac:(vm_compute; lia))).
Defined.

(** X4: the validator reads the seven fields of [FIELDS] and nothing else.
    On two campaigns that agree on them it raises the same exception, or
    returns on both, each time the campaign it was given. *)
Theorem validate_reads_seven_fields lib spec1 spec2 :
  (forall k, k ∈ FIELDS -> dict_lookup spec1 k = dict_lookup spec2 k) ->
  validate_campaign_spec lib spec2
  = match validate_campaign_spec lib spec1 with
    | Ok _ => Ok spec2
    | Raise e => Raise e
    end.
Proof.
  intros H.
  assert (Hget : forall k d, k ∈ FIELDS -> dict_get spec2 k d = dict_get spec1 k d).
  { intros k d Hk. unfold dict_get. by rewrite (H k Hk). }
  assert (H1 : forall e, check_name spec2 e = check_name spec1 e).
  { intros e. unfold check_name. rewrite Hget by (unfold FIELDS; set_solver). reflexivity. }
  assert (H2 : forall e, check_budget lib spec2 e = check_budget lib spec1 e).
  { intros e. unfold check_budget. rewrite Hget by (unfold FIELDS; set_solver). reflexivity. }
  assert (H3 : forall e, check_keywords lib spec2 e = check_keywords lib spec1 e).
  { intros e. unfold check_keywords. rewrite Hget by (unfold FIELDS; set_solver).
    reflexivity. }
  assert (H4 : forall e, check_headlines lib spec2 e = check_headlines lib spec1 e).
  { intros e. unfold check_headlines. rewrite Hget by (unfold FIELDS; set_solver).
    reflexivity. }
  assert (H5 : forall e, check_descriptions lib spec2 e = check_descriptions lib spec1 e).
  { intros e. unfold check_descriptions. rewrite Hget by (unfold FIELDS; set_solver).
    reflexivity. }
  assert (H6 : forall e, check_final_url lib spec2 e = check_final_url lib spec1 e).
  { intros e. unfold check_final_url. rewrite Hget by (unfold FIELDS; set_solver).
    reflexivity. }
  assert (H7 : forall e, check_bidding lib spec2 e = check_bidding lib spec1 e).
  { intros e. unfold check_bidding. rewrite Hget by (unfold FIELDS; set_solver).
    reflexivity. }
  unfold validate_campaign_spec. rewrite H1.
  destruct (check_name spec1 []) as [e1|]; cbn [bind]; [|reflexivity].
  rewrite H2. destruct (check_budget lib spec1 e1) as [e2|]; cbn [bind]; [|reflexivity].
  rewrite H3. destruct (check_keywords lib spec1 e2) as [e3|]; cbn [bind]; [|reflexivity].
  rewrite H4. destruct (check_headlines lib spec1 e3) as [e4|]; cbn [bind]; [|reflexivity].
  rewrite H5. destruct (check_descriptions lib spec1 e4) as [e5|]; cbn [bind]; [|reflexivity].
  rewrite H6. destruct (check_final_url lib spec1 e5) as [e6|]; cbn [bind]; [|reflexivity].
  rewrite H7. destruct (check_bidding lib spec1 e6) as [e7|]; cbn [bind]; [|reflexivity].
  destruct e7; reflexivity.
Qed.

Lemma validate_reads_seven_fields_witness :
  validate_campaign_spec example_lib keyed_spec = Ok keyed_spec.
Proof.
  refine (validate_reads_seven_fields example_lib good_spec keyed_spec _).
  intros k Hk. unfold FIELDS in Hk.
  repeat (apply elem_of_cons in Hk as [-> | Hk]; [reflexivity|]).
  by apply elem_of_nil in Hk.
Defined.

(** ** The normalizer and the two flows that call it *)

Lemma normalize_keyword_shape lib kw out :
  normalize_keyword lib kw = Ok out -> length out <= 1 /\ Forall (normal_record lib) out.
Proof.
  assert (Hrec : forall t m, upper lib m = m ->
            Forall (normal_record lib) [keyword_record (Text.take 80 t) m]).
  { intros t m Hm. repeat constructor. exists (Text.take 80 t), m.
    split; [reflexivity|]. split; [apply len_take|exact Hm]. }
  destruct kw; cbn [normalize_keyword].
  1-4, 6: intros H; injection H as <-; split; [cbn; lia|constructor].
  - intros H. injection H as <-. split; [cbn; lia|]. apply Hrec. by rewrite upper_ascii.
  - destruct (py_str lib _) as [s|]; cbn [bind]; [|discriminate].
    destruct (as_str (dict_get d "match_type" (VStr "BROAD"))) as [m|]; cbn [bind];
      [|discriminate].
    intros H. injection H as <-. split; [cbn; lia|]. apply Hrec, upper_idem.
Qed.

Lemma normalize_keywords_shape lib kws : forall out,
  normalize_keywords lib kws = Ok out ->
  length out <= length kws /\ Forall (normal_record lib) out.
Proof.
  induction kws as [|kw kws IH]; intros out; cbn [normalize_keywords].
  - intros H. injection H as <-. split; [cbn; lia|constructor].
  - destruct (normalize_keyword lib kw) as [o|] eqn:E; cbn [bind]; [|discriminate].
    destruct (normalize_keywords lib kws) as [os|]; cbn [bind]; [|discriminate].
    intros H. injection H as <-.
    destruct (normalize_keyword_shape _ _ _ E) as [Hl Hf].
    destruct (IH os eq_refl) as [Hls Hfs].
    rewrite length_app. cbn [length]. split; [lia|]. by apply Forall_app.
Qed.

(** X5: what the normalizer returns is never longer than its input and holds
    only records of a text of at most 80 characters and a match type in upper
    case. *)
Theorem normalized_keywords_shape lib keywords out :
  normalize_keywords lib keywords = Ok out ->
  length out <= length keywords
  /\ Forall (fun kw => exists text match_type,
                kw = VDict [("text", VStr text); ("match_type", VStr match_type)]
                /\ Text.len text <= 80 /\ upper lib match_type = match_type) out.
Proof. apply normalize_keywords_shape. Qed.

Lemma normalized_keywords_shape_witness :
  2 <= 2
  /\ Forall (fun kw => exists text match_type,
                kw = VDict [("text", VStr text); ("match_type", VStr match_type)]
                /\ Text.len text <= 80 /\ upper example_lib match_type = match_type)
       [keyword_record "running shoes" "BROAD"; keyword_record "tennis" "BROAD"].
Proof. exact (normalized_keywords_shape example_lib mixed_keywords _ eq_refl). Defined.

(** X6: when [str] is defined on what the structured keywords hold under
    [text], the normalizer raises [AttributeError], and returns nothing, as
    soon as one structured keyword holds under [match_type] a value that is
    no text, wherever it stands in the list. *)
Theorem normalize_raises_on_non_text lib keywords :
  forallb (text_is_printable lib) keywords = true ->
  forallb match_type_is_text keywords = false ->
  normalize_keywords lib keywords = Raise AttributeError.
Proof.
  induction keywords as [|kw keywords IH]; cbn [forallb normalize_keywords]; [discriminate|].
  intros Hp. apply andb_true_iff in Hp as [Hpk Hps].
  destruct (match_type_is_text kw) eqn:E; cbn [andb].
  - intros H. rewrite (IH Hps H).
    destruct kw; try reflexivity.
    cbn in E, Hpk. destruct (match_type_read lib d E) as [m [Hm _]].
    unfold normalize_keyword. rewrite (str_ok_display _ _ Hpk). cbn [bind].
    rewrite Hm. reflexivity.
  - intros _. destruct kw; try discriminate.
    cbn in E, Hpk. unfold text_or_absent in E. unfold normalize_keyword.
    rewrite (str_ok_display _ _ Hpk). cbn [bind]. unfold dict_get.
    destruct (dict_lookup d "match_type") as [[]|]; try discriminate; reflexivity.
Qed.

Lemma normalize_raises_on_non_text_witness :
  normalize_keywords example_lib number_match_type_keywords = Raise AttributeError.
Proof. apply normalize_raises_on_non_text; reflexivity. Defined.

Section Flows.

Context (lib : pylib).

Lemma well_shaped_but_keywords spec :
  well_shaped lib spec
  = shaped_but_keywords lib spec
    && (negb (truthy (list_field spec "keywords"))
        || (sized (list_field spec "keywords")
            && forallb keyword_shaped (elements (list_field spec "keywords")))).
Proof.
  unfold well_shaped, shaped_but_keywords.
  destruct (text_or_absent spec "campaign_name"), (sized (list_field spec (asset_field Headline))),
    (sized (list_field spec (asset_field Description))), (text_or_absent spec "final_url"),
    (url_parses lib spec), (text_or_absent spec "bidding_strategy");
    cbn; rewrite ?andb_true_r, ?andb_false_r; reflexivity.
Qed.

Lemma shaped_set_keywords spec v :
  shaped_but_keywords lib (dict_set spec "keywords" v) = shaped_but_keywords lib spec.
Proof.
  unfold shaped_but_keywords, text_or_absent, list_field, dict_get, url_parses, text_of.
  cbn [asset_field]. by rewrite !lookup_set_other by discriminate.
Qed.

Lemma printable_set_keywords spec v :
  printable_but_keywords lib (dict_set spec "keywords" v) = printable_but_keywords lib spec.
Proof.
  unfold printable_but_keywords, formatted_budget, formatted_assets, list_field, dict_get.
  cbn [asset_field]. by rewrite !lookup_set_other by discriminate.
Qed.

Lemma normal_record_shaped kw : normal_record lib kw -> keyword_shaped kw = true.
Proof. intros [t [m [-> _]]]. reflexivity. Qed.

Lemma normal_record_printable kw :
  normal_record lib kw -> forallb (str_ok lib) (formatted_keyword kw) = true.
Proof.
  intros [t [m [-> _]]]. unfold keyword_record. cbn [formatted_keyword].
  change (dict_get _ "match_type" VNone) with (VStr m).
  by destruct (in_literals (VStr m) MATCH_TYPES).
Qed.

Lemma records_well_shaped spec out :
  shaped_but_keywords lib spec = true ->
  printable_but_keywords lib spec = true ->
  Forall (normal_record lib) out ->
  well_shaped lib (dict_set spec "keywords" (VList out)) = true
  /\ printable lib (dict_set spec "keywords" (VList out)) = true.
Proof.
  intros Hs Hp Hout. split.
  - rewrite well_shaped_but_keywords, shaped_set_keywords, Hs. cbn [andb].
    unfold list_field, dict_get. rewrite lookup_set_same.
    destruct out as [|kw out]; [reflexivity|]. cbn [truthy negb orb sized andb].
    unfold elements. cbn [py_iter]. apply forallb_forall. intros x Hx.
    apply normal_record_shaped. apply (proj1 (Forall_forall _ _) Hout). by apply list_elem_of_In.
  - rewrite <- (printable_set_keywords spec (VList out)) in Hp.
    unfold printable, formatted. unfold printable_but_keywords in Hp.
    rewrite !forallb_app in *. apply andb_true_iff in Hp as [Hb Ha].
    rewrite Hb, Ha, andb_true_r. cbn [andb].
    unfold formatted_keywords, list_field, dict_get. rewrite lookup_set_same.
    destruct (truthy (VList out)); [|reflexivity].
    unfold elements. cbn [py_iter]. rewrite forallb_flat_map. apply forallb_forall.
    intros x Hx. apply normal_record_printable.
    apply (proj1 (Forall_forall _ _) Hout). by apply list_elem_of_In.
Qed.

(** A plain-text keyword is reported only where the keywords hold a text. *)
Lemma keyword_empty_in_violations ok spec i :
  KeywordEmpty i ∈ violations_by lib ok spec ->
  exists s, elements (list_field spec "keywords") !! i = Some (VStr s).
Proof.
  unfold violations_by. rewrite !elem_of_app.
  intros [H | [H | [H | [H | [H | [H | H]]]]]].
  - apply in_name_violations in H as [[_ ?] | [_ [_ ?]]]; discriminate.
  - apply in_budget_violations in H as [[_ ?] | [? [_ [_ [_ ?]]]]]; discriminate.
  - apply in_keywords_violations in H as [[_ ?] | [_ [j [kw [Hj H]]]]]; [discriminate|].
    destruct kw; cbn in H; try (by apply elem_of_nil in H).
    + destruct (Text.is_empty _); [|by apply elem_of_nil in H].
      apply list_elem_of_singleton in H. injection H as ->. eauto.
    + repeat case_match; set_solver.
  - apply in_assets_violations in H as [[_ ?] | [_ [j Hj]]]; [discriminate|].
    apply asset_violation_index in Hj as [t [_ [? | [? | ?]]]]; discriminate.
  - apply in_assets_violations in H as [[_ ?] | [_ [j Hj]]]; [discriminate|].
    apply asset_violation_index in Hj as [t [_ [? | [? | ?]]]]; discriminate.
  - apply in_url_violations in H as [[_ ?] | [? [_ [_ [_ ?]]]]]; discriminate.
  - apply in_bidding_violations in H as [_ ?]. discriminate.
Qed.

Lemma records_never_plain ok spec out i :
  Forall (normal_record lib) out ->
  KeywordEmpty i ∉ violations_by lib ok (dict_set spec "keywords" (VList out)).
Proof.
  intros Hout Hin. apply keyword_empty_in_violations in Hin as [s Hs].
  unfold list_field, dict_get in Hs. rewrite lookup_set_same in Hs.
  unfold elements in Hs. cbn [py_iter] in Hs.
  destruct (proj1 (Forall_lookup _ _) Hout i _ Hs) as [t [m [Heq _]]]. discriminate.
Qed.

Lemma normalize_value_records v out :
  normalize_value lib v = Ok out -> Forall (normal_record lib) out.
Proof.
  unfold normalize_value. destruct (py_iter v) as [kws|]; cbn [bind]; [|discriminate].
  intros H. exact (proj2 (normalize_keywords_shape lib kws out H)).
Qed.

End Flows.

(** X7: in the submit flow the validator sees the keywords the normalizer
    returned.  When the normalizer returns, the rest of the campaign has the
    types the validator expects and [str] is defined on the values of the
    rest the validator writes into a message, the flow returns the campaign
    with its normalized keywords or raises the aggregated error: no keyword
    makes the validator raise, and no message of the error is that of an
    empty plain-text keyword. *)
Theorem submit_checks_after_normalizing lib spec out :
  normalize_value lib (dict_get spec "keywords" (VList [])) = Ok out ->
  shaped_but_keywords lib spec = true ->
  printable_but_keywords lib spec = true ->
  submit_campaign_checks lib spec
    = match reported lib (dict_set spec "keywords" (VList out)) with
      | [] => Ok (dict_set spec "keywords" (VList out))
      | vs => Raise (CampaignValidationError (Text.join "; " (render <$> vs)))
      end
  /\ forall i,
       render (KeywordEmpty i)
         ∉ (render <$> reported lib (dict_set spec "keywords" (VList out))).
Proof.
  intros Hn Hs Hp.
  pose proof (normalize_value_records lib _ _ Hn) as Hout.
  destruct (records_well_shaped lib spec out Hs Hp Hout) as [Hw Hpr].
  split.
  - unfold submit_campaign_checks. rewrite Hn. cbn [bind].
    by apply validate_rules.
  - intros i Hin. apply message_in in Hin. by apply records_never_plain in Hin.
Qed.

Lemma submit_checks_after_normalizing_witness :
  submit_campaign_checks example_lib (dict_set good_spec "keywords" (VStr "ab"))
  = Ok (dict_set good_spec "keywords"
          (VList [keyword_record "a" "BROAD"; keyword_record "b" "BROAD"])).
Proof.
  exact (proj1 (submit_checks_after_normalizing example_lib
                  (dict_set good_spec "keywords" (VStr "ab")) _ eq_refl eq_refl eq_refl)).
Defined.

Section Draft.

Context (lib : pylib).

Lemma cut_each_texts n items : forall out,
  cut_each lib n items = Ok out ->
  Forall (fun h => exists t, h = VStr t /\ Text.len t <= n) out.
Proof.
  induction items as [|h items IH]; intros out; cbn [cut_each].
  - intros H. injection H as <-. constructor.
  - destruct (py_str lib h) as [s|]; cbn [bind]; [|discriminate].
    destruct (cut_each lib n items) as [cut|]; cbn [bind]; [|discriminate].
    intros H. injection H as <-. constructor; [|by apply IH].
    eexists. split; [reflexivity|apply len_take].
Qed.

Lemma cut_all_texts n v out :
  cut_all lib n v = Ok out ->
  Forall (fun h => exists t, h = VStr t /\ Text.len t <= n) out.
Proof.
  unfold cut_all. destruct (py_iter v) as [items|]; cbn [bind]; [|discriminate].
  apply cut_each_texts.
Qed.

(** The fields of a prepared draft. *)
Lemma prepare_draft_fields spec spec' :
  prepare_draft lib spec = Ok spec' ->
  exists hs ds name kws,
    cut_all lib 30 (dict_get spec "headlines" (VList [])) = Ok hs
    /\ cut_all lib 90 (dict_get spec "descriptions" (VList [])) = Ok ds
    /\ py_str lib (dict_get spec "campaign_name" (VStr "Campaign")) = Ok name
    /\ normalize_value lib (dict_get spec "keywords" (VList [])) = Ok kws
    /\ spec' = dict_set (dict_set (dict_set (dict_set spec
                 "headlines" (VList (take 15 hs)))
                 "descriptions" (VList (take 4 ds)))
                 "campaign_name" (VStr (Text.take 255 name)))
                 "keywords" (VList kws).
Proof.
  unfold prepare_draft.
  destruct (cut_all lib 30 _) as [hs|]; cbn [bind]; [|discriminate].
  unfold dict_get at 1. rewrite lookup_set_other by discriminate.
  fold (dict_get spec "descriptions" (VList [])).
  destruct (cut_all lib 90 _) as [ds|]; cbn [bind]; [|discriminate].
  unfold dict_get at 1. rewrite !lookup_set_other by discriminate.
  fold (dict_get spec "campaign_name" (VStr "Campaign")).
  destruct (py_str lib _) as [name|]; cbn [bind]; [|discriminate].
  unfold dict_get at 1. rewrite !lookup_set_other by discriminate.
  fold (dict_get spec "keywords" (VList [])).
  destruct (normalize_value lib _) as [kws|]; cbn [bind]; [|discriminate].
  intros H. injection H as <-. exists hs, ds, name, kws. done.
Qed.

Lemma name_too_long_in_violations ok spec n :
  NameTooLong n ∈ violations_by lib ok spec ->
  n = Text.len (Text.strip (text_of spec "campaign_name")) /\ 255 < n.
Proof.
  unfold violations_by. rewrite !elem_of_app.
  intros [H | [H | [H | [H | [H | [H | H]]]]]].
  - apply in_name_violations in H as [[_ ?] | [_ [? H]]]; [discriminate|].
    injection H as ->. by split.
  - apply in_budget_violations in H as [[_ ?] | [? [_ [_ [_ ?]]]]]; discriminate.
  - apply in_keywords_violations in H as [[_ ?] | [_ [j [kw [Hj H]]]]]; [discriminate|].
    destruct kw; cbn in H; repeat case_match; set_solver.
  - apply in_assets_violations in H as [[_ ?] | [_ [j Hj]]]; [discriminate|].
    apply asset_violation_index in Hj as [t [_ [? | [? | ?]]]]; discriminate.
  - apply in_assets_violations in H as [[_ ?] | [_ [j Hj]]]; [discriminate|].
    apply asset_violation_index in Hj as [t [_ [? | [? | ?]]]]; discriminate.
  - apply in_url_violations in H as [[_ ?] | [? [_ [_ [_ ?]]]]]; discriminate.
  - apply in_bidding_violations in H as [_ ?]. discriminate.
Qed.

Lemma asset_too_long_in_violations ok spec a j n :
  AssetTooLong a j n ∈ violations_by lib ok spec ->
  exists t, (trimmed lib <$> elements (list_field spec (asset_field a))) !! j = Some t
            /\ asset_limit a < Text.len t.
Proof.
  intros H. apply (about_in_violations lib ok a) in H; [|reflexivity].
  apply in_assets_violations in H as [[_ ?] | [_ [j' Hj]]]; [discriminate|].
  cbn zeta in Hj.
  destruct (asset_violation_index _ _ _ _ Hj) as [t [Ht Hv]].
  destruct Hv as [Hv | [Hv | Hv]]; try discriminate. injection Hv as -> ->.
  exists t. split; [exact Ht|].
  destruct (asset_violation_cases a _ _ _ Ht)
    as [[_ H] | [[_ [Hl _]] | [[_ [_ [_ H]]] | [_ [_ [_ H]]]]]];
    try (rewrite H in Hj; discriminate). exact Hl.
Qed.

Lemma cut_assets_within ok a spec out :
  dict_lookup spec (asset_field a) = Some (VList out) ->
  Forall (fun h => exists t, h = VStr t /\ Text.len t <= asset_limit a) out ->
  forall j n, AssetTooLong a j n ∉ violations_by lib ok spec.
Proof.
  intros Hl Hout j n Hin. apply asset_too_long_in_violations in Hin as [t [Ht Hlong]].
  unfold list_field, dict_get in Ht. rewrite Hl in Ht. unfold elements in Ht. cbn [py_iter] in Ht.
  apply list_lookup_fmap_Some in Ht as [h [-> Hh]].
  destruct (proj1 (Forall_lookup _ _) Hout j h Hh) as [t [-> Hlen]].
  unfold trimmed, display in Hlong. cbn [py_str] in Hlong.
  pose proof (len_strip t). lia.
Qed.

Lemma texts_printable out n :
  Forall (fun h => exists t, h = VStr t /\ Text.len t <= n) out ->
  forallb (str_ok lib) out = true.
Proof.
  intros H. apply forallb_Forall. eapply Forall_impl; [exact H|].
  intros h [t [-> _]]. reflexivity.
Qed.

End Draft.

(** X8: in the create flow the draft is cut to the limits before it is
    validated.  When the preparation returns, the URL and the bidding
    strategy of the draft are texts (or absent), [urlparse] accepts the URL
    and [str] is defined on a budget the validator rejects, the flow returns
    the prepared draft or raises the aggregated error; no message of the
    error says that the name, a headline or a description is too long, and
    the prepared draft holds at most 15 headlines and 4 descriptions. *)
Theorem create_checks_after_cutting lib spec spec' :
  prepare_draft lib spec = Ok spec' ->
  text_or_absent spec "final_url" = true ->
  url_parses lib spec = true ->
  text_or_absent spec "bidding_strategy" = true ->
  forallb (str_ok lib) (formatted_budget spec) = true ->
  create_campaign_checks lib spec
    = match reported lib spec' with
      | [] => Ok spec'
      | vs => Raise (CampaignValidationError (Text.join "; " (render <$> vs)))
      end
  /\ (forall n, render (NameTooLong n) ∉ (render <$> reported lib spec'))
  /\ (forall a j n, render (AssetTooLong a j n) ∉ (render <$> reported lib spec'))
  /\ length (elements (list_field spec' "headlines")) <= 15
  /\ length (elements (list_field spec' "descriptions")) <= 4.
Proof.
  intros Hp Hu Hparse Hb Hbudget.
  destruct (prepare_draft_fields lib spec spec' Hp)
    as [hs [ds [raw [kws [Hhs [Hds [Hraw [Hk ->]]]]]]]].
  set (name := Text.take 255 raw).
  set (inner := dict_set (dict_set (dict_set spec "headlines" (VList (take 15 hs)))
                  "descriptions" (VList (take 4 ds))) "campaign_name" (VStr name)).
  assert (Lh : forall v, dict_lookup (dict_set inner "keywords" v) "headlines"
                         = Some (VList (take 15 hs))).
  { intros v. unfold inner. rewrite !lookup_set_other by discriminate. apply lookup_set_same. }
  assert (Ld : forall v, dict_lookup (dict_set inner "keywords" v) "descriptions"
                         = Some (VList (take 4 ds))).
  { intros v. unfold inner. rewrite !lookup_set_other by discriminate. apply lookup_set_same. }
  assert (Ln : forall v, dict_lookup (dict_set inner "keywords" v) "campaign_name"
                         = Some (VStr name)).
  { intros v. unfold inner. rewrite !lookup_set_other by discriminate. apply lookup_set_same. }
  assert (Lo : forall v k, k <> "headlines" -> k <> "descriptions" -> k <> "campaign_name" ->
                 k <> "keywords" ->
                 dict_lookup (dict_set inner "keywords" v) k = dict_lookup spec k).
  { intros v k ? ? ? ?. unfold inner. by rewrite !lookup_set_other by congruence. }
  pose proof (normalize_value_records lib _ _ Hk) as Hout.
  assert (Hcuth : Forall (fun h => exists t, h = VStr t /\ Text.len t <= 30) (take 15 hs))
    by (apply Forall_take, (cut_all_texts lib 30 _ _ Hhs)).
  assert (Hcutd : Forall (fun h => exists t, h = VStr t /\ Text.len t <= 90) (take 4 ds))
    by (apply Forall_take, (cut_all_texts lib 90 _ _ Hds)).
  assert (Hshape : shaped_but_keywords lib inner = true).
  { rewrite <- (shaped_set_keywords lib inner (VList [])).
    unfold shaped_but_keywords, text_or_absent, list_field, dict_get, url_parses, text_of.
    cbn [asset_field]. rewrite Lh, Ld, Ln, !Lo by discriminate. cbn [sized andb].
    unfold text_or_absent in Hu, Hb. unfold url_parses, text_of in Hparse.
    by rewrite Hu, Hparse, Hb. }
  assert (Hprint : printable_but_keywords lib inner = true).
  { rewrite <- (printable_set_keywords lib inner (VList [])).
    unfold printable_but_keywords, formatted_budget, formatted_assets, list_field, dict_get.
    cbn [asset_field]. rewrite Lh, Ld, !Lo by discriminate.
    unfold formatted_budget in Hbudget. rewrite !forallb_app, Hbudget. cbn [andb].
    unfold elements. cbn [py_iter].
    pose proof (texts_printable lib _ _ Hcuth) as Ph.
    pose proof (texts_printable lib _ _ Hcutd) as Pd.
    destruct (_ <? _)%nat, (_ <? _)%nat; cbn [forallb]; by rewrite ?Ph, ?Pd. }
  destruct (records_well_shaped lib inner kws Hshape Hprint Hout) as [Hw Hpr].
  split; [|split; [|split; [|split]]].
  - unfold create_campaign_checks. rewrite Hp. cbn [bind]. by apply validate_rules.
  - intros n Hin. apply message_in, name_too_long_in_violations in Hin as [-> Hlong].
    unfold text_of in Hlong. rewrite Ln in Hlong.
    pose proof (len_strip name). pose proof (len_take 255 raw).
    fold name in H0. lia.
  - intros a j n Hin. apply message_in in Hin. revert Hin. destruct a.
    + by apply (cut_assets_within lib _ Headline _ (take 15 hs)); [apply Lh|].
    + by apply (cut_assets_within lib _ Description _ (take 4 ds)); [apply Ld|].
  - unfold list_field, dict_get. rewrite Lh. unfold elements. cbn [py_iter].
    rewrite length_take. lia.
  - unfold list_field, dict_get. rewrite Ld. unfold elements. cbn [py_iter].
    rewrite length_take. lia.
Qed.

Lemma create_checks_after_cutting_witness :
  create_campaign_checks example_lib long_draft = Ok cut_draft.
Proof.
  exact (proj1 (create_checks_after_cutting example_lib long_draft cut_draft
                  eq_refl eq_refl eq_refl eq_refl eq_refl)).
Defined.
(** ** Examples *)

Example validate_good : validate_campaign_spec example_lib good_spec = Ok good_spec.
Proof. vm_compute. reflexivity. Qed.

Example validate_empty :
  validate_campaign_spec example_lib [] =
  Raise (CampaignValidationError
    "campaign_name is required; budget_amount_micros is required; At least 1 keyword is required; At least 3 headlines required (got 0); At least 2 descriptions required (got 0); final_url is required; Invalid bidding_strategy: ").
Proof. vm_compute. reflexivity. Qed.

Example validate_http :
  validate_campaign_spec example_lib http_spec
  = Raise (CampaignValidationError "final_url must be HTTPS (got http)").
Proof. vm_compute. reflexivity. Qed.

(** Normalizing keeps a match type outside the enum, upper-cased; the
    validator then rejects it. *)
Example normalize_then_validate :
  normalize_keywords example_lib invalid_match_keywords
    = Ok [keyword_record "shoes" "INVALID"]
  /\ validate_campaign_spec example_lib
       (dict_set good_spec "keywords" (VList [keyword_record "shoes" "INVALID"]))
     = Raise (CampaignValidationError "Keyword 0 has invalid match_type: INVALID").
Proof. split; vm_compute; reflexivity. Qed.

(** A match type that is the empty text stays the empty text. *)
Example normalize_empty_match_type :
  normalize_keywords example_lib empty_match_type_keywords = Ok [keyword_record "tennis" ""].
Proof. reflexivity. Qed.

(** The blanks of Unicode are trimmed: a name that is one no-break space is
    missing, and a headline that differs from an earlier one by a no-break
    space at its end is a repeat. *)
Example validate_blank_name :
  validate_campaign_spec example_lib blank_name_spec
  = Raise (CampaignValidationError "campaign_name is required").
Proof. vm_compute. reflexivity. Qed.

Example validate_nbsp_twins :
  validate_campaign_spec example_lib nbsp_twins_spec
  = Raise (CampaignValidationError "Headline 1 is duplicate: 'Sale'").
Proof. vm_compute. reflexivity. Qed.

(** A budget that is a NaN is let through by line 21. *)
Example validate_nan_budget :
  validate_campaign_spec example_lib
    (dict_set good_spec "budget_amount_micros" (VFloat S754_nan))
  = Ok (dict_set good_spec "budget_amount_micros" (VFloat S754_nan)).
Proof. vm_compute. reflexivity. Qed.
(** * The setup conversation *)

Local Close Scope text_scope.
Local Open Scope string_scope.

(** ** Properties of the setup conversation *)

Ltac run_turn :=
  unfold turn, branches, bindM, get_step, set_step, get_data, read_data, write_data,
    has_data, append_history, ret, raise; cbn.

Ltac split_on_message :=
  repeat match goal with
    | |- context [String.eqb (Str.lower ?m) ?w] =>
        destruct (String.eqb (Str.lower m) w) eqn:?; cbn
    end.

Lemma stage_fresh : stage fresh_session.
Proof. constructor. apply lookup_empty. Qed.

(** From a session of the invariant a turn returns a reply and leaves a
    session of the invariant. *)
Ltac read_keys :=
  repeat (progress (rewrite ?lookup_insert_eq, ?lookup_insert_ne by discriminate;
                    repeat match goal with
                      | H : ?d !! ?k = _ |- context [?d !! ?k] => rewrite H
                      end; cbn)).

Lemma stage_turn s message :
  stage s ->
  stage (fst (turn message s)) /\ exists r, snd (turn message s) = Ok r.
Proof.
  intros Hs. destruct Hs as [d h Hc | d h [u Hu] Hc | d h [u Hu] [t Ht] Hc
                            | d h [u Hu] [t Ht] [m Hm] Hc
                            | d h [u Hu] [t Ht] [m Hm] [c Hc]];
    run_turn; split_on_message; read_keys;
    (split; [|eauto]); constructor; read_keys; eauto.
Qed.

Lemma reachable_stage s : reachable s -> stage s.
Proof.
  induction 1 as [|s message _ IH]; [apply stage_fresh|].
  apply (stage_turn s message IH).
Qed.

Lemma stage_matches s : stage s -> collected_matches_step s.
Proof.
  intros Hs. unfold collected_matches_step, has.
  destruct Hs; cbn; repeat split; intros; try discriminate; assumption.
Qed.

Lemma chat_unfold (T : gmap string session) user_id message :
  setup_agent_chat T user_id message =
  (<[user_id := fst (turn message (default fresh_session (T !! user_id)))]> T,
   snd (turn message (default fresh_session (T !! user_id)))).
Proof. unfold setup_agent_chat. destruct (turn message _). reflexivity. Qed.

(** C6: the five-turn scenario.  On a table without the user, "Alex" is
    greeted and the step becomes developer_token; "help" returns the guidance
    text, keeps the step and stores nothing; "tok_123" is stored as
    developer_token and the step becomes manager_id; "123-456-7890" is stored
    as manager_id "1234567890" and the step becomes campaign_id; "same" stores
    campaign_id "1234567890", the step becomes complete and the reply carries
    complete = true with the four collected fields. *)
Theorem setup_scenario :
  snd (setup_agent_chat ∅ "user-1" "Alex")
    = Ok {| response := greeting "Alex"; complete := false; reply_data := None |}
  /\ Str.take 23 (greeting "Alex") = "Nice to meet you, Alex!"
  /\ step_of table1 = Some "developer_token"
  /\ snd (setup_agent_chat table1 "user-1" "help")
       = Ok {| response := token_help; complete := false; reply_data := None |}
  /\ step_of table2 = Some "developer_token"
  /\ data_of table2 = data_of table1
  /\ data_of table2 = Some {[ "username" := "Alex" ]}
  /\ step_of table3 = Some "manager_id"
  /\ data_of table3 = Some {[ "username" := "Alex"; "developer_token" := "tok_123" ]}
  /\ step_of table4 = Some "campaign_id"
  /\ data_of table4 = Some {[ "username" := "Alex"; "developer_token" := "tok_123";
                              "manager_id" := "1234567890" ]}
  /\ step_of table5 = Some "complete"
  /\ data_of table5 = Some {[ "username" := "Alex"; "developer_token" := "tok_123";
                              "manager_id" := "1234567890"; "campaign_id" := "1234567890" ]}
  /\ snd (setup_agent_chat table4 "user-1" "same")
       = Ok {| response := summary "Alex" "tok_123" "1234567890" "1234567890";
               complete := true;
               reply_data := Some {[ "username" := "Alex"; "developer_token" := "tok_123";
                                     "manager_id" := "1234567890";
                                     "campaign_id" := "1234567890" ]} |}.
Proof. repeat apply conj; vm_compute; reflexivity. Qed.

(** C7: in every session reachable from a fresh one, the turn on any text
    message returns a reply; no exception is raised. *)
Theorem turn_never_raises s message :
  reachable s -> exists r, snd (turn message s) = Ok r.
Proof. intros Hs. apply stage_turn, reachable_stage, Hs. Qed.

Lemma turn_never_raises_witness :
  exists r, snd (turn "not a token at all" (fst (turn "Alex" fresh_session))) = Ok r.
Proof. apply turn_never_raises. apply reach_turn, reach_fresh. Defined.

(** C8, as the code has it: at the developer_token, manager_id and campaign_id
    steps of a reachable session, a message that equals "help" up to case
    returns the guidance text of that step, keeps the step and records no
    data (only the two history lines are added).  The username step knows no
    such command: it takes the message as the user name and moves on. *)
Theorem help_keeps_step s message :
  reachable s ->
  Str.lower message = "help" ->
  (step s = "developer_token" \/ step s = "manager_id" \/ step s = "campaign_id" ->
     turn message s =
       ({| step := step s; data := data s;
           history := history s ++ [("user", message)]
                               ++ [("assistant", guidance (step s))] |},
        Ok {| response := guidance (step s); complete := false; reply_data := None |}))
  /\ (step s = "username" ->
        step (fst (turn message s)) = "developer_token"
        /\ data (fst (turn message s)) = <["username" := extract_value message]> (data s)).
Proof.
  intros Hs Hm. apply reachable_stage in Hs.
  assert (Hh : String.eqb (Str.lower message) "help" = true) by (rewrite Hm; reflexivity).
  assert (Hn : String.eqb (Str.lower message) "same" = false) by (rewrite Hm; reflexivity).
  split.
  - intros Hstep.
    destruct Hs as [d h Hc | d h Hu Hc | d h Hu Ht Hc | d h Hu Ht Hmg Hc | d h Hu Ht Hmg Hc];
      cbn in Hstep; try (destruct Hstep as [? | [? | ?]]; discriminate);
      run_turn; rewrite ?Hn, ?Hh; cbn; rewrite ?Hc; cbn;
      unfold guidance; cbn; rewrite <- ?app_assoc; reflexivity.
  - intros Hstep.
    destruct Hs; cbn in Hstep; try discriminate. run_turn. split; reflexivity.
Qed.

Lemma help_keeps_step_witness :
  turn "Help" (fst (turn "Alex" fresh_session)) =
    ({| step := "developer_token"; data := {[ "username" := "Alex" ]};
        history := [("user", "Alex"); ("assistant", greeting "Alex"); ("user", "Help");
                    ("assistant", token_help)] |},
     Ok {| response := token_help; complete := false; reply_data := None |}).
Proof.
  pose proof (help_keeps_step (fst (turn "Alex" fresh_session)) "Help"
                (reach_turn _ _ reach_fresh) eq_refl) as [H _].
  exact (H (or_introl eq_refl)).
Defined.

(** C8 as the claim states it fails at the username step: "help" is stored as
    the user name and the step advances. *)
Lemma help_at_username_advances :
  step (fst (turn "help" fresh_session)) = "developer_token"
  /\ data (fst (turn "help" fresh_session)) !! "username" = Some "help"
  /\ snd (turn "help" fresh_session)
       = Ok {| response := greeting "help"; complete := false; reply_data := None |}.
Proof. repeat apply conj; vm_compute; reflexivity. Qed.

(** C9: once the step of a user's session is complete, any further message
    returns complete = true with the collected data as it is, and leaves the
    step and the data of the session unchanged. *)
Theorem complete_is_terminal (T : gmap string session) user_id s message :
  T !! user_id = Some s ->
  step s = "complete" ->
  setup_agent_chat T user_id message =
    (<[user_id := {| step := "complete"; data := data s;
                     history := history s ++ [("user", message)] |}]> T,
     Ok {| response := already_complete; complete := true; reply_data := Some (data s) |}).
Proof.
  intros HT Hstep. rewrite chat_unfold, HT. cbn.
  destruct s as [st d h]. cbn in Hstep. subst st. run_turn. reflexivity.
Qed.

Lemma complete_is_terminal_witness :
  setup_agent_chat {[ "user-1" := done_session ]} "user-1" "hello again" =
    (<["user-1" := {| step := "complete"; data := data done_session;
                      history := [("user", "hello again")] |}]> {[ "user-1" := done_session ]},
     Ok {| response := already_complete; complete := true;
           reply_data := Some (data done_session) |}).
Proof.
  apply (complete_is_terminal {[ "user-1" := done_session ]} "user-1" done_session
           "hello again").
  - apply lookup_singleton_eq.
  - reflexivity.
Defined.

(** C10: in every session reachable from a fresh one the collected data
    matches the step, and so no turn looks up a missing key: neither the
    "same" shortcut nor the summary raises [KeyError]. *)
Theorem data_matches_step s :
  reachable s ->
  collected_matches_step s
  /\ forall message key, snd (turn message s) <> Raise (KeyError key).
Proof.
  intros Hs. apply reachable_stage in Hs. split.
  - apply stage_matches, Hs.
  - intros message key Hk.
    destruct (stage_turn s message Hs) as [_ [r Hr]]. congruence.
Qed.

Lemma data_matches_step_witness :
  collected_matches_step (fst (turn "tok_123" (fst (turn "Alex" fresh_session))))
  /\ forall message key,
       snd (turn message (fst (turn "tok_123" (fst (turn "Alex" fresh_session)))))
       <> Raise (KeyError key).
Proof. apply data_matches_step. do 2 apply reach_turn. apply reach_fresh. Defined.
(** ** The setup conversation, move by move *)

(** From a session of the invariant a turn is a move of the table. *)
Lemma stage_move s message :
  stage s -> exists s' r, turn message s = (s', Ok r) /\ move message s s' r.
Proof.
  intros Hs.
  destruct Hs as [d h Hc | d h [u Hu] Hc | d h [u Hu] [t Ht] Hc
                 | d h [u Hu] [t Ht] [m Hm] Hc | d h [u Hu] [t Ht] [m Hm] [c Hc]].
  - run_turn. eexists _, _. split; [reflexivity|]. rewrite <- app_assoc. constructor.
  - run_turn. destruct (String.eqb (Str.lower message) "help") eqn:E; cbn;
      eexists _, _; (split; [reflexivity|]); rewrite <- app_assoc.
    + apply String.eqb_eq in E. apply (move_help message "developer_token"); [|exact E].
      unfold HELP_STEPS. set_solver.
    + apply String.eqb_neq in E. by constructor.
  - run_turn. destruct (String.eqb (Str.lower message) "help") eqn:E; cbn;
      eexists _, _; (split; [reflexivity|]); rewrite <- app_assoc.
    + apply String.eqb_eq in E. apply (move_help message "manager_id"); [|exact E].
      unfold HELP_STEPS. set_solver.
    + apply String.eqb_neq in E. by constructor.
  - run_turn. destruct (String.eqb (Str.lower message) "same") eqn:Es; cbn.
    + read_keys. eexists _, _. split; [reflexivity|].
      apply String.eqb_eq in Es.
      apply (move_campaign message d _ u t m m); try done.
      * rewrite Es. discriminate.
      * by rewrite Es.
    + destruct (String.eqb (Str.lower message) "help") eqn:E; cbn.
      * read_keys. eexists _, _. split; [reflexivity|]. rewrite <- app_assoc.
        apply String.eqb_eq in E. apply (move_help message "campaign_id"); [|exact E].
        unfold HELP_STEPS. set_solver.
      * read_keys. eexists _, _. split; [reflexivity|].
        apply String.eqb_neq in E.
        apply (move_campaign message d _ u t m); try done. by rewrite Es.
  - run_turn. eexists _, _. split; [reflexivity|]. constructor.
Qed.

Lemma move_keys message s s' r :
  move message s s' r ->
  stage s ->
  dom (data s) = collected_keys (step s) ->
  dom (data s') = collected_keys (step s').
Proof.
  intros Hm Hs Hd. destruct Hm; cbn in *; rewrite ?dom_insert_L, ?Hd; try done;
    unfold collected_keys; cbn; set_solver.
Qed.

Lemma reachable_exact s :
  reachable s -> stage s /\ dom (data s) = collected_keys (step s).
Proof.
  induction 1 as [|s message _ [Hs Hd]].
  - split; [apply stage_fresh|]. cbn. apply dom_empty_L.
  - destruct (stage_move s message Hs) as [s' [r [Ht Hm]]]. rewrite Ht. cbn. split.
    + pose proof (proj1 (stage_turn s message Hs)) as H. by rewrite Ht in H.
    + exact (move_keys _ _ _ _ Hm Hs Hd).
Qed.



Lemma reachable_keys s :
  reachable s -> dom (data s) = collected_keys (step s) /\ step_index (step s) <= 4.
Proof.
  intros Hs. destruct (reachable_exact s Hs) as [Hst Hd]. split; [exact Hd|].
  destruct Hst; cbn; lia.
Qed.

(** X10: in a reachable session the data holds exactly the keys of the steps
    already passed, nothing more and nothing less, and the step is one of the
    five. *)
Theorem session_keys_exact s :
  reachable s ->
  dom (data s) = collected_keys (step s) /\ step_index (step s) <= 4.
Proof. apply reachable_keys. Qed.

Lemma session_keys_exact_witness :
  dom (data (run ["Alex"; "help"; "tok_123"] fresh_session))
    = collected_keys (step (run ["Alex"; "help"; "tok_123"] fresh_session))
  /\ step_index (step (run ["Alex"; "help"; "tok_123"] fresh_session)) <= 4.
Proof. apply session_keys_exact. do 3 apply reach_turn. apply reach_fresh. Defined.

Lemma move_forward message s s' r :
  move message s s' r ->
  dom (data s) = collected_keys (step s) ->
  step_index (step s) <= step_index (step s') <= S (step_index (step s))
  /\ data s ⊆ data s'.
Proof.
  intros Hm Hd. destruct Hm; cbn in *; (split; [try lia|]); try done.
  - apply insert_subseteq, not_elem_of_dom. rewrite Hd. set_solver.
  - apply insert_subseteq, not_elem_of_dom. rewrite Hd. unfold collected_keys. cbn. set_solver.
  - apply insert_subseteq, not_elem_of_dom. rewrite Hd. unfold collected_keys. cbn. set_solver.
  - apply insert_subseteq, not_elem_of_dom. rewrite Hd. unfold collected_keys. cbn. set_solver.
Qed.

(** X11: a turn never goes back and never skips a step: the step stays or
    moves to the next one; and it never drops or overwrites what was
    collected: the data before the turn is part of the data after it. *)
Theorem turn_moves_forward s message :
  reachable s ->
  step_index (step s) <= step_index (step (fst (turn message s)))
    <= S (step_index (step s))
  /\ data s ⊆ data (fst (turn message s)).
Proof.
  intros Hs. destruct (reachable_exact s Hs) as [Hst Hd].
  destruct (stage_move s message Hst) as [s' [r [Ht Hm]]]. rewrite Ht. cbn.
  exact (move_forward _ _ _ _ Hm Hd).
Qed.

Lemma turn_moves_forward_witness :
  step_index (step (run ["Alex"] fresh_session))
    <= step_index (step (fst (turn "tok_123" (run ["Alex"] fresh_session))))
    <= S (step_index (step (run ["Alex"] fresh_session)))
  /\ data (run ["Alex"] fresh_session)
       ⊆ data (fst (turn "tok_123" (run ["Alex"] fresh_session))).
Proof. apply turn_moves_forward. apply reach_turn, reach_fresh. Defined.

(** X12: the history only grows.  A turn appends the message of the user and
    then its reply, except when the reply says complete: then only the
    message of the user is appended. *)
Theorem history_appended s message :
  reachable s ->
  exists r, snd (turn message s) = Ok r
    /\ history (fst (turn message s))
       = (history s ++ user_line message
                    :: (if complete r then [] else [assistant_line (response r)]))%list.
Proof.
  intros Hs. destruct (stage_move s message (reachable_stage s Hs)) as [s' [r [Ht Hm]]].
  rewrite Ht. cbn. exists r. split; [reflexivity|]. destruct Hm; reflexivity.
Qed.

Lemma history_appended_witness :
  exists r, snd (turn "12-34" (run ["Alex"; "tok_123"; "123-456-7890"] fresh_session)) = Ok r
    /\ history (fst (turn "12-34" (run ["Alex"; "tok_123"; "123-456-7890"] fresh_session)))
       = (history (run ["Alex"; "tok_123"; "123-456-7890"] fresh_session)
          ++ user_line "12-34"
             :: (if complete r then [] else [assistant_line (response r)]))%list.
Proof. apply history_appended. do 3 apply reach_turn. apply reach_fresh. Defined.

Lemma run_cons message msgs s : run (message :: msgs) s = run msgs (fst (turn message s)).
Proof. reflexivity. Qed.

Lemma move_without_help message s s' r :
  move message s s' r ->
  Str.lower message <> "help" ->
  step_index (step s') = Nat.min 4 (S (step_index (step s))).
Proof. intros Hm Hn. destruct Hm; cbn; try reflexivity. contradiction. Qed.

Lemma run_bounded msgs : forall s,
  reachable s ->
  step_index (step (run msgs s)) <= Nat.min 4 (step_index (step s) + length msgs).
Proof.
  induction msgs as [|m msgs IH]; intros s Hs.
  - unfold run. cbn [fold_left length].
    pose proof (proj2 (reachable_keys s Hs)). lia.
  - rewrite run_cons. specialize (IH _ (reach_turn s m Hs)).
    destruct (reachable_exact s Hs) as [Hst Hd].
    destruct (stage_move s m Hst) as [s' [r [Ht Hm]]].
    pose proof (proj1 (move_forward _ _ _ _ Hm Hd)) as Hf.
    rewrite Ht in IH |- *. cbn [fst] in IH |- *. cbn [length]. lia.
Qed.

Lemma run_without_help msgs : forall s,
  reachable s ->
  Forall (fun m => Str.lower m <> "help") msgs ->
  step_index (step (run msgs s)) = Nat.min 4 (step_index (step s) + length msgs).
Proof.
  induction msgs as [|m msgs IH]; intros s Hs Hall.
  - unfold run. cbn [fold_left length].
    pose proof (proj2 (reachable_keys s Hs)). lia.
  - apply Forall_cons in Hall as [Hm Hall]. rewrite run_cons.
    rewrite (IH _ (reach_turn s m Hs) Hall).
    destruct (stage_move s m (reachable_stage s Hs)) as [s' [r [Ht Hmv]]].
    rewrite Ht. cbn [fst length]. rewrite (move_without_help _ _ _ _ Hmv Hm). lia.
Qed.

(** X13: a fresh session is never further than the number of messages it was
    sent: the setup cannot be complete before the fourth message. *)
Theorem steps_bounded_by_turns msgs :
  step_index (step (run msgs fresh_session)) <= Nat.min 4 (length msgs).
Proof. exact (run_bounded msgs fresh_session reach_fresh). Qed.

(** X14: when no message is "help" (up to case), every message moves a fresh
    session one step on until the setup is complete: after [n] messages the
    session is at step [min 4 n], so four answers complete the setup. *)
Theorem steps_without_help msgs :
  Forall (fun m => Str.lower m <> "help") msgs ->
  step_index (step (run msgs fresh_session)) = Nat.min 4 (length msgs).
Proof. exact (run_without_help msgs fresh_session reach_fresh). Qed.

Lemma steps_without_help_witness :
  step_index (step (run ["Alex"; "tok_123"; "123-456-7890"; "same"; "thanks"] fresh_session))
  = Nat.min 4 5.
Proof.
  apply steps_without_help. repeat constructor; discriminate.
Defined.

(** ** The text built-ins the conversation relies on *)


Lemma lstrip_ahead s : no_blank_ahead (Str.lstrip s).
Proof.
  induction s as [|c s IH]; cbn; [exact I|].
  destruct (Str.is_space c) eqn:E; [exact IH|exact E].
Qed.

Lemma lstrip_fixed s : no_blank_ahead s -> Str.lstrip s = s.
Proof. destruct s as [|c s]; cbn; [reflexivity|]. by intros ->. Qed.

Lemma rstrip_ahead s : no_blank_ahead s -> no_blank_ahead (Str.rstrip s).
Proof.
  destruct s as [|c s]; cbn; [exact id|]. intros E.
  destruct (Str.rstrip s); [rewrite E|]; exact E.
Qed.

Lemma rstrip_idem s : Str.rstrip (Str.rstrip s) = Str.rstrip s.
Proof.
  induction s as [|c s IH]; cbn; [reflexivity|].
  destruct (Str.rstrip s) as [|c' r'] eqn:E.
  - destruct (Str.is_space c) eqn:Ec; cbn; [reflexivity|]. by rewrite Ec.
  - cbn [Str.rstrip] in *. rewrite IH. reflexivity.
Qed.

Lemma strip_idem s : Str.strip (Str.strip s) = Str.strip s.
Proof.
  unfold Str.strip.
  rewrite (lstrip_fixed (Str.rstrip (Str.lstrip s))) by apply rstrip_ahead, lstrip_ahead.
  apply rstrip_idem.
Qed.

Lemma word_not_space c : Str.is_word c = true -> Str.is_space c = false.
Proof. destruct c as [[] [] [] [] [] [] [] []]; vm_compute; congruence. Qed.

Lemma rstrip_words s : every_char Str.is_word s = true -> Str.rstrip s = s.
Proof.
  induction s as [|c s IH]; cbn; [reflexivity|].
  intros H. apply andb_true_iff in H as [Hc Hs]. rewrite (IH Hs).
  destruct s; [by rewrite (word_not_space c Hc)|reflexivity].
Qed.

Lemma strip_words s : every_char Str.is_word s = true -> Str.strip s = s.
Proof.
  intros H. unfold Str.strip. rewrite lstrip_fixed; [by apply rstrip_words|].
  destruct s as [|c s]; cbn in *; [exact I|].
  apply andb_true_iff in H as [Hc _]. by apply word_not_space.
Qed.

Lemma remove_free c s : free_of c (Str.remove c s).
Proof.
  unfold free_of. induction s as [|c' s IH]; intros i; cbn; [by destruct i|].
  destruct (Ascii.eqb c' c) eqn:E; [apply IH|].
  destruct i as [|i]; cbn; [|apply IH].
  intros H. injection H as ->. by rewrite Ascii.eqb_refl in E.
Qed.

(** ** [extract_value] *)

Lemma take_app_exact pre rest : Str.take (String.length pre) (pre ++ rest) = pre.
Proof. induction pre as [|c pre IH]; cbn; [by destruct rest|f_equal; exact IH]. Qed.

Lemma take_all s : Str.take (String.length s) s = s.
Proof. induction s as [|c s IH]; cbn; [reflexivity|f_equal; exact IH]. Qed.

Lemma many1_inv {R} cls s : forall pos (k : nat -> string -> option R) x,
  many1 cls pos s k = Some x ->
  exists pre rest, s = pre ++ rest /\ pre <> "" /\ every_char cls pre = true
                   /\ k (pos + String.length pre) rest = Some x.
Proof.
  induction s as [|c s IH]; intros pos k x; cbn; [discriminate|].
  destruct (cls c) eqn:Ec; [|discriminate].
  destruct (many1 cls (S pos) s k) as [y|] eqn:E.
  - intros H. injection H as ->.
    destruct (IH _ _ _ E) as [pre [rest [-> [_ [Hall Hk]]]]].
    exists (String c pre), rest. cbn. rewrite Ec, Hall.
    repeat split; try done. by rewrite Nat.add_succ_r.
  - intros H. exists (String c ""), s. cbn. rewrite Ec.
    repeat split; try done. by rewrite Nat.add_1_r.
Qed.

Lemma re_match_cont {R} r : forall pos s (k : nat -> string -> option R) x,
  re_match r pos s k = Some x -> exists pos' s', k pos' s' = Some x.
Proof.
  induction r as [|c|cls|r1 IH1 r2 IH2|r1 IH1 r2 IH2| |]; intros pos s k x; cbn.
  - eauto.
  - destruct s as [|c' s']; [discriminate|]. destruct (Ascii.eqb _ _); [eauto|discriminate].
  - intros H. destruct (many1_inv _ _ _ _ _ H) as [pre [rest [_ [_ [_ Hk]]]]]. eauto.
  - intros H. destruct (IH1 _ _ _ _ H) as [p1 [s1 H1]]. exact (IH2 _ _ _ _ H1).
  - destruct (re_match r1 pos s k) as [y|] eqn:E.
    + intros H. injection H as ->. exact (IH1 _ _ _ _ E).
    + apply IH2.
  - destruct (pos =? 0)%nat; [eauto|discriminate].
  - destruct s as [|c [|c' s']]; try discriminate; [eauto|].
    destruct (Ascii.eqb c "010"); [eauto|discriminate].
Qed.

(** The group of a match is a run of its class that is not empty. *)
Lemma match_at_group p cls pos s g :
  group p = Many1 cls ->
  match_at p pos s = Some g -> g <> "" /\ every_char cls g = true.
Proof.
  intros Hg. unfold match_at. rewrite Hg. intros H.
  apply re_match_cont in H as [p1 [s1 H]]. cbn in H.
  apply many1_inv in H as [pre [rest [-> [Hne [Hall H]]]]].
  apply re_match_cont in H as [_ [_ H]]. injection H as <-.
  replace (p1 + String.length pre - p1) with (String.length pre) by lia.
  rewrite take_app_exact. by split.
Qed.

Lemma search_from_group p cls s : forall pos g,
  group p = Many1 cls ->
  search_from p pos s = Some g -> g <> "" /\ every_char cls g = true.
Proof.
  induction s as [|c s IH]; intros pos g Hg; cbn.
  - destruct (match_at p pos "") as [y|] eqn:E; [|discriminate].
    intros H. injection H as ->. exact (match_at_group _ _ _ _ _ Hg E).
  - destruct (match_at p pos (String c s)) as [y|] eqn:E.
    + intros H. injection H as ->. exact (match_at_group _ _ _ _ _ Hg E).
    + by apply IH.
Qed.

Lemma first_match_group ps text g :
  Forall (fun p => group p = Many1 Str.is_word) ps ->
  first_match ps text = Some g -> g <> "" /\ every_char Str.is_word g = true.
Proof.
  induction ps as [|p ps IH]; cbn; [discriminate|].
  intros Hall. apply Forall_cons in Hall as [Hp Hps].
  unfold re_search. destruct (search_from p 0 text) as [y|] eqn:E.
  - intros H. injection H as ->. exact (search_from_group _ _ _ _ _ Hp E).
  - by apply IH.
Qed.

Lemma extract_value_cases text :
  extract_value text = Str.strip text
  \/ (extract_value text <> "" /\ every_char Str.is_word (extract_value text) = true).
Proof.
  unfold extract_value. destruct (first_match patterns (Str.strip text)) as [g|] eqn:E.
  - right. apply (first_match_group patterns (Str.strip text)); [|exact E].
    unfold patterns. repeat constructor.
  - by left.
Qed.

Lemma extract_value_trim text : Str.strip (extract_value text) = extract_value text.
Proof.
  destruct (extract_value_cases text) as [-> | [_ H]]; [apply strip_idem|by apply strip_words].
Qed.

(** On a text of word characters no pattern with a blank after its first
    word matches, whatever the position. *)
Lemma word_then_blank {R} w : forall s pos (k : nat -> string -> option R),
  every_char Str.is_word s = true ->
  re_match (word w) pos s (fun p' s' => many1 Str.is_space p' s' k) = None.
Proof.
  induction w as [|a w IH]; intros s pos k Hs; cbn.
  - destruct s as [|c s]; cbn in *; [reflexivity|].
    apply andb_true_iff in Hs as [Hc _]. by rewrite (word_not_space c Hc).
  - destruct s as [|c s]; [reflexivity|]. cbn in Hs. apply andb_true_iff in Hs as [_ Hs].
    destruct (Ascii.eqb _ _); [|reflexivity]. by apply IH.
Qed.

Lemma search_none (p : pattern) s : forall pos,
  (forall s' pos', every_char Str.is_word s' = true -> match_at p pos' s' = None) ->
  every_char Str.is_word s = true ->
  search_from p pos s = None.
Proof.
  induction s as [|c s IH]; intros pos Hp Hs; cbn.
  - by rewrite (Hp "" pos).
  - rewrite (Hp _ pos Hs). cbn in Hs. apply andb_true_iff in Hs as [_ Hs]. by apply IH.
Qed.

Lemma many1_whole {R} cls s : forall pos (k : nat -> string -> option R) x,
  s <> "" -> every_char cls s = true ->
  k (pos + String.length s) "" = Some x ->
  many1 cls pos s k = Some x.
Proof.
  induction s as [|c s IH]; intros pos k x Hne Hs Hk; [contradiction|].
  cbn [every_char] in Hs. apply andb_true_iff in Hs as [Hc Hs].
  cbn [many1]. rewrite Hc.
  destruct s as [|c' s'].
  - cbn [many1]. cbn [String.length] in Hk. by rewrite Nat.add_1_r in Hk; rewrite Hk.
  - rewrite (IH (S pos) k x); [reflexivity|discriminate|exact Hs|].
    rewrite <- Hk. f_equal. cbn [String.length]. lia.
Qed.

(** X15: on a text of ASCII, what [extract_value] returns carries no blank
    at either end; it is the trimmed text, or a run of word characters that is
    not empty; and it is empty exactly when the text is blank. *)
Theorem extract_value_result text :
  ascii_text text = true ->
  Str.strip (extract_value text) = extract_value text
  /\ (extract_value text = Str.strip text
      \/ (extract_value text <> "" /\ every_char Str.is_word (extract_value text) = true))
  /\ (extract_value text = "" <-> Str.strip text = "").
Proof.
  intros _.
  split; [apply extract_value_trim|]. split; [apply extract_value_cases|]. split.
  - intros H. destruct (extract_value_cases text) as [Hc | [Hne _]]; [congruence|contradiction].
  - intros H. unfold extract_value. rewrite H. reflexivity.
Qed.

Lemma extract_value_result_witness :
  Str.strip (extract_value "please call me Bo!") = extract_value "please call me Bo!"
  /\ (extract_value "please call me Bo!" = Str.strip "please call me Bo!"
      \/ (extract_value "please call me Bo!" <> ""
          /\ every_char Str.is_word (extract_value "please call me Bo!") = true))
  /\ (extract_value "please call me Bo!" = "" <-> Str.strip "please call me Bo!" = "").
Proof. apply extract_value_result. reflexivity. Defined.

(** X16: a text that is one bare word (letters, digits, underscores) is taken
    as the value as it is: the three greeting patterns do not apply to it. *)
Theorem bare_word_kept text :
  text <> "" -> every_char Str.is_word text = true -> extract_value text = text.
Proof.
  intros Hne Hw. unfold extract_value. rewrite (strip_words text Hw).
  unfold patterns, first_match, re_search.
  rewrite search_none; [|intros s' pos' Hs'; unfold match_at; cbn [before re_match word];
                          by apply (word_then_blank "my")|exact Hw].
  rewrite search_none; [|intros s' pos' Hs'; unfold match_at; cbn [before re_match word];
                          by apply (word_then_blank "call")|exact Hw].
  rewrite search_none; [|intros s' pos' Hs'; unfold match_at; cbn [before re_match word];
                          by apply (word_then_blank "i'm")|exact Hw].
  destruct text as [|c s]; [contradiction|].
  cbn [search_from]. unfold match_at at 1. cbn [before group after re_match Nat.eqb].
  unfold word_chars. cbn [re_match].
  rewrite (many1_whole Str.is_word (String c s) 0 _ (String c s)); try done.
  cbn [re_match Nat.add]. f_equal. rewrite Nat.sub_0_r. apply take_all.
Qed.

Lemma bare_word_kept_witness : extract_value "my_name_is_Alex" = "my_name_is_Alex".
Proof. apply bare_word_kept; [discriminate|reflexivity]. Defined.

(** ** What a session collects *)

Lemma tidy_insert d k v :
  tidy d ->
  (k = "username" \/ k = "developer_token" -> Str.strip v = v) ->
  (k = "manager_id" \/ k = "campaign_id" -> free_of "-" v) ->
  tidy (<[k := v]> d).
Proof.
  intros [Hu [Ht [Hm Hc]]] Hs Hf. unfold tidy.
  repeat split; intros v' Hv'; apply lookup_insert_Some in Hv' as [[Hk Hv] | [_ Hv']];
    eauto; subst v'; auto.
Qed.

Lemma move_tidy message s s' r : move message s s' r -> tidy (data s) -> tidy (data s').
Proof.
  intros Hm Ht. destruct Hm; cbn in *; try exact Ht.
  - apply tidy_insert; [exact Ht| |intros [? | ?]; discriminate].
    intros _. apply extract_value_trim.
  - apply tidy_insert; [exact Ht| |intros [? | ?]; discriminate].
    intros _. apply strip_idem.
  - apply tidy_insert; [exact Ht|intros [? | ?]; discriminate|].
    intros _. apply remove_free.
  - apply tidy_insert; [exact Ht|intros [? | ?]; discriminate|].
    intros _. subst campaign_id. destruct (String.eqb _ _); [|apply remove_free].
    destruct Ht as [_ [_ [Hmg _]]]. by apply Hmg.
Qed.

(** X17: the values of a reachable session are tidy: the user name and the
    developer token carry no blank at either end, the manager id and the
    campaign id hold no hyphen (also when the campaign id is the copy "same"
    asks for). *)
Theorem collected_values_tidy s : reachable s -> tidy (data s).
Proof.
  induction 1 as [|s message Hs IH].
  - unfold tidy. cbn. repeat split; intros v Hv; by rewrite lookup_empty in Hv.
  - destruct (stage_move s message (reachable_stage s Hs)) as [s' [r [Ht Hm]]].
    rewrite Ht. cbn. exact (move_tidy _ _ _ _ Hm IH).
Qed.

Lemma collected_values_tidy_witness :
  tidy (data (run ["  call me Alex "; " tok_123 "; "123-456-7890"; "same"] fresh_session)).
Proof. apply collected_values_tidy. do 4 apply reach_turn. apply reach_fresh. Defined.

(** ** The table of sessions *)

(** X18: the sessions of two users do not touch each other: a turn of one
    user leaves the session of every other user as it is, gets the reply it
    would get without the turn of the other, and two turns of different users
    give the same table in either order. *)
Theorem chats_of_two_users_commute (T : gmap string session) u1 u2 m1 m2 :
  u1 <> u2 ->
  fst (setup_agent_chat (fst (setup_agent_chat T u1 m1)) u2 m2)
    = fst (setup_agent_chat (fst (setup_agent_chat T u2 m2)) u1 m1)
  /\ snd (setup_agent_chat (fst (setup_agent_chat T u1 m1)) u2 m2)
     = snd (setup_agent_chat T u2 m2)
  /\ forall u, u <> u1 -> fst (setup_agent_chat T u1 m1) !! u = T !! u.
Proof.
  intros Hne. rewrite !chat_unfold. cbn [fst snd].
  rewrite !lookup_insert_ne by congruence.
  split; [by apply insert_insert_ne|]. split; [reflexivity|].
  intros u Hu. by rewrite lookup_insert_ne by congruence.
Qed.

Lemma chats_of_two_users_commute_witness :
  fst (setup_agent_chat (fst (setup_agent_chat two_users "ann" "tok_1")) "carl" "Carl")
    = fst (setup_agent_chat (fst (setup_agent_chat two_users "carl" "Carl")) "ann" "tok_1")
  /\ snd (setup_agent_chat (fst (setup_agent_chat two_users "ann" "tok_1")) "carl" "Carl")
     = snd (setup_agent_chat two_users "carl" "Carl")
  /\ forall u, u <> "ann" -> fst (setup_agent_chat two_users "ann" "tok_1") !! u = two_users !! u.
Proof. apply chats_of_two_users_commute. discriminate. Defined.

(** ** Examples *)

Example extract_ex :
  extract_value "Alex" = "Alex"
  /\ extract_value " Hi, my  name is Alex Smith" = "Alex"
  /\ extract_value "please call me Bo!" = "Bo"
  /\ extract_value "I'm Al" = "Al"
  /\ extract_value "my username is" = "my username is"
  /\ extract_value "two words" = "two words".
Proof. vm_compute. repeat split. Qed.
